(** * PatrickStar / HybridPS: chunk placement, memory budget and access protocol

    A shallow embedding of

    - [src/patrickstar/manager/manager.py] ([PatrickStarManager]: the
      process-wide memory budget tracker), and
    - [src/client.py] ([HybridPSClient]: the access/release protocol),

    together with the properties of the specification that concern them.

    Conventions.  Python [int]s are [Z] (or [nat] for indexes and ids).  The
    manager mixes [int]s and [float]s (budgets are a physical size times a
    ratio); its numbers are embedded as exact rationals [Q], so rounding is
    outside the model.  Python's [min(a, b)] and [max(a, b)] return the first
    extremal argument, which is what [Qmin] and [Qmax] do.  A Python exception
    leaves the mutations made so far in place, so every effectful function
    returns the state it reached together with its outcome. *)

From Stdlib Require Import ZArith QArith Qminmax Lia Lqa.
From stdpp Require Import base option list strings gmap.

(** ** Devices ([torch.device]) *)

Record Device := mkDevice { dev_type : string; dev_index : option nat }.

#[global] Instance Device_eq_dec : EqDecision Device.
Proof. solve_decision. Defined.

(** [torch.device('cpu')], [torch.device("cpu:0")], [torch.device(f"cuda:{r}")] *)
Definition cpu_device : Device := mkDevice "cpu" None.
Definition cpu0_device : Device := mkDevice "cpu" (Some 0).
Definition cuda_device (rank : nat) : Device := mkDevice "cuda" (Some rank).

(** ** Exceptions and the state-and-exception monad *)

Inductive exn :=
| RuntimeError
| AssertionError
| IndexError
| KeyError
| AttributeError
| TypeError          (* [raise "some string"]: exceptions must derive from BaseException *)
| CalleeError.       (* raised inside a collaborator whose code is not in the sources *)

#[global] Instance exn_eq_dec : EqDecision exn.
Proof. solve_decision. Defined.

Inductive outcome (S A : Type) :=
| Ok (a : A) (s : S)
| Raise (e : exn) (s : S).
Arguments Ok {S A} a s.
Arguments Raise {S A} e s.

Definition M (S A : Type) : Type := S -> outcome S A.

Definition ret {S A} (a : A) : M S A := fun s => Ok a s.
Definition raise {S A} (e : exn) : M S A := fun s => Raise e s.
Definition bind {S A B} (m : M S A) (k : A -> M S B) : M S B :=
  fun s => match m s with
           | Ok a s' => k a s'
           | Raise e s' => Raise e s'
           end.
Definition get {S} : M S S := fun s => Ok s s.
Definition modify {S} (f : S -> S) : M S unit := fun s => Ok tt (f s).

Declare Scope py_scope.
Delimit Scope py_scope with py.
Notation "x <- m ;; k" := (bind m (fun x => k))
  (at level 100, m at next level, right associativity) : py_scope.
Notation "m ;;; k" := (bind m (fun _ => k))
  (at level 100, right associativity) : py_scope.

(** [for x in l: body x] *)
Fixpoint for_each {S A} (l : list A) (body : A -> M S unit) : M S unit :=
  match l with
  | [] => ret tt
  | x :: l' => (body x ;;; for_each l' body)%py
  end.

(** The state reached, whatever the outcome. *)
Definition final_state {S A} (o : outcome S A) : S :=
  match o with Ok _ s => s | Raise _ s => s end.

Definition succeeded {S A} (o : outcome S A) : bool :=
  match o with Ok _ _ => true | Raise _ _ => false end.

(** ** Chunks

    [const.py], [chunk.py] and [chunk_list.py] are imported by the sources but
    are not among them; the data model below follows section 3 of the
    specification. *)

(** Modelled from the spec: [PSTensorStatus] of the missing [const.py]:
    "status ∈ {UNINIT, HOLD, COMPUTE, FREE}". *)
Inductive PSTensorStatus := UNINIT | HOLD | COMPUTE | FREE.

#[global] Instance PSTensorStatus_eq_dec : EqDecision PSTensorStatus.
Proof. solve_decision. Defined.

(** Modelled from the spec: [AccessType] of the missing [const.py]; the client
    distinguishes the parameter's data from its gradient. *)
Inductive AccessType := DATA | GRAD.

(** Modelled from the spec: the per-tensor record of the missing [chunk.py]:
    "tensor_id, owning chunk, offset and extent within the chunk, status".
    The id is [None] for a tensor allocated without one ([new_tensor] allows
    it). *)
Record TensorInfo := mkTensorInfo {
  tensor_id : option Z;
  start : Z;
  numel : Z;
  status : PSTensorStatus }.

(** Modelled from the spec: the chunk of the missing [chunk.py]: "fixed
    capacity, current device, an ordered set of TensorRecords", and the touch
    time that [touch()] stamps. *)
Record Chunk := mkChunk {
  capacity : Z;
  device : Device;
  tensor_info_list : list TensorInfo;
  timestamp : Z }.

(** Modelled from the spec: the aggregate status of a chunk: "COMPUTE if any
    member is COMPUTE, else HOLD if any member is HOLD, else FREE". *)
Definition has_status (st : PSTensorStatus) (c : Chunk) : bool :=
  existsb (fun i => bool_decide (status i = st)) (tensor_info_list c).

Definition get_status (c : Chunk) : PSTensorStatus :=
  if has_status COMPUTE c then COMPUTE
  else if has_status HOLD c then HOLD
  else FREE.

(** Modelled from the spec: [ChunkList.get_chunk_memory_used(device)]: "sum of
    capacities of chunks currently resident on device". *)
Definition get_chunk_memory_used (d : Device) (cl : list Chunk) : Z :=
  foldr (fun c acc => if decide (device c = d) then (capacity c + acc)%Z else acc)
        0%Z cl.

(** ** Metronome

    [metronome.py] is imported by [manager.py] but is not among the sources. *)
Module Metronome.

(** Modelled from the spec: the missing [Metronome]: "moment counter in
    [0, iteration_length), a warmup flag". *)
Record t := mk {
  _moment : nat;
  _total_moment : nat;
  _is_warmup : bool }.

Definition moment (m : t) : nat := _moment m.
Definition is_warmup (m : t) : bool := _is_warmup m.
Definition set_warmup (flag : bool) (m : t) : t :=
  mk (_moment m) (_total_moment m) flag.

(** Modelled from the spec: "[next_moment()] returns the index that will
    follow (wrapping to 0 at iteration end)". *)
Definition next_moment (m : t) : nat :=
  if decide (S (_moment m) < _total_moment m) then S (_moment m) else 0.

(** Modelled from the spec: "[tiktac()] advances the counter". *)
Definition tiktac (m : t) : t :=
  mk (S (_moment m)) (_total_moment m) (_is_warmup m).

End Metronome.

(** ** The memory manager ([src/patrickstar/manager/manager.py]) *)
Module Manager.

(** Modelled from the spec: [TrainingStage] of the missing
    [patrickstar/core/const.py]: "current training stage ∈ {UNSTART, WARMUP,
    FWD, BWD, ADAM}". *)
Inductive TrainingStage := UNSTART | WARMUP | FWD | BWD | ADAM.

#[global] Instance TrainingStage_eq_dec : EqDecision TrainingStage.
Proof. solve_decision. Defined.

(** The fields of [PatrickStarManager] that the methods below read or write. *)
Record t := mk {
  local_rank : nat;
  gpu_chunk_used_mem : Q;
  cpu_chunk_used_mem : Q;
  warmup_gpu_chunk_mem_ratio : Q;
  always_warmup : bool;
  _overall_gpu_mem : Q;
  _overall_cpu_mem : Q;
  cpu_used_list : list Q;
  cpu_chunk_used_list : list Q;
  cpu_sys_used_list : list Q;
  gpu_used_list : list Q;
  gpu_chunk_used_list : list Q;
  gpu_sys_used_list : list Q;
  _start_training : bool;
  _training_stage : TrainingStage;
  _param_fp16_chunk_size : Q;
  _default_chunk_size : Q }.

(** The module-level [profiler] object. *)
Record Profiler := mkProfiler {
  started : bool;
  stage_convert_time : list (Q * TrainingStage);
  gpu_memory_used : list (nat * Q * Q);
  gpu_chunk_memory_used : list (nat * Q * Q);
  cpu_memory_used : list (nat * Q * Q);
  cpu_chunk_memory_used : list (nat * Q * Q) }.

(** What a call observes of its surroundings: [torch.distributed],
    [get_sys_memory_used], [max_mem_usage_period], [time.time] and
    [get_world_size]. *)
Record Env := mkEnv {
  dist_is_initialized : bool;
  get_sys_memory_used : Device -> Q;
  max_mem_usage_period : Q;
  time_time : Q;
  get_world_size : Q }.

(** The [client] handed to [tiktac]: its rank, its metronome and its chunk
    list. *)
Record Client := mkClient {
  client_local_rank : nat;
  metronome : Metronome.t;
  chunk_list : list Chunk }.

(** Calls that leave the manager, in the order they are made. *)
Inductive Event :=
| EvMakeRoom (size : Q) (dev : Device)
| EvMetronomeTiktac.

Record World := mkWorld {
  mgr : t;
  client : Client;
  profiler : Profiler;
  events : list Event }.

Definition with_mgr (f : t -> t) (w : World) : World :=
  mkWorld (f (mgr w)) (client w) (profiler w) (events w).
Definition with_profiler (f : Profiler -> Profiler) (w : World) : World :=
  mkWorld (mgr w) (client w) (f (profiler w)) (events w).
Definition with_metronome (f : Metronome.t -> Metronome.t) (w : World) : World :=
  mkWorld (mgr w)
          (mkClient (client_local_rank (client w)) (f (metronome (client w)))
                    (chunk_list (client w)))
          (profiler w) (events w).
Definition emit (e : Event) (w : World) : World :=
  mkWorld (mgr w) (client w) (profiler w) (events w ++ [e]).

Definition Qltb (a b : Q) : bool :=
  match (a ?= b)%Q with Lt => true | _ => false end.

(** [set_training_stage] *)
Definition set_training_stage (env : Env) (training_stage : TrainingStage)
    (w : World) : World :=
  let w :=
    if started (profiler w) then
      with_profiler (fun p =>
        mkProfiler (started p)
          (stage_convert_time p ++ [(time_time env, training_stage)])
          (gpu_memory_used p) (gpu_chunk_memory_used p)
          (cpu_memory_used p) (cpu_chunk_memory_used p)) w
    else w in
  with_mgr (fun m =>
    mk (local_rank m) (gpu_chunk_used_mem m) (cpu_chunk_used_mem m)
       (warmup_gpu_chunk_mem_ratio m) (always_warmup m)
       (_overall_gpu_mem m) (_overall_cpu_mem m)
       (cpu_used_list m) (cpu_chunk_used_list m) (cpu_sys_used_list m)
       (gpu_used_list m) (gpu_chunk_used_list m) (gpu_sys_used_list m)
       (_start_training m) training_stage
       (_param_fp16_chunk_size m) (_default_chunk_size m)) w.

(** [start_train] *)
Definition start_train (param_fp16_chunk_size chunk_size : Q) (w : World) : World :=
  with_mgr (fun m =>
    mk (local_rank m) (gpu_chunk_used_mem m) (cpu_chunk_used_mem m)
       (warmup_gpu_chunk_mem_ratio m) (always_warmup m)
       (_overall_gpu_mem m) (_overall_cpu_mem m)
       (cpu_used_list m) (cpu_chunk_used_list m) (cpu_sys_used_list m)
       (gpu_used_list m) (gpu_chunk_used_list m) (gpu_sys_used_list m)
       true (_training_stage m)
       param_fp16_chunk_size chunk_size)
    (with_metronome (Metronome.set_warmup true) w).

(** The six traces, replaced together. *)
Definition set_lists (cu ccu csu gu gcu gsu : list Q) (m : t) : t :=
  mk (local_rank m) (gpu_chunk_used_mem m) (cpu_chunk_used_mem m)
     (warmup_gpu_chunk_mem_ratio m) (always_warmup m)
     (_overall_gpu_mem m) (_overall_cpu_mem m)
     cu ccu csu gu gcu gsu
     (_start_training m) (_training_stage m)
     (_param_fp16_chunk_size m) (_default_chunk_size m).

(** [reset_memory_stats] *)
Definition reset_memory_stats (w : World) : World :=
  if Metronome.is_warmup (metronome (client w)) then
    with_mgr (set_lists [] [] [] [] [] []) w
  else w.

Definition set_used (gpu cpu : Q) (m : t) : t :=
  mk (local_rank m) gpu cpu
     (warmup_gpu_chunk_mem_ratio m) (always_warmup m)
     (_overall_gpu_mem m) (_overall_cpu_mem m)
     (cpu_used_list m) (cpu_chunk_used_list m) (cpu_sys_used_list m)
     (gpu_used_list m) (gpu_chunk_used_list m) (gpu_sys_used_list m)
     (_start_training m) (_training_stage m)
     (_param_fp16_chunk_size m) (_default_chunk_size m).

(** [add] and [delete]; [raise f"..."] raises a [TypeError]. *)
Definition add (device_type : string) (size_in_bytes : Q) : M World unit :=
  if String.eqb device_type "cpu" then
    modify (with_mgr (fun m =>
      set_used (gpu_chunk_used_mem m) (cpu_chunk_used_mem m + size_in_bytes)%Q m))
  else if String.eqb device_type "cuda" then
    modify (with_mgr (fun m =>
      set_used (gpu_chunk_used_mem m + size_in_bytes)%Q (cpu_chunk_used_mem m) m))
  else raise TypeError.

Definition delete (device_type : string) (size_in_bytes : Q) : M World unit :=
  if String.eqb device_type "cpu" then
    modify (with_mgr (fun m =>
      set_used (gpu_chunk_used_mem m) (cpu_chunk_used_mem m - size_in_bytes)%Q m))
  else if String.eqb device_type "cuda" then
    modify (with_mgr (fun m =>
      set_used (gpu_chunk_used_mem m - size_in_bytes)%Q (cpu_chunk_used_mem m) m))
  else raise TypeError.

(** [used_chunk_mem] *)
Inductive result (A : Type) :=
| Return (a : A)
| Throw (e : exn).
Arguments Return {A} a.
Arguments Throw {A} e.

Definition used_chunk_mem (m : t) (device_type : string) : result Q :=
  if String.eqb device_type "cpu" then Return (cpu_chunk_used_mem m)
  else if String.eqb device_type "cuda" then Return (gpu_chunk_used_mem m)
  else Throw RuntimeError.

(** [available_chunk_mem].  The value is [None] where the Python function
    falls off its end (and so returns [None]); indexing a trace out of range
    raises [IndexError]. *)
Definition fwd_bwd_available (env : Env) (m : t) (metronome : Metronome.t)
    : result (option Q) :=
  let next_mom := Metronome.next_moment metronome in
  let cur_mom := Metronome.moment metronome in
  match gpu_sys_used_list m !! next_mom with
  | None => Throw IndexError
  | Some used_next =>
      let next_mom_ava_mem := (_overall_gpu_mem m - used_next)%Q in
      match gpu_sys_used_list m !! cur_mom with
      | None => Throw IndexError
      | Some used_cur =>
          let cur_mom_ava_mem := (_overall_gpu_mem m - used_cur)%Q in
          Return (Some (Qmin next_mom_ava_mem cur_mom_ava_mem
                        - get_world_size env * 2 * _default_chunk_size m)%Q)
      end
  end.

Definition available_chunk_mem (env : Env) (m : t) (metronome : Metronome.t)
    (device_type : string) : result (option Q) :=
  if String.eqb device_type "cpu" then
    if Metronome.is_warmup metronome || negb (_start_training m) then
      Return (Some (_overall_cpu_mem m))
    else
      Return (Some (_overall_cpu_mem m))
  else if String.eqb device_type "cuda" then
    if always_warmup m || Metronome.is_warmup metronome
       || negb (_start_training m) then
      if decide (_training_stage m = ADAM) then
        Return (Some (_overall_gpu_mem m - 4 * _default_chunk_size m * 4)%Q)
      else
        Return (Some (_overall_gpu_mem m * warmup_gpu_chunk_mem_ratio m)%Q)
    else
      match _training_stage m with
      | ADAM => Return (Some (_overall_gpu_mem m - 4 * _default_chunk_size m * 4)%Q)
      | FWD => fwd_bwd_available env m metronome
      | BWD => fwd_bwd_available env m metronome
      | _ => Return None
      end
  else Return None.

(** [free_chunk_mem]; subtracting from [None] raises a [TypeError]. *)
Definition free_chunk_mem (env : Env) (m : t) (metronome : Metronome.t)
    (device_type : string) : result Q :=
  match available_chunk_mem env m metronome device_type with
  | Throw e => Throw e
  | Return ava =>
      match used_chunk_mem m device_type with
      | Throw e => Throw e
      | Return used =>
          match ava with
          | Some a => Return (a - used)%Q
          | None => Throw TypeError
          end
      end
  end.

Section Tiktac.

(** [ChunkList.make_room] of this version of the repository is not among
    the sources: it is a parameter.  It is given the requested size and the
    device, may update the chunk list and (through the chunk moves it
    makes) the manager's counters, and may raise. *)
Variable make_room : Q -> Device -> M (t * list Chunk) unit.

Definition call_make_room (size : Q) (dev : Device) : M World unit :=
  fun w =>
    let w := emit (EvMakeRoom size dev) w in
    let put (s : t * list Chunk) :=
      mkWorld (fst s)
              (mkClient (client_local_rank (client w)) (metronome (client w))
                        (snd s))
              (profiler w) (events w) in
    match make_room size dev (mgr w, chunk_list (client w)) with
    | Ok _ s => Ok tt (put s)
    | Raise e s => Raise e (put s)
    end.

(** The [if profiler.started():] block of [tiktac]. *)
Definition profile_moment (env : Env) (gpu_used : Q) (cpu_device : Device)
    (w : World) : World :=
  if started (profiler w) then
    let timestamp := time_time env in
    let cur_mom := Metronome.moment (metronome (client w)) in
    let cpu_used := get_sys_memory_used env cpu_device in
    with_profiler (fun p =>
      mkProfiler (started p) (stage_convert_time p)
        (gpu_memory_used p ++ [(cur_mom, timestamp, gpu_used)])
        (gpu_chunk_memory_used p
           ++ [(cur_mom, timestamp, gpu_chunk_used_mem (mgr w))])
        (cpu_memory_used p ++ [(cur_mom, timestamp, cpu_used)])
        (cpu_chunk_memory_used p
           ++ [(cur_mom, timestamp, cpu_chunk_used_mem (mgr w))])) w
  else w.

(** The warmup branch up to its assertion: the six appends. *)
Definition record_moment (env : Env) (gpu_used : Q) (cpu_device : Device)
    (m : t) : t :=
  let max_mem_period := max_mem_usage_period env in
  let gpu_used := Qmax max_mem_period gpu_used in
  let cpu_used := get_sys_memory_used env cpu_device in
  set_lists (cpu_used_list m ++ [cpu_used])
            (cpu_chunk_used_list m ++ [cpu_chunk_used_mem m])
            (cpu_sys_used_list m ++ [(cpu_used - cpu_chunk_used_mem m)%Q])
            (gpu_used_list m ++ [gpu_used])
            (gpu_chunk_used_list m ++ [gpu_chunk_used_mem m])
            (gpu_sys_used_list m ++ [(gpu_used - gpu_chunk_used_mem m)%Q])
            m.

Definition metronome_tiktac : M World unit :=
  modify (fun w => emit EvMetronomeTiktac (with_metronome Metronome.tiktac w)).

(** [tiktac] *)
Definition tiktac (env : Env) : M World unit := fun w =>
  let rank :=
    if dist_is_initialized env then client_local_rank (client w) else 0 in
  let gpu_device := cuda_device rank in
  let cpu_device := cpu0_device in
  let gpu_used := get_sys_memory_used env gpu_device in
  let w := profile_moment env gpu_used cpu_device w in
  if Metronome.is_warmup (metronome (client w)) then
    let w := with_mgr (record_moment env gpu_used cpu_device) w in
    let cur_mom := Metronome.moment (metronome (client w)) in
    if decide (Z.of_nat (length (gpu_sys_used_list (mgr w))) - 1
               = Z.of_nat cur_mom)%Z
    then metronome_tiktac w
    else Raise AssertionError w
  else
    let next_mom := Metronome.next_moment (metronome (client w)) in
    match gpu_sys_used_list (mgr w) !! next_mom with
    | None => Raise IndexError w
    | Some used_next =>
        let gpu_next_mom_ava_chunk_mem :=
          (_overall_gpu_mem (mgr w) - used_next)%Q in
        let gpu_cur_mom_used_chunk_mem :=
          inject_Z (get_chunk_memory_used gpu_device (chunk_list (client w))) in
        if Qltb gpu_next_mom_ava_chunk_mem gpu_cur_mom_used_chunk_mem then
          let offload_size :=
            (gpu_cur_mom_used_chunk_mem - gpu_next_mom_ava_chunk_mem)%Q in
          (call_make_room offload_size gpu_device ;;; metronome_tiktac)%py w
        else metronome_tiktac w
    end.

(** The accelerator [tiktac] looks at: [cuda:{rank}]. *)
Definition tiktac_gpu_device (env : Env) (w : World) : Device :=
  cuda_device (if dist_is_initialized env
               then client_local_rank (client w) else 0).

(** The trace was empty at moment 0 and, since then, [tiktac] has been
    called (and has returned) once per moment, all of them in warmup;
    the chunk accounting and the stage may have changed in between. *)
Inductive once_per_moment : World -> Prop :=
| opm_empty w :
    gpu_sys_used_list (mgr w) = [] ->
    Metronome.moment (metronome (client w)) = 0 ->
    once_per_moment w
| opm_tiktac env w w' :
    once_per_moment w ->
    Metronome.is_warmup (metronome (client w)) = true ->
    tiktac env w = Ok tt w' ->
    once_per_moment w'
| opm_add device_type size w w' :
    once_per_moment w ->
    add device_type size w = Ok tt w' ->
    once_per_moment w'
| opm_delete device_type size w w' :
    once_per_moment w ->
    delete device_type size w = Ok tt w' ->
    once_per_moment w'
| opm_set_training_stage env stage w :
    once_per_moment w ->
    once_per_moment (set_training_stage env stage w).

End Tiktac.

(** The state [tiktac] has reached in warmup when it checks its assertion:
    the profiler block and the six appends are done. *)
Definition recorded (env : Env) (w : World) : World :=
  with_mgr
    (record_moment env (get_sys_memory_used env (tiktac_gpu_device env w))
                   cpu0_device)
    (profile_moment env (get_sys_memory_used env (tiktac_gpu_device env w))
                    cpu0_device w).

(** The state [tiktac] has reached after warmup when it reads the trace. *)
Definition profiled (env : Env) (w : World) : World :=
  profile_moment env (get_sys_memory_used env (tiktac_gpu_device env w))
                 cpu0_device w.

(** [update_margin_mem].  The configured [_margin_use_ratio] is not among
    the fields above and is an argument; the value is the one stored in
    [_margin_chunk_num_for_gpu_adam].  [max] of an empty list raises a
    [ValueError]; [_param_fp16_chunk_size] is an attribute only once
    [start_train] has set it (together with [_start_training]), and reading
    it before raises an [AttributeError]; a division by zero raises a
    [ZeroDivisionError]. *)
Inductive margin_outcome :=
| MarginChunks (chunk_num : Q)
| MarginValueError
| MarginAttributeError
| MarginZeroDivisionError.

(** [max(l)] for a list with first element [x]. *)
Definition py_max (x : Q) (l : list Q) : Q := foldl Qmax x l.

Definition update_margin_mem (margin_use_ratio : Q) (m : t) : margin_outcome :=
  match gpu_sys_used_list m with
  | [] => MarginValueError
  | x :: rest =>
      let max_gpu_sys_used := py_max x rest in
      if negb (_start_training m) then MarginAttributeError
      else
        let margin_mem_size :=
          (_overall_gpu_mem m - max_gpu_sys_used - _param_fp16_chunk_size m)%Q in
        if Qeq_bool (_default_chunk_size m * 12)%Q 0 then MarginZeroDivisionError
        else
          MarginChunks
            (margin_mem_size / (_default_chunk_size m * 12) * margin_use_ratio)%Q
  end.

(** What [tiktac] works on: everything but the profiler's log. *)
Definition observable (w : World) : t * Client * list Event :=
  (mgr w, client w, events w).

(** The manager but for its two chunk counters. *)
Definition but_counters (m : t) : t := set_used 0 0 m.

(** The [make_room] calls among the events. *)
Definition make_room_calls (evs : list Event) : list (Q * Device) :=
  omap (fun e => match e with
                 | EvMakeRoom size dev => Some (size, dev)
                 | EvMetronomeTiktac => None
                 end) evs.

(** An instance of the parameter [make_room], for examples: every chunk on
    the device that is not in use for a computation is moved to the cpu,
    with its capacity moved from the accelerator's count to the cpu's; it
    raises when that frees less than asked. *)
Definition offload_idle (size : Q) (dev : Device) : M (t * list Chunk) unit :=
  fun s =>
    let idle (c : Chunk) :=
      bool_decide (device c = dev) && negb (bool_decide (get_status c = COMPUTE)) in
    let freed :=
      inject_Z (foldr (fun c acc => if idle c then (capacity c + acc)%Z else acc)
                      0%Z (snd s)) in
    if Qltb freed size then Raise CalleeError s
    else
      Ok tt
         (set_used (gpu_chunk_used_mem (fst s) - freed)%Q
                   (cpu_chunk_used_mem (fst s) + freed)%Q (fst s),
          (fun c => if idle c
                    then mkChunk (capacity c) cpu_device (tensor_info_list c)
                                 (timestamp c)
                    else c) <$> snd s).

End Manager.

(** ** The client ([src/client.py]) *)
Module Client.

(** [HybridPSManager] (the [manager.py] of this version of the repository is
    not among the sources).  The client only asks it [max_mem] and
    [available_mem], by device type and index; what the singleton answers is
    part of the state. *)
Record HybridPSManager := mkManager {
  max_mem : string -> option nat -> Z;
  available_mem : string -> option nat -> Z }.

(** The attributes that [_convert_to_ps_param] attaches to a parameter.  A
    view is represented by the device of the storage it points to;
    [ps_data_tensor] and [ps_grad_tensor] are [None] until [new_tensor]
    returned them. *)
Record PsAttrs := mkPs {
  ps_data_id : Z;
  ps_grad_id : Z;
  compute_device : Device;
  ps_data_tensor : option Device;
  ps_grad_tensor : option Device }.

(** A [torch.nn.Parameter] object: its shape, the device of [param.data]
    (which is [param.device]), [param.grad] ([None], or the device of the
    gradient tensor), and the attached attributes, if any. *)
Record Param := mkParam {
  p_shape : list Z;
  p_data : Device;
  p_grad : option Device;
  p_ps : option PsAttrs }.

(** Parameter objects are shared between the caller and the client's two
    dictionaries; a handle is the identity of such an object. *)
Definition handle := nat.

Inductive Event :=
| EvMakeRoom (size : Z) (dev : Device)   (* [chunk_list.make_room(size, dev)] *)
| EvMove (chunk_id : nat) (dev : Device). (* [chunk.move(..., dev)] *)

Record World := mkWorld {
  chunk_list : list Chunk;
  ps_id : Z;
  param_data_dict : gmap Z handle;
  param_grad_dict : gmap Z handle;
  dict_tensor_id_chunk_id : gmap Z nat;
  heap : gmap handle Param;
  ps_manager : HybridPSManager;
  events : list Event }.

Definition with_chunk_list (f : list Chunk -> list Chunk) (w : World) : World :=
  mkWorld (f (chunk_list w)) (ps_id w) (param_data_dict w) (param_grad_dict w)
          (dict_tensor_id_chunk_id w) (heap w) (ps_manager w) (events w).
Definition with_heap (f : gmap handle Param -> gmap handle Param) (w : World) : World :=
  mkWorld (chunk_list w) (ps_id w) (param_data_dict w) (param_grad_dict w)
          (dict_tensor_id_chunk_id w) (f (heap w)) (ps_manager w) (events w).
Definition emit (e : Event) (w : World) : World :=
  mkWorld (chunk_list w) (ps_id w) (param_data_dict w) (param_grad_dict w)
          (dict_tensor_id_chunk_id w) (heap w) (ps_manager w) (events w ++ [e]).

Definition with_ps (f : PsAttrs -> PsAttrs) (p : Param) : Param :=
  mkParam (p_shape p) (p_data p) (p_grad p) (f <$> p_ps p).

(** *** The chunk operations the client calls *)

(** Modelled from the spec: [Chunk.touch()] of the missing [chunk.py]:
    "stamps the chunk's last-access moment"; [now] is the clock reading. *)
Definition touch (now : Z) (c : Chunk) : Chunk :=
  mkChunk (capacity c) (device c) (tensor_info_list c) now.

(** Modelled from the spec: [tensor_info_list.set_status(tensor_id, status)]
    of the missing [chunk.py]: the record of that tensor gets the status; a
    tensor without a record is an error. *)
Definition has_record (tid : Z) (c : Chunk) : bool :=
  existsb (fun i => bool_decide (tensor_id i = Some tid)) (tensor_info_list c).

Definition set_status (tid : Z) (st : PSTensorStatus) (c : Chunk) : Chunk :=
  mkChunk (capacity c) (device c)
    ((fun i => if decide (tensor_id i = Some tid)
               then mkTensorInfo (tensor_id i) (start i) (numel i) st
               else i) <$> tensor_info_list c)
    (timestamp c).

(** The status recorded for a tensor in a chunk. *)
Definition status_of (tid : Z) (c : Chunk) : option PSTensorStatus :=
  status <$> List.find (fun i => bool_decide (tensor_id i = Some tid))
                       (tensor_info_list c).

(** Modelled from the spec: [Chunk.move(param_data_dict, param_grad_dict,
    device)] of the missing [chunk.py]: "performs a whole-buffer copy to the
    target device and, as an atomic side effect, rebinds every external view
    held by its TensorRecords' owners to point at the new backing storage".
    A parameter without a gradient has no gradient view to rebind.  What a
    move reports to the manager is not part of that description: the
    manager's answers are left as they are. *)
Definition rebind_data (dev : Device) (p : Param) : Param :=
  mkParam (p_shape p) dev (p_grad p)
    ((fun ps => mkPs (ps_data_id ps) (ps_grad_id ps) (compute_device ps)
                     (Some dev) (ps_grad_tensor ps)) <$> p_ps p).
Definition rebind_grad (dev : Device) (p : Param) : Param :=
  mkParam (p_shape p) (p_data p) ((fun _ => dev) <$> p_grad p)
    ((fun ps => mkPs (ps_data_id ps) (ps_grad_id ps) (compute_device ps)
                     (ps_data_tensor ps) (Some dev)) <$> p_ps p).

Definition rebind (pdd pgd : gmap Z handle) (dev : Device)
    (hp : gmap handle Param) (i : TensorInfo) : gmap handle Param :=
  match tensor_id i ≫= (pdd !!.) with
  | Some h => alter (rebind_data dev) h hp
  | None =>
      match tensor_id i ≫= (pgd !!.) with
      | Some h => alter (rebind_grad dev) h hp
      | None => hp
      end
  end.

Definition move (chunk_id : nat) (c : Chunk) (dev : Device) (w : World) : World :=
  let hp := foldl (rebind (param_data_dict w) (param_grad_dict w) dev)
                  (heap w) (tensor_info_list c) in
  let c' := mkChunk (capacity c) dev (tensor_info_list c) (timestamp c) in
  emit (EvMove chunk_id dev)
       (with_heap (fun _ => hp) (with_chunk_list (fun l => <[chunk_id := c']> l) w)).

(** [self.chunk_list[chunk_id]] *)
Definition get_chunk (chunk_id : nat) : M World Chunk := fun w =>
  match chunk_list w !! chunk_id with
  | Some c => Ok c w
  | None => Raise IndexError w
  end.

(** [chunk_move] *)
Definition chunk_move (chunk_id : nat) (dev : Device) : M World unit :=
  (c <- get_chunk chunk_id ;;
   if decide (device c <> dev) then modify (move chunk_id c dev) else ret tt)%py.

Definition is_ps_param (w : World) (param : handle) : bool :=
  bool_decide (is_Some (heap w !! param ≫= p_ps)).

(** Reading an attribute of a parameter object. *)
Definition get_param (param : handle) : M World Param := fun w =>
  match heap w !! param with
  | Some p => Ok p w
  | None => Raise AttributeError w
  end.

Definition get_ps (param : handle) : M World PsAttrs := fun w =>
  match heap w !! param ≫= p_ps with
  | Some ps => Ok ps w
  | None => Raise AttributeError w
  end.

Definition some_or {A} (e : exn) (o : option A) : M World A :=
  match o with Some a => ret a | None => raise e end.

Definition set_chunk (chunk_id : nat) (c : Chunk) : M World unit :=
  modify (with_chunk_list (fun l => <[chunk_id := c]> l)).

Definition tensor_id_of (access_type : AccessType) (ps : PsAttrs) : Z :=
  match access_type with DATA => ps_data_id ps | GRAD => ps_grad_id ps end.

(** [param.ps_data_tensor.device], [param.ps_grad_tensor.device] *)
Definition ps_tensor_device (access_type : AccessType) (ps : PsAttrs) : option Device :=
  match access_type with DATA => ps_data_tensor ps | GRAD => ps_grad_tensor ps end.

(** [param.data.device], [param.grad.device] *)
Definition tensor_device (access_type : AccessType) (p : Param) : option Device :=
  match access_type with DATA => Some (p_data p) | GRAD => p_grad p end.

(** [param.data = param.ps_data_tensor.data], [param.grad = param.ps_grad_tensor.data] *)
Definition bind_view (access_type : AccessType) (dev : Device) (p : Param) : Param :=
  match access_type with
  | DATA => mkParam (p_shape p) dev (p_grad p) (p_ps p)
  | GRAD => mkParam (p_shape p) (p_data p) (Some dev) (p_ps p)
  end.

(** [self.chunk_list[chunk_id].tensor_info_list.set_status(tensor_id, status)] *)
Definition set_tensor_status (chunk_id : nat) (tid : Z) (st : PSTensorStatus)
    : M World unit :=
  (c <- get_chunk chunk_id ;;
   if has_record tid c then set_chunk chunk_id (set_status tid st c)
   else raise KeyError)%py.

(** [generate_id] *)
Definition generate_id : M World Z := fun w =>
  let w' := mkWorld (chunk_list w) (ps_id w + 1)%Z (param_data_dict w)
                    (param_grad_dict w) (dict_tensor_id_chunk_id w) (heap w)
                    (ps_manager w) (events w) in
  Ok (ps_id w') w'.

Section Operations.

(** [ChunkList.make_room(size, device)] is not among the sources: it is a
    parameter.  By the specification it "does not migrate; it only selects
    victims": it reads the chunk list and answers with chunk ids, or
    fails ([None]). *)
Variable make_room : Z -> Device -> list Chunk -> option (list nat).

(** [ChunkList.allocate(numel, tensor_id)] is not among the sources: it is
    a parameter.  It updates the chunk list and answers with the chunk id
    and the device of the view it hands out, or raises. *)
Variable allocate : Z -> option Z -> M (list Chunk) (nat * Device).

(** [prepare_device] *)
Definition prepare_device (target_device : Device) (need_size : Z)
    : M World unit := fun w =>
  let mgr := ps_manager w in
  if (max_mem mgr (dev_type target_device) (dev_index target_device)
      <? need_size)%Z
  then Raise RuntimeError w
  else
    let extra_size :=
      (need_size
       - available_mem mgr (dev_type target_device) (dev_index target_device))%Z in
    if (extra_size <=? 0)%Z then Ok tt w
    else
      let w := emit (EvMakeRoom extra_size target_device) w in
      match make_room extra_size target_device (chunk_list w) with
      | None => Raise CalleeError w
      | Some moved_list =>
          let new_device :=
            if String.eqb (dev_type target_device) "cuda"
            then cpu_device else cuda_device 0 in
          for_each moved_list (fun idx => chunk_move idx new_device) w
      end.

(** Lines 90 to 107 of [access]: the device is read again from [param.data]
    (or [param.grad]) and asserted to be the compute device, the chunk is
    touched, the view is bound and the record is marked; [now] is the clock
    reading of the [touch()]. *)
Definition access_finish (param : handle) (access_type : AccessType)
    (chunk_id : nat) (now : Z) : M World unit :=
  (p <- get_param param ;;
   current_device <- some_or AttributeError (tensor_device access_type p) ;;
   ps <- get_ps param ;;
   if decide (current_device = compute_device ps) then
     c <- get_chunk chunk_id ;;
     set_chunk chunk_id (touch now c) ;;;
     view <- some_or AttributeError (ps_tensor_device access_type ps) ;;
     modify (with_heap (alter (bind_view access_type view) param)) ;;;
     set_tensor_status chunk_id (tensor_id_of access_type ps) COMPUTE
   else raise AssertionError)%py.

(** [access] *)
Definition access (param : handle) (access_type : AccessType) (now : Z)
    : M World unit :=
  (w <- get ;;
   if negb (is_ps_param w param) then raise TypeError
   else
     ps <- get_ps param ;;
     chunk_id <- some_or KeyError
                   (dict_tensor_id_chunk_id w !! tensor_id_of access_type ps) ;;
     current_device <- some_or AttributeError (ps_tensor_device access_type ps) ;;
     (if decide (compute_device ps <> current_device) then
        c <- get_chunk chunk_id ;;
        prepare_device (compute_device ps) (capacity c) ;;;
        chunk_move chunk_id (compute_device ps)
      else ret tt) ;;;
     access_finish param access_type chunk_id now)%py.

Definition access_data (param : handle) (now : Z) : M World unit :=
  access param DATA now.
Definition access_grad (param : handle) (now : Z) : M World unit :=
  access param GRAD now.

(** [release] *)
Definition release (param : handle) (access_type : AccessType) : M World unit :=
  (ps <- get_ps param ;;
   w <- get ;;
   chunk_id <- some_or KeyError
                 (dict_tensor_id_chunk_id w !! tensor_id_of access_type ps) ;;
   set_tensor_status chunk_id (tensor_id_of access_type ps) HOLD)%py.

Definition release_data (param : handle) : M World unit := release param DATA.
Definition release_grad (param : handle) : M World unit := release param GRAD.

(** [self.chunk_list.allocate(numel, tensor_id)] *)
Definition call_allocate (n : Z) (tid : option Z) : M World (nat * Device) :=
  fun w =>
    match allocate n tid (chunk_list w) with
    | Ok r l => Ok r (with_chunk_list (fun _ => l) w)
    | Raise e l => Raise e (with_chunk_list (fun _ => l) w)
    end.

(** [new_tensor]; the view it returns is represented by its device. *)
Definition new_tensor (shape : list Z) (tid : option Z) : M World (Device * nat) :=
  let n := foldl Z.mul 1%Z shape in
  (r <- call_allocate n tid ;;
   match tid with
   | Some t =>
       modify (fun w =>
         mkWorld (chunk_list w) (ps_id w) (param_data_dict w) (param_grad_dict w)
                 (<[t := r.1]> (dict_tensor_id_chunk_id w)) (heap w)
                 (ps_manager w) (events w))
   | None => ret tt
   end ;;;
   ret (r.2, r.1))%py.

(** [_convert_to_ps_param].  The attributes [ps_numel], [ps_shape],
    [ps_data_chunk_id] and [ps_gard_chunk_id] are written but never read by
    the client and are left out.  When the parameter already has a
    gradient, line 194 calls [copy_] on the attribute [ps_grad_tesnor],
    which holds [None]. *)
Definition _convert_to_ps_param (param : handle) : M World unit :=
  (w <- get ;;
   if is_ps_param w param then ret tt
   else
     p <- get_param param ;;
     data_id <- generate_id ;;
     grad_id <- generate_id ;;
     modify (with_heap (alter (fun p =>
       mkParam (p_shape p) (p_data p) (p_grad p)
               (Some (mkPs data_id grad_id (p_data p) None None))) param)) ;;;
     r <- new_tensor (p_shape p) (Some data_id) ;;
     modify (with_heap (alter (fun p =>
       with_ps (fun ps => mkPs (ps_data_id ps) (ps_grad_id ps) (compute_device ps)
                               (Some r.1) (ps_grad_tensor ps))
               (bind_view DATA r.1 p)) param)) ;;;
     r <- new_tensor (p_shape p) (Some grad_id) ;;
     modify (with_heap (alter (with_ps (fun ps =>
       mkPs (ps_data_id ps) (ps_grad_id ps) (compute_device ps)
            (ps_data_tensor ps) (Some r.1))) param)) ;;;
     match p_grad p with
     | Some _ => raise AttributeError
     | None => ret tt
     end ;;;
     modify (fun w =>
       mkWorld (chunk_list w) (ps_id w)
               (<[data_id := param]> (param_data_dict w))
               (<[grad_id := param]> (param_grad_dict w))
               (dict_tensor_id_chunk_id w) (heap w) (ps_manager w) (events w)))%py.

(** [register_param] *)
Definition register_param (src_param : handle) : M World unit :=
  (w <- get ;;
   if is_ps_param w src_param then ret tt
   else _convert_to_ps_param src_param)%py.

(** [register_module]; the module is represented by its parameters. *)
Definition register_module (module : option (list handle)) : M World unit :=
  match module with
  | Some params =>
      for_each params (fun param =>
        (w <- get ;;
         if is_ps_param w param then ret tt
         else _convert_to_ps_param param)%py)
  | None => ret tt
  end.

(** The operations of the client, as a caller issues them one after the
    other; a caller may go on after an exception, from the state reached. *)
Inductive Op :=
| OpPrepareDevice (target_device : Device) (need_size : Z)
| OpAccess (param : handle) (access_type : AccessType) (now : Z)
| OpRelease (param : handle) (access_type : AccessType)
| OpNewTensor (shape : list Z) (tid : option Z)
| OpGenerateId
| OpRegisterModule (module : option (list handle))
| OpRegisterParam (src_param : handle)
| OpChunkMove (chunk_id : nat) (dev : Device).

Definition perform (op : Op) : M World unit :=
  match op with
  | OpPrepareDevice target_device need_size => prepare_device target_device need_size
  | OpAccess param access_type now => access param access_type now
  | OpRelease param access_type => release param access_type
  | OpNewTensor shape tid => (new_tensor shape tid ;;; ret tt)%py
  | OpGenerateId => (generate_id ;;; ret tt)%py
  | OpRegisterModule module => register_module module
  | OpRegisterParam src_param => register_param src_param
  | OpChunkMove chunk_id dev => chunk_move chunk_id dev
  end.

Definition run (ops : list Op) (w : World) : World :=
  foldl (fun w op => final_state (perform op w)) w ops.




(** [prepare_device target_device need_size] will find room: the size is
    within the total capacity, and when memory has to be freed [make_room]
    answers with ids of existing chunks. *)
Definition room_can_be_made (w : World) (target_device : Device)
    (need_size : Z) : Prop :=
  let mgr := ps_manager w in
  let avail :=
    available_mem mgr (dev_type target_device) (dev_index target_device) in
  (need_size
   <= max_mem mgr (dev_type target_device) (dev_index target_device))%Z /\
  ((avail < need_size)%Z ->
   exists victims,
     make_room (need_size - avail)%Z target_device (chunk_list w)
       = Some victims /\
     forall idx, idx ∈ victims -> idx < length (chunk_list w)).

End Operations.

(** *** Notions used in the statements *)

(** The device the victims of [prepare_device] are moved to: the cpu when
    the target is an accelerator, [cuda:0] otherwise. *)
Definition alternate_device (target_device : Device) : Device :=
  if String.eqb (dev_type target_device) "cuda" then cpu_device else cuda_device 0.

(** Everything but the chunks, the parameters' views and the events. *)
Definition registry (w : World)
    : Z * gmap Z handle * gmap Z handle * gmap Z nat * HybridPSManager :=
  (ps_id w, param_data_dict w, param_grad_dict w,
   dict_tensor_id_chunk_id w, ps_manager w).

(** A chunk but for its device. *)
Definition contents (c : Chunk) : Z * list TensorInfo * Z :=
  (capacity c, tensor_info_list c, timestamp c).

(** What a move never changes in a parameter object: its shape, whether it
    has a gradient, its tensor ids and its compute device. *)
Definition identity (p : Param) : list Z * bool * option (Z * Z * Device) :=
  (p_shape p, bool_decide (is_Some (p_grad p)),
   (fun ps => (ps_data_id ps, ps_grad_id ps, compute_device ps)) <$> p_ps p).

(** The tensor [tid] is the [access_type] tensor of [param] in the two
    dictionaries. *)
Definition owned_by (pdd pgd : gmap Z handle) (param : handle)
    (access_type : AccessType) (tid : Z) : Prop :=
  match access_type with
  | DATA => pdd !! tid = Some param
  | GRAD => pdd !! tid = None /\ pgd !! tid = Some param
  end.

(** The parameter is registered and has the tensor in question. *)
Definition bindable (param : handle) (access_type : AccessType)
    (hp : gmap handle Param) : Prop :=
  exists p, hp !! param = Some p /\ is_Some (p_ps p) /\
            is_Some (tensor_device access_type p).

(** Both views of the tensor are on [dev]. *)
Definition bound_to (dev : Device) (param : handle) (access_type : AccessType)
    (hp : gmap handle Param) : Prop :=
  exists p ps, hp !! param = Some p /\ p_ps p = Some ps /\
               tensor_device access_type p = Some dev /\
               ps_tensor_device access_type ps = Some dev.

(** The tensor's chunk is on the tensor's compute device, and so are both
    views of the tensor. *)
Definition settled (w : World) (param : handle) (access_type : AccessType)
    (chunk_id : nat) : Prop :=
  exists p ps c,
    heap w !! param = Some p /\ p_ps p = Some ps /\
    dict_tensor_id_chunk_id w !! tensor_id_of access_type ps = Some chunk_id /\
    chunk_list w !! chunk_id = Some c /\
    has_record (tensor_id_of access_type ps) c = true /\
    device c = compute_device ps /\
    ps_tensor_device access_type ps = Some (compute_device ps) /\
    tensor_device access_type p = Some (compute_device ps).

(** The status recorded for a parameter's tensor, read through the
    tensor-to-chunk table. *)
Definition tensor_status (w : World) (param : handle) (access_type : AccessType)
    : option PSTensorStatus :=
  ps ← heap w !! param ≫= p_ps;
  chunk_id ← dict_tensor_id_chunk_id w !! tensor_id_of access_type ps;
  c ← chunk_list w !! chunk_id;
  status_of (tensor_id_of access_type ps) c.

(** A computation that leaves the registry alone, whatever its outcome. *)
Definition frames {A} (m : M World A) : Prop :=
  forall w, registry (final_state (m w)) = registry w.

(** The binding of [tid] is as before and the id counter has not gone back. *)
Definition stable (tid : Z) (w w' : World) : Prop :=
  (ps_id w <= ps_id w')%Z /\
  dict_tensor_id_chunk_id w' !! tid = dict_tensor_id_chunk_id w !! tid.

(** *** The chunk list operations, as the specification describes them

    These two definitions instantiate the parameters [make_room] and
    [allocate] in examples. *)

(** Insertion of a chunk id into a list of ids ordered by touch time. *)
Fixpoint insert_by_time (l : list Chunk) (i : nat) (sorted : list nat) : list nat :=
  match sorted with
  | [] => [i]
  | j :: rest =>
      if (default 0%Z (timestamp <$> l !! i) <? default 0%Z (timestamp <$> l !! j))%Z
      then i :: j :: rest
      else j :: insert_by_time l i rest
  end.

(** Victims are taken in order until the need is covered. *)
Fixpoint take_until (l : list Chunk) (need : Z) (cands : list nat) : option (list nat) :=
  if (need <=? 0)%Z then Some []
  else
    match cands with
    | [] => None
    | i :: rest =>
        (fun tl => i :: tl)
          <$> take_until l (need - default 0%Z (capacity <$> l !! i))%Z rest
    end.

(** Modelled from the spec: [ChunkList.make_room(need_size, device)] of the
    missing [chunk_list.py]: "selects a set of resident chunks on device
    whose aggregate status is not COMPUTE, ranked by least-recently-touched
    first, accumulating until total freed capacity ≥ need_size; returns the
    selected ids"; a failure when no such set exists. *)
Definition make_room_lru (need_size : Z) (dev : Device) (l : list Chunk)
    : option (list nat) :=
  let candidates :=
    List.filter (fun i => match l !! i with
                          | Some c => bool_decide (device c = dev)
                                      && negb (bool_decide (get_status c = COMPUTE))
                          | None => false
                          end) (seq 0 (length l)) in
  take_until l need_size (foldr (insert_by_time l) [] (reverse candidates)).

Definition used_extent (c : Chunk) : Z :=
  foldr (fun i acc => (numel i + acc)%Z) 0%Z (tensor_info_list c).

Fixpoint first_fit (n : Z) (l : list Chunk) (i : nat) : option nat :=
  match l with
  | [] => None
  | c :: rest =>
      if (n <=? capacity c - used_extent c)%Z then Some i
      else first_fit n rest (S i)
  end.

(** Modelled from the spec: [ChunkList.allocate(extent, tensor_id)] of the
    missing [chunk_list.py]: "scans chunks in id order for one with ≥ extent
    free capacity; if none qualifies, creates a new chunk sized
    max(configured default chunk size, extent) on a default device, and
    performs the allocation there.  Registers a new TensorRecord." *)
Definition allocate_first_fit (default_chunk_size : Z) (default_device : Device)
    (n : Z) (tid : option Z) : M (list Chunk) (nat * Device) := fun l =>
  let place (c : Chunk) :=
    mkChunk (capacity c) (device c)
            (tensor_info_list c ++ [mkTensorInfo tid (used_extent c) n UNINIT])
            (timestamp c) in
  match first_fit n l 0 with
  | Some i =>
      match l !! i with
      | Some c => Ok (i, device c) (<[i := place c]> l)
      | None => Raise IndexError l
      end
  | None =>
      let c := mkChunk (Z.max default_chunk_size n) default_device [] 0%Z in
      Ok (length l, default_device) (l ++ [place c])
  end.

(** What a chunk occupies and where: nothing of it depends on the statuses. *)
Definition residency (c : Chunk) : Z * Device * Z :=
  (capacity c, device c, used_extent c).

End Client.

(** ** Example states *)

(** Scenario C of the specification: "warmup records accelerator non-chunk
    usage [10, 20, 15] over 3 moments (budget 100); at moment 1 during FWD
    ...".  The process group has one member and the default chunk size is 4. *)
Definition scenario_C_manager : Manager.t :=
  Manager.mk 0 0 0 (1 # 5) false 100 100
             [] [] [] [] [] [10; 20; 15]%Q
             true Manager.FWD 0 4.

Definition scenario_C_metronome : Metronome.t := Metronome.mk 1 3 false.

Definition one_process (sys : Device -> Q) (peak : Q) : Manager.Env :=
  Manager.mkEnv false sys peak 0 1.

Definition quiet_env : Manager.Env := one_process (fun _ => 0%Q) 0.

(** Warmup in the ADAM stage: budget 100, warmup ratio 1/5, chunk size 1. *)
Definition warmup_adam_manager : Manager.t :=
  Manager.mk 0 0 0 (1 # 5) false 100 100 [] [] [] [] [] []
             true Manager.ADAM 0 1.

Definition warmup_metronome : Metronome.t := Metronome.mk 0 0 true.

Definition no_profiler : Manager.Profiler :=
  Manager.mkProfiler false [] [] [] [] [].

(** After warmup, at moment 0 of 3 with the trace of scenario C: one chunk of
    90 bytes is resident on [cuda:0], holding a tensor that is not in use. *)
Definition lookahead_world : Manager.World :=
  Manager.mkWorld
    (Manager.mk 0 90 0 (1 # 5) false 100 100
                [] [] [] [] [] [10; 20; 15]%Q true Manager.FWD 0 4)
    (Manager.mkClient 0 (Metronome.mk 0 3 false)
       [mkChunk 90 (cuda_device 0) [mkTensorInfo (Some 0%Z) 0 90 HOLD] 0])
    no_profiler [].

(** The first moment of a warmup iteration: empty traces, 5 bytes of chunks on
    the accelerator; the system reports 10 bytes in use there, with a peak of
    30 over the period. *)
Definition first_moment_world : Manager.World :=
  Manager.mkWorld
    (Manager.mk 0 5 0 (1 # 5) false 100 100 [] [] [] [] [] []
                true Manager.FWD 0 4)
    (Manager.mkClient 0 (Metronome.mk 0 0 true) [])
    no_profiler [].

Definition peak_env : Manager.Env :=
  one_process (fun d => if decide (dev_type d = "cuda") then 10%Q else 0%Q) 30.

(** A manager that has 100 elements on the accelerator and 1000 on the cpu,
    all of them available. *)
Definition roomy_manager : Client.HybridPSManager :=
  Client.mkManager
    (fun ty _ => if String.eqb ty "cuda" then 100%Z else 1000%Z)
    (fun ty _ => if String.eqb ty "cuda" then 100%Z else 1000%Z).

(** A parameter of shape 4 x 8 that lives on [cuda:0] and has no gradient. *)
Definition fresh_param : Client.Param :=
  Client.mkParam [4; 8]%Z (cuda_device 0) None None.

(** A new client, and two parameters it has not been given yet. *)
Definition unregistered_world : Client.World :=
  Client.mkWorld [] (-1) ∅ ∅ ∅ {[ 0 := fresh_param; 1 := fresh_param ]}
                 roomy_manager [].

(** Chunks of 64 elements, created on the cpu. *)
Definition allocate_64 : Z -> option Z -> M (list Chunk) (nat * Device) :=
  Client.allocate_first_fit 64 cpu_device.

(** The first parameter is registered: its data is tensor 0 and its gradient
    tensor 1, both in chunk 0, on the cpu. *)
Definition registered_world : Client.World :=
  final_state (Client.register_param allocate_64 0 unregistered_world).

Definition registered_attrs : Client.PsAttrs :=
  Client.mkPs 0 1 (cuda_device 0) (Some cpu_device) (Some cpu_device).

Definition registered_param : Client.Param :=
  Client.mkParam [4; 8]%Z cpu_device None (Some registered_attrs).

Definition registered_chunk : Chunk :=
  mkChunk 64 cpu_device
          [mkTensorInfo (Some 0%Z) 0 32 UNINIT; mkTensorInfo (Some 1%Z) 32 32 UNINIT]
          0.

(** An accelerator of 100 elements of which 30 are available: two chunks
    are resident on it, chunk 0 touched before chunk 1. *)
Definition crowded_manager : Client.HybridPSManager :=
  Client.mkManager
    (fun ty _ => if String.eqb ty "cuda" then 100%Z else 1000%Z)
    (fun ty _ => if String.eqb ty "cuda" then 30%Z else 1000%Z).

Definition crowded_world : Client.World :=
  Client.mkWorld
    [mkChunk 40 (cuda_device 0) [mkTensorInfo (Some 0%Z) 0 40 HOLD] 1;
     mkChunk 30 (cuda_device 0) [mkTensorInfo (Some 1%Z) 0 30 HOLD] 2]
    1 ∅ ∅ {[ 0%Z := 0; 1%Z := 1 ]} ∅ crowded_manager [].

(** What a caller may do with the registered parameter and the other one. *)
Definition sample_ops : list Client.Op :=
  [Client.OpAccess 0 DATA 5;
   Client.OpRelease 0 DATA;
   Client.OpChunkMove 0 cpu_device;
   Client.OpNewTensor [64]%Z (Some 7%Z);
   Client.OpRegisterParam 1;
   Client.OpPrepareDevice (cuda_device 0) 64].

(** The trace of scenario C after warmup, with no stage entered. *)
Definition unstarted_stage_manager : Manager.t :=
  Manager.mk 0 0 0 (1 # 5) false 100 100 [] [] [] [] [] [10; 20; 15]%Q
             true Manager.UNSTART 0 4.

(** A warmup iteration whose trace was lost at moment 2. *)
Definition late_warmup_world : Manager.World :=
  Manager.mkWorld
    (Manager.mk 0 5 0 (1 # 5) false 100 100 [] [] [] [] [] []
                true Manager.FWD 0 4)
    (Manager.mkClient 0 (Metronome.mk 2 0 true) [])
    no_profiler [].

(** After warmup at moment 0 of 3, with a trace of one sample only. *)
Definition short_trace_world : Manager.World :=
  Manager.mkWorld
    (Manager.mk 0 90 0 (1 # 5) false 100 100
                [] [] [] [] [] [10]%Q true Manager.FWD 0 4)
    (Manager.mkClient 0 (Metronome.mk 0 3 false)
       [mkChunk 90 (cuda_device 0) [mkTensorInfo (Some 0%Z) 0 90 HOLD] 0])
    no_profiler [].

(** The attributes a registration attaches to a parameter whose ids are
    [id1] and [id2] and whose tensors were placed on [d1] and [d2]. *)
Definition registered_as (p : Client.Param) (id1 id2 : Z) (d1 d2 : Device)
    : Client.Param :=
  Client.mkParam (Client.p_shape p) d1 (Client.p_grad p)
    (Some (Client.mkPs id1 id2 (Client.p_data p) (Some d1) (Some d2))).

(** The state a registration leaves when both allocations returned: the
    counter is two further, the chunk list is the one the second
    allocation left, both ids are bound, and the parameter has its
    attributes. *)
Definition allocated_state (w : Client.World) (param : Client.handle)
    (p : Client.Param) (cid1 cid2 : nat) (d1 d2 : Device) (l2 : list Chunk)
    : Client.World :=
  Client.mkWorld l2 (Client.ps_id w + 2)
    (Client.param_data_dict w) (Client.param_grad_dict w)
    (<[(Client.ps_id w + 2)%Z := cid2]>
       (<[(Client.ps_id w + 1)%Z := cid1]> (Client.dict_tensor_id_chunk_id w)))
    (<[param := registered_as p (Client.ps_id w + 1) (Client.ps_id w + 2) d1 d2]>
       (Client.heap w))
    (Client.ps_manager w) (Client.events w).

(** The same, with the parameter entered in the two dictionaries. *)
Definition registered_state (w : Client.World) (param : Client.handle)
    (p : Client.Param) (cid1 cid2 : nat) (d1 d2 : Device) (l2 : list Chunk)
    : Client.World :=
  let a := allocated_state w param p cid1 cid2 d1 d2 l2 in
  Client.mkWorld (Client.chunk_list a) (Client.ps_id a)
    (<[(Client.ps_id w + 1)%Z := param]> (Client.param_data_dict w))
    (<[(Client.ps_id w + 2)%Z := param]> (Client.param_grad_dict w))
    (Client.dict_tensor_id_chunk_id a) (Client.heap a)
    (Client.ps_manager a) (Client.events a).

(** A parameter that already has a gradient, on [cuda:0]. *)
Definition param_with_grad : Client.Param :=
  Client.mkParam [4; 8]%Z (cuda_device 0) (Some (cuda_device 0)) None.

Definition grad_world : Client.World :=
  Client.mkWorld [] (-1) ∅ ∅ ∅ {[ 0 := param_with_grad ]} roomy_manager [].

(** A parameter that lives on the cpu, where the chunks are created. *)
Definition cpu_param : Client.Param :=
  Client.mkParam [4; 8]%Z cpu_device None None.

Definition cpu_world : Client.World :=
  Client.mkWorld [] (-1) ∅ ∅ ∅ {[ 0 := cpu_param ]} roomy_manager [].

Definition cpu_registered_world : Client.World :=
  final_state (Client.register_param allocate_64 0 cpu_world).

(** The attributes and the parameter object of [cpu_registered_world]: the
    compute device is the cpu, where both tensors were placed. *)
Definition cpu_registered_attrs : Client.PsAttrs :=
  Client.mkPs 0 1 cpu_device (Some cpu_device) (Some cpu_device).

Definition cpu_registered_param : Client.Param :=
  Client.mkParam [4; 8]%Z cpu_device None (Some cpu_registered_attrs).


(** * Properties of the memory manager *)

Lemma Qltb_lt (a b : Q) : Manager.Qltb a b = true <-> (a < b)%Q.
Proof.
  unfold Manager.Qltb. rewrite Qlt_alt.
  destruct (a ?= b)%Q; split; intros H; congruence.
Qed.

Lemma Qltb_nlt (a b : Q) : Manager.Qltb a b = false <-> ~ (a < b)%Q.
Proof.
  rewrite <- Qltb_lt. destruct (Manager.Qltb a b); split; intros; congruence.
Qed.

(** ** Budget forecast in the FWD and BWD stages *)

(** C4. When warmup is over (neither the metronome's warmup flag nor the
    always-warmup option is set), training has started and the stage is FWD or
    BWD, [available_chunk_mem] for the accelerator returns the minimum of
    (budget - recorded non-chunk usage at the current moment) and (budget -
    recorded non-chunk usage at the next moment), minus the margin
    world_size * 2 * default chunk size.  The recorded usages are those the
    trace holds at the two moments. *)
Theorem available_chunk_mem_fwd_bwd
    (env : Manager.Env) (m : Manager.t) (met : Metronome.t) (used_cur used_next : Q) :
  Manager.always_warmup m = false ->
  Metronome.is_warmup met = false ->
  Manager._start_training m = true ->
  Manager._training_stage m = Manager.FWD \/ Manager._training_stage m = Manager.BWD ->
  Manager.gpu_sys_used_list m !! Metronome.moment met = Some used_cur ->
  Manager.gpu_sys_used_list m !! Metronome.next_moment met = Some used_next ->
  exists r : Q,
    Manager.available_chunk_mem env m met "cuda" = Manager.Return (Some r) /\
    (r == Qmin (Manager._overall_gpu_mem m - used_cur)
               (Manager._overall_gpu_mem m - used_next)
          - Manager.get_world_size env * 2 * Manager._default_chunk_size m)%Q.
Proof.
  intros Haw Hw Hst Hstage Hcur Hnext.
  unfold Manager.available_chunk_mem. cbn [String.eqb Ascii.eqb Bool.eqb].
  rewrite Haw, Hw, Hst. cbn [orb negb].
  assert (Hfb : exists r : Q,
             Manager.fwd_bwd_available env m met = Manager.Return (Some r) /\
             (r == Qmin (Manager._overall_gpu_mem m - used_cur)
                        (Manager._overall_gpu_mem m - used_next)
                   - Manager.get_world_size env * 2 * Manager._default_chunk_size m)%Q).
  { unfold Manager.fwd_bwd_available. rewrite Hnext, Hcur.
    eexists. split; [reflexivity|].
    rewrite Q.min_comm. reflexivity. }
  destruct Hstage as [-> | ->]; exact Hfb.
Qed.

(** Scenario C: at moment 1 the forecast is min(100 - 20, 100 - 15) minus
    the margin. *)
Lemma available_chunk_mem_scenario_C :
  exists r : Q,
    Manager.available_chunk_mem quiet_env
      scenario_C_manager scenario_C_metronome "cuda" = Manager.Return (Some r) /\
    (r == Qmin (100 - 20) (100 - 15) - 1 * 2 * 4)%Q.
Proof.
  apply (available_chunk_mem_fwd_bwd quiet_env
           scenario_C_manager scenario_C_metronome 20 15);
    [reflexivity | reflexivity | reflexivity | left; reflexivity
    | reflexivity | reflexivity].
Defined.

(** ** Budget during warmup *)

(** C5, as the code has it. While warmup is active (the metronome's warmup
    flag or the always-warmup option is set) or training has not started,
    [available_chunk_mem] returns the whole cpu budget for cpu; for the
    accelerator it returns budget * warmup ratio, except in the ADAM stage,
    where it returns budget - 4 * default chunk size * 4. *)
Theorem available_chunk_mem_warmup
    (env : Manager.Env) (m : Manager.t) (met : Metronome.t) :
  Manager.always_warmup m = true \/ Metronome.is_warmup met = true
    \/ Manager._start_training m = false ->
  Manager.available_chunk_mem env m met "cpu"
    = Manager.Return (Some (Manager._overall_cpu_mem m)) /\
  Manager.available_chunk_mem env m met "cuda"
    = Manager.Return (Some
        (if decide (Manager._training_stage m = Manager.ADAM)
         then Manager._overall_gpu_mem m - 4 * Manager._default_chunk_size m * 4
         else Manager._overall_gpu_mem m * Manager.warmup_gpu_chunk_mem_ratio m)%Q).
Proof.
  intros H. unfold Manager.available_chunk_mem. cbn [String.eqb Ascii.eqb Bool.eqb].
  split.
  - destruct (Metronome.is_warmup met || negb (Manager._start_training m)); reflexivity.
  - assert (Hc : Manager.always_warmup m || Metronome.is_warmup met
                 || negb (Manager._start_training m) = true).
    { destruct H as [-> | [-> | ->]]; cbn;
        rewrite ?orb_true_r; reflexivity. }
    rewrite Hc. destruct (decide _); reflexivity.
Qed.

Lemma available_chunk_mem_warmup_example :
  Manager.available_chunk_mem quiet_env
    warmup_adam_manager warmup_metronome "cpu" = Manager.Return (Some 100%Q) /\
  Manager.available_chunk_mem quiet_env
    warmup_adam_manager warmup_metronome "cuda"
    = Manager.Return (Some (100 - 4 * 1 * 4)%Q).
Proof.
  apply (available_chunk_mem_warmup quiet_env
           warmup_adam_manager warmup_metronome).
  right; left; reflexivity.
Defined.

(** C5 as stated fails in the ADAM stage: with warmup active, budget 100,
    warmup ratio 1/5 and default chunk size 1, the accelerator gets
    100 - 16 = 84, not 100 * 1/5 = 20. *)
Lemma available_chunk_mem_warmup_adam_counterexample :
  Metronome.is_warmup warmup_metronome = true /\
  exists r : Q,
    Manager.available_chunk_mem quiet_env
      warmup_adam_manager warmup_metronome "cuda" = Manager.Return (Some r) /\
    (r == 84)%Q /\
    ~ (r == Manager._overall_gpu_mem warmup_adam_manager
            * Manager.warmup_gpu_chunk_mem_ratio warmup_adam_manager)%Q.
Proof.
  split; [reflexivity|].
  eexists. split; [reflexivity|]. split; [reflexivity|].
  intros H. vm_compute in H. discriminate H.
Qed.

(** ** The per-moment step *)

Section TiktacFacts.

Variable make_room : Q -> Device -> M (Manager.t * list Chunk) unit.

Lemma profile_moment_mgr env gpu_used cpu_device w :
  Manager.mgr (Manager.profile_moment env gpu_used cpu_device w) = Manager.mgr w.
Proof. unfold Manager.profile_moment. destruct (Manager.started _); reflexivity. Qed.

Lemma profile_moment_client env gpu_used cpu_device w :
  Manager.client (Manager.profile_moment env gpu_used cpu_device w) = Manager.client w.
Proof. unfold Manager.profile_moment. destruct (Manager.started _); reflexivity. Qed.

Lemma profile_moment_events env gpu_used cpu_device w :
  Manager.events (Manager.profile_moment env gpu_used cpu_device w) = Manager.events w.
Proof. unfold Manager.profile_moment. destruct (Manager.started _); reflexivity. Qed.

Lemma tiktac_warmup_eq env w :
  Metronome.is_warmup (Manager.metronome (Manager.client w)) = true ->
  Manager.tiktac make_room env w =
    if decide (Z.of_nat (length (Manager.gpu_sys_used_list (Manager.mgr w))) + 1 - 1
               = Z.of_nat (Metronome.moment (Manager.metronome (Manager.client w))))%Z
    then Manager.metronome_tiktac (Manager.recorded env w)
    else Raise AssertionError (Manager.recorded env w).
Proof.
  intros Hw. unfold Manager.tiktac, Manager.recorded, Manager.tiktac_gpu_device.
  rewrite profile_moment_client, Hw.
  cbn [Manager.with_mgr Manager.mgr Manager.client].
  rewrite profile_moment_client, profile_moment_mgr.
  cbn [Manager.record_moment Manager.set_lists Manager.gpu_sys_used_list].
  rewrite length_app. cbn [length].
  replace (Z.of_nat (length (Manager.gpu_sys_used_list (Manager.mgr w)) + 1))
    with (Z.of_nat (length (Manager.gpu_sys_used_list (Manager.mgr w))) + 1)%Z by lia.
  reflexivity.
Qed.

Lemma tiktac_after_warmup_eq env w :
  Metronome.is_warmup (Manager.metronome (Manager.client w)) = false ->
  Manager.tiktac make_room env w =
    match Manager.gpu_sys_used_list (Manager.mgr w)
            !! Metronome.next_moment (Manager.metronome (Manager.client w)) with
    | None => Raise IndexError (Manager.profiled env w)
    | Some used_next =>
        let headroom := (Manager._overall_gpu_mem (Manager.mgr w) - used_next)%Q in
        let resident :=
          inject_Z (get_chunk_memory_used (Manager.tiktac_gpu_device env w)
                      (Manager.chunk_list (Manager.client w))) in
        if Manager.Qltb headroom resident then
          bind (Manager.call_make_room make_room (resident - headroom)%Q
                  (Manager.tiktac_gpu_device env w))
               (fun _ => Manager.metronome_tiktac) (Manager.profiled env w)
        else Manager.metronome_tiktac (Manager.profiled env w)
    end.
Proof.
  intros Hw.
  unfold Manager.tiktac. fold (Manager.tiktac_gpu_device env w).
  fold (Manager.profiled env w).
  assert (Hc : Manager.client (Manager.profiled env w) = Manager.client w)
    by apply profile_moment_client.
  assert (Hm : Manager.mgr (Manager.profiled env w) = Manager.mgr w)
    by apply profile_moment_mgr.
  rewrite !Hc, !Hm, Hw. reflexivity.
Qed.

Lemma profiled_mgr env w : Manager.mgr (Manager.profiled env w) = Manager.mgr w.
Proof. apply profile_moment_mgr. Qed.

Lemma profiled_client env w :
  Manager.client (Manager.profiled env w) = Manager.client w.
Proof. apply profile_moment_client. Qed.

Lemma profiled_events env w :
  Manager.events (Manager.profiled env w) = Manager.events w.
Proof. apply profile_moment_events. Qed.

Lemma recorded_client env w :
  Manager.client (Manager.recorded env w) = Manager.client w.
Proof. unfold Manager.recorded. cbn. apply profile_moment_client. Qed.

Lemma recorded_events env w :
  Manager.events (Manager.recorded env w) = Manager.events w.
Proof. unfold Manager.recorded. cbn. apply profile_moment_events. Qed.

Lemma recorded_mgr env w :
  Manager.mgr (Manager.recorded env w)
  = Manager.record_moment env
      (Manager.get_sys_memory_used env (Manager.tiktac_gpu_device env w))
      cpu0_device (Manager.mgr w).
Proof. unfold Manager.recorded. cbn. now rewrite profile_moment_mgr. Qed.

(** [client.chunk_list.make_room(size, dev)]: one event, and the metronome
    is out of its reach. *)
Lemma call_make_room_spec size dev w :
  let o := Manager.call_make_room make_room size dev w in
  Manager.events (final_state o) = Manager.events w ++ [Manager.EvMakeRoom size dev] /\
  Manager.metronome (Manager.client (final_state o))
    = Manager.metronome (Manager.client w) /\
  succeeded o
    = succeeded (make_room size dev
                   (Manager.mgr w, Manager.chunk_list (Manager.client w))).
Proof.
  unfold Manager.call_make_room. cbn.
  destruct (make_room size dev _); cbn; auto.
Qed.

Lemma make_room_calls_app evs evs' :
  Manager.make_room_calls (evs ++ evs')
  = Manager.make_room_calls evs ++ Manager.make_room_calls evs'.
Proof. unfold Manager.make_room_calls. apply omap_app. Qed.

Lemma metronome_tiktac_spec w w' :
  Manager.metronome_tiktac w = Ok tt w' ->
  Manager.metronome (Manager.client w')
    = Metronome.tiktac (Manager.metronome (Manager.client w)) /\
  Manager.events w' = Manager.events w ++ [Manager.EvMetronomeTiktac] /\
  Manager.mgr w' = Manager.mgr w.
Proof. intros [= <-]. auto. Qed.

(** A call that returns has ticked the metronome once, as its last step. *)
Lemma tiktac_advances env w w' :
  Manager.tiktac make_room env w = Ok tt w' ->
  Manager.metronome (Manager.client w')
    = Metronome.tiktac (Manager.metronome (Manager.client w)) /\
  exists evs,
    Manager.events w' = Manager.events w ++ evs ++ [Manager.EvMetronomeTiktac] /\
    Manager.EvMetronomeTiktac ∉ evs.
Proof.
  destruct (Metronome.is_warmup (Manager.metronome (Manager.client w))) eqn:Hw.
  - rewrite (tiktac_warmup_eq env w Hw). destruct (decide _); [|discriminate].
    intros H. apply metronome_tiktac_spec in H as (Hm & He & _).
    rewrite recorded_client in Hm. rewrite recorded_events in He.
    split; [exact Hm|]. exists []. split; [exact He|]. apply not_elem_of_nil.
  - rewrite (tiktac_after_warmup_eq env w Hw).
    destruct (_ !! _) as [used_next|]; [|discriminate]. cbn zeta.
    destruct (Manager.Qltb _ _).
    + unfold bind.
      pose proof (call_make_room_spec
                    (inject_Z (get_chunk_memory_used (Manager.tiktac_gpu_device env w)
                                 (Manager.chunk_list (Manager.client w)))
                     - (Manager._overall_gpu_mem (Manager.mgr w) - used_next))%Q
                    (Manager.tiktac_gpu_device env w) (Manager.profiled env w))
        as (He1 & Hm1 & _).
      destruct (Manager.call_make_room _ _ _ _) as [[] w1|]; [|discriminate].
      cbn in He1, Hm1. intros H.
      apply metronome_tiktac_spec in H as (Hm & He & _).
      rewrite profiled_events in He1. rewrite profiled_client in Hm1.
      split; [congruence|].
      eexists [_]. split.
      * rewrite He, He1, <- app_assoc. reflexivity.
      * rewrite list_elem_of_singleton. discriminate.
    + intros H. apply metronome_tiktac_spec in H as (Hm & He & _).
      rewrite profiled_events in He. rewrite profiled_client in Hm.
      split; [exact Hm|]. exists []. split; [exact He|]. apply not_elem_of_nil.
Qed.

(** A call that raises has not advanced the metronome. *)
Lemma tiktac_raises env w e w' :
  Manager.tiktac make_room env w = Raise e w' ->
  Manager.metronome (Manager.client w') = Manager.metronome (Manager.client w).
Proof.
  destruct (Metronome.is_warmup (Manager.metronome (Manager.client w))) eqn:Hw.
  - rewrite (tiktac_warmup_eq env w Hw). destruct (decide _); [discriminate|].
    intros [= _ <-]. rewrite recorded_client. reflexivity.
  - rewrite (tiktac_after_warmup_eq env w Hw).
    destruct (_ !! _) as [used_next|].
    2:{ intros [= _ <-]. rewrite profiled_client. reflexivity. }
    cbn zeta. destruct (Manager.Qltb _ _); [|discriminate].
    unfold bind.
    pose proof (call_make_room_spec
                  (inject_Z (get_chunk_memory_used (Manager.tiktac_gpu_device env w)
                               (Manager.chunk_list (Manager.client w)))
                   - (Manager._overall_gpu_mem (Manager.mgr w) - used_next))%Q
                  (Manager.tiktac_gpu_device env w) (Manager.profiled env w))
      as (_ & Hm1 & _).
    destruct (Manager.call_make_room _ _ _ _) as [[] w1|e1 w1]; [discriminate|].
    cbn in Hm1. intros [= _ <-]. rewrite Hm1, profiled_client. reflexivity.
Qed.

(** C3, as the code has it. After warmup, [tiktac] takes the accelerator
    headroom of the next moment to be the budget minus the non-chunk usage
    recorded for that moment; it calls [make_room] on the accelerator
    exactly when the chunk memory resident there exceeds the headroom,
    asking for the difference, and it returns unless that call raises; it
    raises at once when the trace does not reach the next moment.  In
    warmup it returns exactly when the trace was as long as the current
    moment.  A call that returns has, as its last step, advanced the
    metronome by exactly one moment; a call that raises has not advanced
    it. *)
Theorem tiktac_lookahead (env : Manager.Env) (w : Manager.World) :
  let met := Manager.metronome (Manager.client w) in
  let o := Manager.tiktac make_room env w in
  (forall w', o = Ok tt w' ->
     Manager.metronome (Manager.client w') = Metronome.tiktac met /\
     Metronome.moment (Manager.metronome (Manager.client w'))
       = S (Metronome.moment met) /\
     exists evs,
       Manager.events w' = Manager.events w ++ evs ++ [Manager.EvMetronomeTiktac] /\
       Manager.EvMetronomeTiktac ∉ evs) /\
  (forall e w', o = Raise e w' -> Manager.metronome (Manager.client w') = met) /\
  (Metronome.is_warmup met = true ->
   (succeeded o = true
    <-> length (Manager.gpu_sys_used_list (Manager.mgr w)) = Metronome.moment met)) /\
  (Metronome.is_warmup met = false ->
   (Manager.gpu_sys_used_list (Manager.mgr w) !! Metronome.next_moment met = None ->
    succeeded o = false /\
    Manager.make_room_calls (Manager.events (final_state o))
      = Manager.make_room_calls (Manager.events w)) /\
   forall used_next,
     Manager.gpu_sys_used_list (Manager.mgr w) !! Metronome.next_moment met
       = Some used_next ->
     let gpu_device := Manager.tiktac_gpu_device env w in
     let headroom := (Manager._overall_gpu_mem (Manager.mgr w) - used_next)%Q in
     let resident :=
       inject_Z (get_chunk_memory_used gpu_device
                   (Manager.chunk_list (Manager.client w))) in
     ((headroom < resident)%Q ->
        Manager.make_room_calls (Manager.events (final_state o))
          = Manager.make_room_calls (Manager.events w)
              ++ [((resident - headroom)%Q, gpu_device)] /\
        succeeded o
          = succeeded (make_room (resident - headroom)%Q gpu_device
                         (Manager.mgr w, Manager.chunk_list (Manager.client w)))) /\
     (~ (headroom < resident)%Q ->
        Manager.make_room_calls (Manager.events (final_state o))
          = Manager.make_room_calls (Manager.events w) /\
        succeeded o = true)).
Proof.
  intros met o. split; [|split; [|split]].
  - intros w' H. apply tiktac_advances in H as (Hm & Hev).
    split; [exact Hm|]. split; [|exact Hev]. rewrite Hm. reflexivity.
  - intros e w' H. exact (tiktac_raises env w e w' H).
  - intros Hw. unfold o. rewrite (tiktac_warmup_eq env w Hw).
    fold met. destruct (decide _) as [Heq|Hne]; cbn [succeeded Manager.metronome_tiktac modify].
    + split; [intros _; lia | reflexivity].
    + split; [discriminate | intros H; exfalso; apply Hne; lia].
  - intros Hw. split.
    + intros Hnone. unfold o.
      rewrite (tiktac_after_warmup_eq env w Hw). fold met. rewrite Hnone.
      cbn [succeeded final_state]. rewrite profiled_events. auto.
    + intros used_next Hnext gpu_device headroom resident.
      assert (Ho : o =
                if Manager.Qltb headroom resident then
                  bind (Manager.call_make_room make_room (resident - headroom)%Q
                          gpu_device)
                       (fun _ => Manager.metronome_tiktac) (Manager.profiled env w)
                else Manager.metronome_tiktac (Manager.profiled env w)).
      { unfold o. rewrite (tiktac_after_warmup_eq env w Hw). fold met.
        rewrite Hnext. reflexivity. }
      split.
      * intros Hlt. apply Qltb_lt in Hlt. rewrite Hlt in Ho.
        pose proof (call_make_room_spec (resident - headroom)%Q gpu_device
                      (Manager.profiled env w)) as (He1 & _ & Hs1).
        rewrite profiled_events in He1.
        rewrite profiled_mgr, profiled_client in Hs1.
        rewrite <- Hs1. rewrite Ho. unfold bind.
        destruct (Manager.call_make_room _ _ _ _) as [[] w1|e w1]; cbn in *.
        -- rewrite He1, !make_room_calls_app, app_nil_r. auto.
        -- rewrite He1, make_room_calls_app. auto.
      * intros Hnlt. apply Qltb_nlt in Hnlt. rewrite Hnlt in Ho.
        rewrite Ho. cbn.
        rewrite profiled_events, make_room_calls_app, app_nil_r. auto.
Qed.

(** C6, as the code has it. In warmup every call of [tiktac], whatever its
    outcome, appends exactly one sample to each non-chunk trace: for the
    cpu, the system memory in use minus the chunk memory on the cpu; for
    the accelerator, the larger of the peak of the period and the system
    memory in use, minus the chunk memory on the accelerator.  When
    [tiktac] has been called once per moment since the trace was empty, the
    accelerator trace is, right after the append, one longer than the
    current moment (the assertion holds): the call returns, and the
    relation holds again for the next call. *)
Theorem tiktac_warmup_records (env : Manager.Env) (w : Manager.World) :
  Metronome.is_warmup (Manager.metronome (Manager.client w)) = true ->
  let o := Manager.tiktac make_room env w in
  Manager.gpu_sys_used_list (Manager.mgr (final_state o))
    = Manager.gpu_sys_used_list (Manager.mgr w)
        ++ [(Qmax (Manager.max_mem_usage_period env)
                  (Manager.get_sys_memory_used env (Manager.tiktac_gpu_device env w))
             - Manager.gpu_chunk_used_mem (Manager.mgr w))%Q] /\
  Manager.cpu_sys_used_list (Manager.mgr (final_state o))
    = Manager.cpu_sys_used_list (Manager.mgr w)
        ++ [(Manager.get_sys_memory_used env cpu0_device
             - Manager.cpu_chunk_used_mem (Manager.mgr w))%Q] /\
  (Manager.once_per_moment make_room w ->
   length (Manager.gpu_sys_used_list (Manager.mgr (final_state o)))
     = Metronome.moment (Manager.metronome (Manager.client w)) + 1 /\
   succeeded o = true /\
   Manager.once_per_moment make_room (final_state o)).
Proof.
  intros Hw o.
  assert (Hinv : forall w, Manager.once_per_moment make_room w ->
            length (Manager.gpu_sys_used_list (Manager.mgr w))
            = Metronome.moment (Manager.metronome (Manager.client w))).
  { clear. induction 1 as [w Hl Hm | env w w' _ IH Hw Ht | dt sz w w' _ IH Ha
                           | dt sz w w' _ IH Ha | env st w _ IH].
    - rewrite Hl, Hm. reflexivity.
    - rewrite (tiktac_warmup_eq env w Hw) in Ht.
      destruct (decide _); [|discriminate].
      apply metronome_tiktac_spec in Ht as (Hm' & _ & Hmgr).
      rewrite Hmgr, Hm', recorded_mgr, recorded_client. cbn.
      rewrite length_app. cbn. unfold Metronome.moment in IH. lia.
    - unfold Manager.add in Ha.
      repeat (destruct (String.eqb _ _)); try discriminate;
        injection Ha as <-; exact IH.
    - unfold Manager.delete in Ha.
      repeat (destruct (String.eqb _ _)); try discriminate;
        injection Ha as <-; exact IH.
    - unfold Manager.set_training_stage.
      destruct (Manager.started _); exact IH. }
  pose proof (tiktac_warmup_eq env w Hw) as Heq. fold o in Heq.
  assert (Hmgr : Manager.mgr (final_state o)
                 = Manager.record_moment env
                     (Manager.get_sys_memory_used env (Manager.tiktac_gpu_device env w))
                     cpu0_device (Manager.mgr w)).
  { rewrite Heq. destruct (decide _); cbn [final_state Manager.metronome_tiktac modify];
      [cbn [Manager.mgr Manager.with_metronome Manager.emit]|];
      apply recorded_mgr. }
  rewrite Hmgr. cbn [Manager.record_moment Manager.set_lists
                      Manager.gpu_sys_used_list Manager.cpu_sys_used_list].
  split; [reflexivity|]. split; [reflexivity|].
  intros Hopm. pose proof (Hinv w Hopm) as Hlen.
  split; [rewrite length_app; cbn; lia|].
  destruct (decide _) as [_|Hne] in Heq; [|exfalso; apply Hne; lia].
  rewrite Heq. split; [reflexivity|].
  cbn [final_state Manager.metronome_tiktac modify].
  exact (Manager.opm_tiktac make_room env w _ Hopm Hw Heq).
Qed.

End TiktacFacts.

(** After warmup at moment 0 of scenario C the headroom of moment 1 is
    100 - 20 = 80; with 90 bytes of chunks resident, [make_room] is asked for
    the 10 bytes above it. *)
Lemma tiktac_lookahead_example :
  let o := Manager.tiktac Manager.offload_idle quiet_env lookahead_world in
  Manager.make_room_calls (Manager.events (final_state o))
    = [((inject_Z 90 - (100 - 20))%Q, cuda_device 0)] /\
  succeeded o = true.
Proof.
  destruct (tiktac_lookahead Manager.offload_idle quiet_env lookahead_world)
    as (_ & _ & _ & H).
  destruct (H eq_refl) as [_ Hsome].
  destruct (Hsome 20%Q eq_refl) as [Hcall _].
  apply Hcall. reflexivity.
Defined.

(** A warmup call at moment 2 with an empty trace: the assertion fails and
    the metronome stays at moment 2. *)
Lemma tiktac_advance_counterexample :
  exists w',
    Manager.tiktac Manager.offload_idle quiet_env late_warmup_world
      = Raise AssertionError w' /\
    Metronome.moment (Manager.metronome (Manager.client w'))
      = Metronome.moment (Manager.metronome (Manager.client late_warmup_world)).
Proof. eexists. split; reflexivity. Qed.

(** The first warmup moment records max(30, 10) - 5 for the accelerator. *)
Lemma tiktac_warmup_records_example :
  let o := Manager.tiktac Manager.offload_idle peak_env first_moment_world in
  Manager.gpu_sys_used_list (Manager.mgr (final_state o)) = [] ++ [(Qmax 30 10 - 5)%Q] /\
  Manager.cpu_sys_used_list (Manager.mgr (final_state o)) = [] ++ [(0 - 0)%Q] /\
  length (Manager.gpu_sys_used_list (Manager.mgr (final_state o))) = 0 + 1 /\
  succeeded o = true.
Proof.
  destruct (tiktac_warmup_records Manager.offload_idle peak_env first_moment_world
              eq_refl) as (Hg & Hc & H).
  destruct H as (Hl & Hs & _); [apply Manager.opm_empty; reflexivity|].
  split; [exact Hg|]. split; [exact Hc|]. split; [exact Hl | exact Hs].
Defined.

(** C6 as stated fails for the accelerator when the peak of the period is
    above the memory in use: with 10 bytes in use, a peak of 30 and 5 bytes
    of chunks, the sample is 25, not 10 - 5. *)
Lemma tiktac_warmup_sample_counterexample :
  exists w' sample,
    Manager.tiktac Manager.offload_idle peak_env first_moment_world = Ok tt w' /\
    Manager.gpu_sys_used_list (Manager.mgr w')
      = Manager.gpu_sys_used_list (Manager.mgr first_moment_world) ++ [sample] /\
    (sample == 25)%Q /\
    ~ (sample == Manager.get_sys_memory_used peak_env (cuda_device 0)
                 - Manager.gpu_chunk_used_mem (Manager.mgr first_moment_world))%Q.
Proof.
  eexists. eexists. split; [reflexivity|]. split; [reflexivity|].
  split; [reflexivity|]. intros H. vm_compute in H. discriminate H.
Qed.


(** * Properties of the client *)

(** ** Tensor records *)

Lemma has_record_set_status tid tid' st c :
  Client.has_record tid' (Client.set_status tid st c) = Client.has_record tid' c.
Proof.
  unfold Client.has_record, Client.set_status. cbn [tensor_info_list].
  induction (tensor_info_list c) as [|i l IH]; [reflexivity|].
  cbn. rewrite IH. destruct (decide (tensor_id i = Some tid)); reflexivity.
Qed.

Lemma status_of_set_status tid st c :
  Client.has_record tid c = true ->
  Client.status_of tid (Client.set_status tid st c) = Some st.
Proof.
  unfold Client.has_record, Client.status_of, Client.set_status.
  cbn [tensor_info_list].
  induction (tensor_info_list c) as [|i l IH]; [discriminate|].
  cbn. destruct (decide (tensor_id i = Some tid)) as [Heq|Hne].
  - intros _. cbn. rewrite bool_decide_eq_true_2 by exact Heq. reflexivity.
  - rewrite !bool_decide_eq_false_2 by exact Hne. cbn. exact IH.
Qed.

Lemma set_status_idemp tid st c :
  Client.set_status tid st (Client.set_status tid st c) = Client.set_status tid st c.
Proof.
  unfold Client.set_status. cbn. f_equal.
  rewrite <- list_fmap_compose. apply list_fmap_ext. intros _ i _. cbn.
  destruct (decide (tensor_id i = Some tid)) as [Heq|Hne]; cbn.
  - rewrite decide_True by exact Heq. reflexivity.
  - rewrite decide_False by exact Hne. reflexivity.
Qed.

Lemma used_extent_set_status tid st c :
  Client.used_extent (Client.set_status tid st c) = Client.used_extent c.
Proof.
  unfold Client.used_extent, Client.set_status. cbn [tensor_info_list].
  induction (tensor_info_list c) as [|i l IH]; [reflexivity|].
  cbn. rewrite IH. destruct (decide _); reflexivity.
Qed.

Lemma residency_set_status tid st c :
  Client.residency (Client.set_status tid st c) = Client.residency c.
Proof. unfold Client.residency. rewrite used_extent_set_status. reflexivity. Qed.

Lemma fmap_insert_same {A B} (f : A -> B) (l : list A) (i : nat) (x y : A) :
  l !! i = Some x -> f y = f x -> f <$> <[i := y]> l = f <$> l.
Proof.
  intros Hl Hf. rewrite list_fmap_insert, Hf.
  apply list_insert_id. rewrite list_lookup_fmap, Hl. reflexivity.
Qed.

(** ** [release] *)

Lemma set_tensor_status_ok chunk_id tid st c w :
  Client.chunk_list w !! chunk_id = Some c ->
  Client.has_record tid c = true ->
  Client.set_tensor_status chunk_id tid st w
  = Ok tt (Client.with_chunk_list
             (fun l => <[chunk_id := Client.set_status tid st c]> l) w).
Proof.
  intros Hc Hr. unfold Client.set_tensor_status, bind, Client.get_chunk.
  rewrite Hc, Hr. reflexivity.
Qed.

(** C8. For a registered tensor, [release] returns with the record's status
    HOLD; a second call in succession returns too and changes nothing.
    [release] moves no chunk and reclaims nothing: every chunk keeps its
    capacity, its device and its occupied extent, the tensor-to-chunk binding
    is the same, no chunk move is made, and the parameters' views and the
    manager are untouched. *)
Theorem release_holds (param : Client.handle) (access_type : AccessType)
    (w : Client.World) (ps : Client.PsAttrs) (chunk_id : nat) (c : Chunk) :
  Client.heap w !! param ≫= Client.p_ps = Some ps ->
  Client.dict_tensor_id_chunk_id w !! Client.tensor_id_of access_type ps
    = Some chunk_id ->
  Client.chunk_list w !! chunk_id = Some c ->
  Client.has_record (Client.tensor_id_of access_type ps) c = true ->
  exists w1,
    Client.release param access_type w = Ok tt w1 /\
    Client.chunk_list w1 !! chunk_id
      ≫= Client.status_of (Client.tensor_id_of access_type ps) = Some HOLD /\
    Client.release param access_type w1 = Ok tt w1 /\
    Client.residency <$> Client.chunk_list w1 = Client.residency <$> Client.chunk_list w /\
    Client.dict_tensor_id_chunk_id w1 = Client.dict_tensor_id_chunk_id w /\
    Client.events w1 = Client.events w /\
    Client.heap w1 = Client.heap w /\
    Client.ps_manager w1 = Client.ps_manager w.
Proof.
  intros Hps Hd Hc Hr.
  set (tid := Client.tensor_id_of access_type ps) in *.
  set (c1 := Client.set_status tid HOLD c).
  set (w1 := Client.with_chunk_list (fun l => <[chunk_id := c1]> l) w).
  assert (Hlt : chunk_id < length (Client.chunk_list w))
    by (eapply lookup_lt_Some; exact Hc).
  assert (Hc1 : Client.chunk_list w1 !! chunk_id = Some c1).
  { unfold w1. cbn. apply list_lookup_insert_eq. exact Hlt. }
  assert (Hrel : forall w0 c0,
            Client.heap w0 = Client.heap w ->
            Client.dict_tensor_id_chunk_id w0 = Client.dict_tensor_id_chunk_id w ->
            Client.chunk_list w0 !! chunk_id = Some c0 ->
            Client.has_record tid c0 = true ->
            Client.release param access_type w0
            = Ok tt (Client.with_chunk_list
                       (fun l => <[chunk_id := Client.set_status tid HOLD c0]> l) w0)).
  { intros w0 c0 Hh0 Hd0 Hc0 Hr0.
    unfold Client.release, bind, Client.get_ps, get, Client.some_or.
    rewrite Hh0, Hps. fold tid. rewrite Hd0, Hd. cbn [ret].
    apply set_tensor_status_ok; assumption. }
  exists w1. split; [apply Hrel; auto|].
  split; [rewrite Hc1; cbn; apply status_of_set_status; exact Hr|].
  split.
  { rewrite (Hrel w1 c1); [| reflexivity | reflexivity | exact Hc1
                           | unfold c1; rewrite has_record_set_status; exact Hr].
    f_equal. unfold w1, Client.with_chunk_list. cbn. f_equal.
    unfold c1. rewrite set_status_idemp, list_insert_insert_eq. reflexivity. }
  split.
  { unfold w1. cbn. eapply fmap_insert_same; [exact Hc|].
    apply residency_set_status. }
  repeat split; reflexivity.
Qed.

(** ** [access] without a registration *)

(** C10. [access] on a handle that carries no [ps_data_id] raises (the
    [raise] of a string at line 74 is a [TypeError]) and leaves the whole
    state as it was. *)
Theorem access_unregistered
    (make_room : Z -> Device -> list Chunk -> option (list nat))
    (param : Client.handle) (access_type : AccessType) (now : Z) (w : Client.World) :
  Client.is_ps_param w param = false ->
  Client.access make_room param access_type now w = Raise TypeError w.
Proof.
  intros H. unfold Client.access, bind, get. rewrite H. reflexivity.
Qed.

(** ** Chunk moves *)

Lemma chunk_move_eq chunk_id dev w c :
  Client.chunk_list w !! chunk_id = Some c ->
  Client.chunk_move chunk_id dev w
  = Ok tt (if decide (device c <> dev) then Client.move chunk_id c dev w else w).
Proof.
  intros Hc. unfold Client.chunk_move, bind, Client.get_chunk. rewrite Hc.
  destruct (decide _); reflexivity.
Qed.

Lemma chunk_move_raises chunk_id dev w :
  Client.chunk_list w !! chunk_id = None ->
  Client.chunk_move chunk_id dev w = Raise IndexError w.
Proof.
  intros Hc. unfold Client.chunk_move, bind, Client.get_chunk. rewrite Hc.
  reflexivity.
Qed.

(** One call of [chunk_move] on an existing chunk. *)
Lemma chunk_move_spec chunk_id dev w c :
  Client.chunk_list w !! chunk_id = Some c ->
  exists w',
    Client.chunk_move chunk_id dev w = Ok tt w' /\
    device <$> Client.chunk_list w' !! chunk_id = Some dev /\
    (forall j, j <> chunk_id -> Client.chunk_list w' !! j = Client.chunk_list w !! j) /\
    Client.contents <$> Client.chunk_list w' = Client.contents <$> Client.chunk_list w /\
    Client.registry w' = Client.registry w /\
    (Client.events w' = Client.events w
     \/ Client.events w' = Client.events w ++ [Client.EvMove chunk_id dev]).
Proof.
  intros Hc. rewrite (chunk_move_eq _ _ _ _ Hc).
  assert (Hlt : chunk_id < length (Client.chunk_list w))
    by (eapply lookup_lt_Some; exact Hc).
  eexists. split; [reflexivity|].
  destruct (decide (device c <> dev)) as [Hne|Heq].
  - cbn. split; [rewrite list_lookup_insert_eq by exact Hlt; reflexivity|].
    split; [intros j Hj; apply list_lookup_insert_ne; congruence|].
    split; [eapply fmap_insert_same; [exact Hc|reflexivity]|].
    split; [reflexivity|]. right. reflexivity.
  - apply dec_stable in Heq. rewrite Hc. cbn. rewrite Heq.
    repeat split; auto.
Qed.

(** The loop of [prepare_device] over valid chunk ids. *)
Lemma move_all_spec dev victims : forall w,
  (forall idx, idx ∈ victims -> idx < length (Client.chunk_list w)) ->
  exists w',
    for_each victims (fun idx => Client.chunk_move idx dev) w = Ok tt w' /\
    (forall idx, idx ∈ victims -> device <$> Client.chunk_list w' !! idx = Some dev) /\
    (forall idx, idx ∉ victims -> Client.chunk_list w' !! idx = Client.chunk_list w !! idx) /\
    Client.contents <$> Client.chunk_list w' = Client.contents <$> Client.chunk_list w /\
    Client.registry w' = Client.registry w /\
    exists evs,
      Client.events w' = Client.events w ++ evs /\
      Forall (fun e => exists idx, idx ∈ victims /\ e = Client.EvMove idx dev) evs.
Proof.
  induction victims as [|v victims IH]; intros w Hvalid.
  - exists w. split; [reflexivity|].
    split; [intros idx H; apply elem_of_nil in H; destruct H|].
    repeat split; auto. exists []. rewrite app_nil_r. auto.
  - destruct (lookup_lt_is_Some_2 (Client.chunk_list w) v) as [c Hc].
    { apply Hvalid. left. }
    destruct (chunk_move_spec v dev w c Hc) as (w1 & Hm & Hdev & Hother & Hcont & Hreg & Hev).
    assert (Hlen : length (Client.chunk_list w1) = length (Client.chunk_list w)).
    { rewrite <- (length_fmap Client.contents), Hcont, length_fmap. reflexivity. }
    destruct (IH w1) as (w' & Hrun & Hdev' & Hother' & Hcont' & Hreg' & evs & Hev' & Hall).
    { intros idx Hidx. rewrite Hlen. apply Hvalid. right. exact Hidx. }
    exists w'. split; [cbn; unfold bind; rewrite Hm; exact Hrun|].
    split.
    { intros idx Hidx. destruct (decide (idx ∈ victims)) as [Hin|Hnin].
      - apply Hdev'; exact Hin.
      - apply elem_of_cons in Hidx as [-> | Hin]; [|contradiction].
        rewrite (Hother' v Hnin). exact Hdev. }
    split.
    { intros idx Hidx. apply not_elem_of_cons in Hidx as [Hne Hnin].
      rewrite (Hother' idx Hnin). apply Hother. exact Hne. }
    split; [congruence|]. split; [congruence|].
    assert (Hall' : Forall (fun e => exists idx, idx ∈ v :: victims
                                       /\ e = Client.EvMove idx dev) evs).
    { eapply Forall_impl; [exact Hall|]. intros e (idx & Hin & ->).
      exists idx. split; [right; exact Hin | reflexivity]. }
    destruct Hev as [Hev | Hev].
    + exists evs. rewrite Hev', Hev. auto.
    + exists (Client.EvMove v dev :: evs). rewrite Hev', Hev, <- app_assoc.
      split; [reflexivity|]. constructor; [|exact Hall'].
      exists v. split; [left | reflexivity].
Qed.

(** The loop, whatever its outcome: it only adds moves to the device, it can
    only fail on a chunk id that does not exist, and the registry is out of
    its reach. *)
Lemma move_all_any dev victims : forall w,
  let o := for_each victims (fun idx => Client.chunk_move idx dev) w in
  Client.registry (final_state o) = Client.registry w /\
  (forall e w', o = Raise e w' -> e = IndexError) /\
  exists evs,
    Client.events (final_state o) = Client.events w ++ evs /\
    Forall (fun e => exists idx, idx ∈ victims /\ e = Client.EvMove idx dev) evs.
Proof.
  induction victims as [|v victims IH]; intros w; cbn zeta.
  - cbn. split; [reflexivity|]. split; [discriminate|].
    exists []. rewrite app_nil_r. auto.
  - cbn [for_each]. unfold bind.
    destruct (Client.chunk_list w !! v) as [c|] eqn:Hc.
    + destruct (chunk_move_spec v dev w c Hc) as (w1 & Hm & _ & _ & _ & Hreg & Hev).
      rewrite Hm. destruct (IH w1) as (Hreg' & Hexn & evs & Hev' & Hall).
      split; [congruence|]. split; [exact Hexn|].
      assert (Hall' : Forall (fun e => exists idx, idx ∈ v :: victims
                                         /\ e = Client.EvMove idx dev) evs).
      { eapply Forall_impl; [exact Hall|]. intros e (idx & Hin & ->).
        exists idx. split; [right; exact Hin | reflexivity]. }
      destruct Hev as [Hev | Hev].
      * exists evs. rewrite Hev', Hev. auto.
      * exists (Client.EvMove v dev :: evs). rewrite Hev', Hev, <- app_assoc.
        split; [reflexivity|]. constructor; [|exact Hall'].
        exists v. split; [left | reflexivity].
    + rewrite (chunk_move_raises _ _ _ Hc). cbn.
      split; [reflexivity|]. split; [congruence|].
      exists []. rewrite app_nil_r. auto.
Qed.

(** ** [prepare_device] *)

Section PrepareDevice.

Variable make_room : Z -> Device -> list Chunk -> option (list nat).

Lemma prepare_device_eq target_device need_size w :
  Client.prepare_device make_room target_device need_size w =
    let mgr := Client.ps_manager w in
    let max := Client.max_mem mgr (dev_type target_device) (dev_index target_device) in
    let avail :=
      Client.available_mem mgr (dev_type target_device) (dev_index target_device) in
    if (max <? need_size)%Z then Raise RuntimeError w
    else if (need_size - avail <=? 0)%Z then Ok tt w
    else
      let w1 := Client.emit (Client.EvMakeRoom (need_size - avail) target_device) w in
      match make_room (need_size - avail)%Z target_device (Client.chunk_list w) with
      | None => Raise CalleeError w1
      | Some moved_list =>
          for_each moved_list
            (fun idx => Client.chunk_move idx (Client.alternate_device target_device)) w1
      end.
Proof. reflexivity. Qed.

(** C1. When [need_size] is within the device's total capacity:
    if the available memory covers it, [prepare_device] returns and the
    state is as before (no victim is selected, no chunk moved); otherwise it
    calls [make_room] once, with the deficit [need_size - available] on the
    target device, and the only other calls it makes are moves to the
    alternate device; when [make_room] answers with existing chunk ids it
    returns, every victim is on the alternate device, and every other chunk
    is as before. *)
Theorem prepare_device_makes_room
    (target_device : Device) (need_size : Z) (w : Client.World) :
  (need_size
   <= Client.max_mem (Client.ps_manager w) (dev_type target_device)
        (dev_index target_device))%Z ->
  let avail :=
    Client.available_mem (Client.ps_manager w) (dev_type target_device)
      (dev_index target_device) in
  let alt := Client.alternate_device target_device in
  let o := Client.prepare_device make_room target_device need_size w in
  ((need_size <= avail)%Z -> o = Ok tt w) /\
  ((avail < need_size)%Z ->
     (exists moves,
        Client.events (final_state o)
          = Client.events w
              ++ Client.EvMakeRoom (need_size - avail) target_device :: moves /\
        Forall (fun e => exists idx, e = Client.EvMove idx alt) moves) /\
     (forall victims,
        make_room (need_size - avail)%Z target_device (Client.chunk_list w)
          = Some victims ->
        (forall idx, idx ∈ victims -> idx < length (Client.chunk_list w)) ->
        exists w',
          o = Ok tt w' /\
          (forall idx, idx ∈ victims ->
             device <$> Client.chunk_list w' !! idx = Some alt) /\
          (forall idx, idx ∉ victims ->
             Client.chunk_list w' !! idx = Client.chunk_list w !! idx) /\
          Client.contents <$> Client.chunk_list w' = Client.contents <$> Client.chunk_list w)).
Proof.
  intros Hcap avail alt o.
  assert (Ho : o = Client.prepare_device make_room target_device need_size w)
    by reflexivity.
  rewrite prepare_device_eq in Ho. cbn zeta in Ho. fold avail in Ho.
  rewrite (proj2 (Z.ltb_ge _ _) Hcap) in Ho.
  split.
  - intros Hle. rewrite Ho.
    rewrite (proj2 (Z.leb_le _ _)) by lia. reflexivity.
  - intros Hlt. rewrite (proj2 (Z.leb_gt _ _)) in Ho by lia.
    set (w1 := Client.emit (Client.EvMakeRoom (need_size - avail) target_device) w) in Ho.
    split.
    + destruct (make_room _ _ _) as [victims|].
      * destruct (move_all_any alt victims w1) as (_ & _ & evs & Hev & Hall).
        fold alt in Ho. rewrite <- Ho in Hev.
        exists evs. split.
        -- rewrite Hev. unfold w1. cbn. rewrite <- app_assoc. reflexivity.
        -- eapply Forall_impl; [exact Hall|]. intros e (idx & _ & ->). eauto.
      * exists []. rewrite Ho. split; [reflexivity | constructor].
    + intros victims Hmr Hvalid. rewrite Hmr in Ho. fold alt in Ho.
      destruct (move_all_spec alt victims w1 Hvalid)
        as (w' & Hrun & Hdev & Hother & Hcont & _).
      exists w'. split; [congruence|]. auto.
Qed.



End PrepareDevice.

(** ** Rebinding of views by a chunk move *)

Lemma identity_rebind_data dev p : Client.identity (Client.rebind_data dev p) = Client.identity p.
Proof. unfold Client.identity. cbn. destruct (Client.p_ps p); reflexivity. Qed.

Lemma identity_rebind_grad dev p : Client.identity (Client.rebind_grad dev p) = Client.identity p.
Proof.
  unfold Client.identity. cbn. destruct (Client.p_ps p), (Client.p_grad p); reflexivity.
Qed.

Lemma fmap_alter_same {A B} (f : A -> B) (g : A -> A) (h : Client.handle)
    (hp : gmap Client.handle A) :
  (forall x, f (g x) = f x) -> f <$> alter g h hp = f <$> hp.
Proof.
  intros Hfg. apply map_eq. intros k. rewrite !lookup_fmap.
  destruct (decide (h = k)) as [->|Hne].
  - rewrite lookup_alter_eq. destruct (hp !! k); cbn; [rewrite Hfg|]; reflexivity.
  - rewrite lookup_alter_ne by exact Hne. reflexivity.
Qed.

Lemma identity_rebind pdd pgd dev hp i :
  Client.identity <$> Client.rebind pdd pgd dev hp i = Client.identity <$> hp.
Proof.
  unfold Client.rebind.
  destruct (tensor_id i ≫= _) as [h|].
  - apply fmap_alter_same, identity_rebind_data.
  - destruct (tensor_id i ≫= _) as [h|]; [|reflexivity].
    apply fmap_alter_same, identity_rebind_grad.
Qed.

Lemma identity_rebind_all pdd pgd dev l : forall hp,
  Client.identity <$> foldl (Client.rebind pdd pgd dev) hp l = Client.identity <$> hp.
Proof.
  induction l as [|i l IH]; intros hp; [reflexivity|].
  cbn. rewrite IH. apply identity_rebind.
Qed.

Section Rebinding.

Variables (pdd pgd : gmap Z Client.handle) (dev : Device).
Variables (param : Client.handle) (access_type : AccessType) (tid : Z).

Local Abbreviation owned_by := (Client.owned_by pdd pgd param access_type tid).
Local Abbreviation bindable := (Client.bindable param access_type).
Local Abbreviation bound_to := (Client.bound_to dev param access_type).

Lemma bound_to_bindable hp : bound_to hp -> bindable hp.
Proof. intros (p & ps & Hp & Hps & Ht & _). exists p. rewrite Hps, Ht. eauto. Qed.

Lemma bindable_alter_data hp h :
  bindable hp -> bindable (alter (Client.rebind_data dev) h hp).
Proof.
  intros (p & Hp & [ps Hps] & Ht).
  destruct (decide (h = param)) as [->|Hne].
  - exists (Client.rebind_data dev p). rewrite lookup_alter_eq, Hp. cbn.
    rewrite Hps. split; [reflexivity|]. split; [eexists; reflexivity|].
    destruct access_type; cbn in *; [eexists; reflexivity | exact Ht].
  - exists p. rewrite lookup_alter_ne by exact Hne. rewrite Hps.
    split; [exact Hp|]. split; [eexists; reflexivity | exact Ht].
Qed.

Lemma bindable_alter_grad hp h :
  bindable hp -> bindable (alter (Client.rebind_grad dev) h hp).
Proof.
  intros (p & Hp & [ps Hps] & Ht).
  destruct (decide (h = param)) as [->|Hne].
  - exists (Client.rebind_grad dev p). rewrite lookup_alter_eq, Hp. cbn.
    rewrite Hps. split; [reflexivity|]. split; [eexists; reflexivity|].
    destruct access_type; cbn in *; [exact Ht|].
    destruct Ht as [d ->]. eexists; reflexivity.
  - exists p. rewrite lookup_alter_ne by exact Hne. rewrite Hps.
    split; [exact Hp|]. split; [eexists; reflexivity | exact Ht].
Qed.

Lemma bindable_rebind hp i :
  bindable hp -> bindable (Client.rebind pdd pgd dev hp i).
Proof.
  intros H. unfold Client.rebind.
  destruct (tensor_id i ≫= _); [apply bindable_alter_data; exact H|].
  destruct (tensor_id i ≫= _); [apply bindable_alter_grad; exact H|exact H].
Qed.

Lemma bound_to_alter_data hp h :
  bound_to hp -> bound_to (alter (Client.rebind_data dev) h hp).
Proof.
  intros (p & ps & Hp & Hps & Ht & Hv).
  destruct (decide (h = param)) as [->|Hne].
  - eexists (Client.rebind_data dev p), _. rewrite lookup_alter_eq, Hp. cbn.
    rewrite Hps. cbn. split; [reflexivity|]. split; [reflexivity|].
    destruct access_type; cbn in *; auto.
  - exists p, ps. rewrite lookup_alter_ne by exact Hne. auto.
Qed.

Lemma bound_to_alter_grad hp h :
  bound_to hp -> bound_to (alter (Client.rebind_grad dev) h hp).
Proof.
  intros (p & ps & Hp & Hps & Ht & Hv).
  destruct (decide (h = param)) as [->|Hne].
  - eexists (Client.rebind_grad dev p), _. rewrite lookup_alter_eq, Hp. cbn.
    rewrite Hps. cbn. split; [reflexivity|]. split; [reflexivity|].
    destruct access_type; cbn in *; auto. rewrite Ht. auto.
  - exists p, ps. rewrite lookup_alter_ne by exact Hne. auto.
Qed.

Lemma bound_to_rebind hp i :
  bound_to hp -> bound_to (Client.rebind pdd pgd dev hp i).
Proof.
  intros H. unfold Client.rebind.
  destruct (tensor_id i ≫= _); [apply bound_to_alter_data; exact H|].
  destruct (tensor_id i ≫= _); [apply bound_to_alter_grad; exact H|exact H].
Qed.

(** Rebinding the record of [tid] puts both views of the tensor on [dev]. *)
Lemma rebind_binds hp i :
  owned_by -> bindable hp -> tensor_id i = Some tid ->
  bound_to (Client.rebind pdd pgd dev hp i).
Proof.
  intros Hown (p & Hp & [ps Hps] & Ht) Hi. unfold Client.rebind. rewrite Hi. cbn.
  unfold Client.owned_by in Hown. unfold Client.bound_to. destruct access_type.
  - rewrite Hown. eexists (Client.rebind_data dev p), _.
    rewrite lookup_alter_eq, Hp. cbn. rewrite Hps. cbn.
    repeat split; reflexivity.
  - destruct Hown as [-> ->]. eexists (Client.rebind_grad dev p), _.
    rewrite lookup_alter_eq, Hp. cbn. rewrite Hps. cbn.
    destruct Ht as [d Hd]. cbn in Hd. rewrite Hd.
    repeat split; reflexivity.
Qed.

Lemma bound_to_rebind_all l : forall hp,
  bound_to hp -> bound_to (foldl (Client.rebind pdd pgd dev) hp l).
Proof.
  induction l as [|i l IH]; intros hp H; [exact H|].
  cbn. apply IH, bound_to_rebind, H.
Qed.

Lemma rebind_all_binds l : forall hp,
  owned_by -> bindable hp ->
  existsb (fun i => bool_decide (tensor_id i = Some tid)) l = true ->
  bound_to (foldl (Client.rebind pdd pgd dev) hp l).
Proof.
  induction l as [|i l IH]; intros hp Hown Hb Hex; [discriminate|].
  cbn in Hex. cbn [foldl]. apply orb_true_iff in Hex as [Hi|Hex].
  - apply bound_to_rebind_all, rebind_binds; auto.
    apply bool_decide_eq_true_1 in Hi. exact Hi.
  - apply IH; auto. apply bindable_rebind, Hb.
Qed.

End Rebinding.

Lemma identity_move chunk_id c dev w :
  Client.identity <$> Client.heap (Client.move chunk_id c dev w) = Client.identity <$> Client.heap w.
Proof. unfold Client.move. cbn. apply identity_rebind_all. Qed.

Lemma identity_chunk_move chunk_id dev w :
  Client.identity <$> Client.heap (final_state (Client.chunk_move chunk_id dev w))
  = Client.identity <$> Client.heap w.
Proof.
  destruct (Client.chunk_list w !! chunk_id) as [c|] eqn:Hc.
  - rewrite (chunk_move_eq _ _ _ _ Hc). cbn.
    destruct (decide _); [apply identity_move | reflexivity].
  - rewrite (chunk_move_raises _ _ _ Hc). reflexivity.
Qed.

Lemma identity_move_all dev victims : forall w,
  Client.identity <$> Client.heap
                 (final_state (for_each victims (fun idx => Client.chunk_move idx dev) w))
  = Client.identity <$> Client.heap w.
Proof.
  induction victims as [|v victims IH]; intros w; [reflexivity|].
  cbn [for_each]. unfold bind.
  pose proof (identity_chunk_move v dev w) as H.
  destruct (Client.chunk_move v dev w) as [[] w1|e w1]; cbn in H.
  - rewrite IH. exact H.
  - exact H.
Qed.

(** A parameter object with the same identity can still be rebound. *)
Lemma bindable_identity param access_type hp hp' :
  Client.identity <$> hp' = Client.identity <$> hp ->
  Client.bindable param access_type hp -> Client.bindable param access_type hp'.
Proof.
  intros Hid (p & Hp & Hps & Ht).
  assert (Hl : Client.identity <$> hp' !! param = Some (Client.identity p)).
  { rewrite <- lookup_fmap, Hid, lookup_fmap, Hp. reflexivity. }
  destruct (hp' !! param) as [p'|] eqn:Hp'; [|discriminate].
  cbn in Hl. injection Hl as Hs Hg Hi.
  exists p'. split; [exact Hp'|]. split.
  - destruct Hps as [ps Hps]. rewrite Hps in Hi.
    destruct (Client.p_ps p'); [eexists; reflexivity | discriminate].
  - destruct access_type; cbn in *; [eexists; reflexivity|].
    destruct (Client.p_grad p'); [eexists; reflexivity|].
    destruct Ht as [d Hd]. rewrite Hd in Hg. discriminate Hg.
Qed.

Lemma compute_device_identity (param : Client.handle)
    (hp hp' : gmap Client.handle Client.Param) p p' ps ps' :
  Client.identity <$> hp' = Client.identity <$> hp ->
  hp !! param = Some p -> Client.p_ps p = Some ps ->
  hp' !! param = Some p' -> Client.p_ps p' = Some ps' ->
  Client.compute_device ps' = Client.compute_device ps /\
  Client.ps_data_id ps' = Client.ps_data_id ps /\
  Client.ps_grad_id ps' = Client.ps_grad_id ps.
Proof.
  intros Hid Hp Hps Hp' Hps'.
  assert (Hl : Client.identity <$> hp' !! param = Client.identity <$> hp !! param)
    by (rewrite <- !lookup_fmap, Hid; reflexivity).
  rewrite Hp, Hp' in Hl. cbn in Hl. unfold Client.identity in Hl.
  rewrite Hps, Hps' in Hl. cbn in Hl. injection Hl as _ _ H1 H2 H3. auto.
Qed.

(** The alternate of an accelerator is the cpu, the alternate of the cpu is
    the accelerator [cuda:0]. *)
Lemma alternate_device_cuda rank : Client.alternate_device (cuda_device rank) = cpu_device.
Proof. reflexivity. Qed.

Lemma alternate_device_cpu :
  Client.alternate_device cpu_device = cuda_device 0 /\
  Client.alternate_device cpu0_device = cuda_device 0.
Proof. split; reflexivity. Qed.

(** The alternate device is never the target. *)
Lemma alternate_device_neq target_device :
  Client.alternate_device target_device <> target_device.
Proof.
  unfold Client.alternate_device. intros H.
  destruct (String.eqb (dev_type target_device) "cuda") eqn:E.
  - apply String.eqb_eq in E. rewrite <- H in E. discriminate E.
  - apply String.eqb_neq in E. apply E. rewrite <- H. reflexivity.
Qed.

(** ** [access] *)

Lemma access_finish_ok param access_type chunk_id now w p ps c view :
  Client.heap w !! param = Some p ->
  Client.p_ps p = Some ps ->
  Client.tensor_device access_type p = Some (Client.compute_device ps) ->
  Client.ps_tensor_device access_type ps = Some view ->
  Client.chunk_list w !! chunk_id = Some c ->
  Client.has_record (Client.tensor_id_of access_type ps) c = true ->
  exists w',
    Client.access_finish param access_type chunk_id now w = Ok tt w' /\
    Client.chunk_list w' !! chunk_id
      = Some (Client.set_status (Client.tensor_id_of access_type ps) COMPUTE
                (Client.touch now c)) /\
    (forall j, j <> chunk_id -> Client.chunk_list w' !! j = Client.chunk_list w !! j) /\
    Client.events w' = Client.events w /\
    Client.registry w' = Client.registry w.
Proof.
  intros Hp Hps Ht Hv Hc Hr.
  assert (Hlt : chunk_id < length (Client.chunk_list w))
    by (eapply lookup_lt_Some; exact Hc).
  unfold Client.access_finish, bind, Client.get_param, Client.get_ps,
    Client.some_or, Client.get_chunk, Client.set_chunk, modify, ret.
  rewrite Hp. cbn. rewrite Ht. cbn. rewrite Hp. cbn. rewrite Hps.
  rewrite decide_True by reflexivity.
  rewrite Hc, Hv. cbn.
  unfold Client.set_tensor_status, bind, Client.get_chunk. cbn.
  rewrite list_lookup_insert_eq by exact Hlt.
  assert (Hr' : Client.has_record (Client.tensor_id_of access_type ps)
                  (Client.touch now c) = true) by exact Hr.
  rewrite Hr'. cbn.
  eexists. split; [reflexivity|]. cbn.
  split; [apply list_lookup_insert_eq; rewrite length_insert; exact Hlt|].
  split; [intros j Hj; rewrite !list_lookup_insert_ne by congruence; reflexivity|].
  split; reflexivity.
Qed.

Section Access.

Variable make_room : Z -> Device -> list Chunk -> option (list nat).

Lemma prepare_device_ok target_device need_size w :
  Client.room_can_be_made make_room w target_device need_size ->
  exists w2,
    Client.prepare_device make_room target_device need_size w = Ok tt w2 /\
    Client.contents <$> Client.chunk_list w2 = Client.contents <$> Client.chunk_list w /\
    Client.registry w2 = Client.registry w /\
    Client.identity <$> Client.heap w2 = Client.identity <$> Client.heap w /\
    (forall idx c c2,
       Client.chunk_list w !! idx = Some c ->
       Client.chunk_list w2 !! idx = Some c2 ->
       device c2 = device c \/ device c2 = Client.alternate_device target_device) /\
    exists evs, Client.events w2 = Client.events w ++ evs.
Proof.
  intros [Hcap Hroom]. cbn zeta in Hroom.
  rewrite prepare_device_eq. cbn zeta.
  rewrite (proj2 (Z.ltb_ge _ _) Hcap).
  destruct (_ <=? 0)%Z eqn:Hle.
  - exists w. split; [reflexivity|]. repeat split; auto.
    + intros idx c c2 H1 H2. left. congruence.
    + exists []. rewrite app_nil_r. reflexivity.
  - apply Z.leb_gt in Hle.
    destruct Hroom as (victims & Hmr & Hvalid); [lia|]. rewrite Hmr.
    set (w1 := Client.emit _ w).
    destruct (move_all_spec (Client.alternate_device target_device) victims w1 Hvalid)
      as (w' & Hrun & Hdev & Hother & Hcont & Hreg & evs & Hev & _).
    pose proof (identity_move_all (Client.alternate_device target_device) victims w1) as Hid.
    rewrite Hrun in Hid. cbn in Hid.
    exists w'. split; [exact Hrun|]. split; [exact Hcont|].
    split; [exact Hreg|]. split; [exact Hid|]. split.
    + intros idx c c2 H1 H2. destruct (decide (idx ∈ victims)) as [Hin|Hnin].
      * right. specialize (Hdev idx Hin). rewrite H2 in Hdev. cbn in Hdev. congruence.
      * left. rewrite (Hother idx Hnin) in H2. cbn in H2. congruence.
    + eexists. rewrite Hev. unfold w1. cbn. rewrite <- app_assoc. reflexivity.
Qed.

(** X28. For a registered tensor whose views follow its chunk, [access]
    returns with the tensor's record in status COMPUTE, the chunk's touch
    time refreshed, and the chunk on the tensor's compute device; when the
    chunk was elsewhere, room is prepared on the compute device and the
    chunk is moved there first (the move is the last event), and when it was
    there already nothing is moved.  The binding of the tensor is as
    before. *)
Theorem access_computes
    (param : Client.handle) (access_type : AccessType) (now : Z) (w : Client.World)
    (p : Client.Param) (ps : Client.PsAttrs) (chunk_id : nat) (c : Chunk) :
  let tid := Client.tensor_id_of access_type ps in
  Client.heap w !! param = Some p ->
  Client.p_ps p = Some ps ->
  Client.dict_tensor_id_chunk_id w !! tid = Some chunk_id ->
  Client.chunk_list w !! chunk_id = Some c ->
  Client.has_record tid c = true ->
  Client.ps_tensor_device access_type ps = Some (device c) ->
  Client.tensor_device access_type p = Some (device c) ->
  Client.owned_by (Client.param_data_dict w) (Client.param_grad_dict w) param access_type tid ->
  (device c <> Client.compute_device ps ->
   Client.room_can_be_made make_room w (Client.compute_device ps) (capacity c)) ->
  exists w' c',
    Client.access make_room param access_type now w = Ok tt w' /\
    Client.chunk_list w' !! chunk_id = Some c' /\
    Client.status_of tid c' = Some COMPUTE /\
    timestamp c' = now /\
    device c' = Client.compute_device ps /\
    Client.dict_tensor_id_chunk_id w' = Client.dict_tensor_id_chunk_id w /\
    (device c = Client.compute_device ps -> Client.events w' = Client.events w) /\
    (device c <> Client.compute_device ps ->
     exists evs,
       Client.events w'
       = Client.events w ++ evs
           ++ [Client.EvMove chunk_id (Client.compute_device ps)]).
Proof.
  intros tid Hp Hps Hd Hc Hr Hv Ht Hown Hroom.
  assert (Hisps : Client.is_ps_param w param = true).
  { unfold Client.is_ps_param. rewrite Hp. cbn. rewrite Hps.
    apply bool_decide_eq_true_2. eexists; reflexivity. }
  assert (Hstart : Client.access make_room param access_type now w =
            bind (if decide (Client.compute_device ps <> device c) then
                    bind (Client.get_chunk chunk_id) (fun c0 =>
                      bind (Client.prepare_device make_room
                              (Client.compute_device ps) (capacity c0))
                           (fun _ => Client.chunk_move chunk_id
                                       (Client.compute_device ps)))
                  else ret tt)
                 (fun _ => Client.access_finish param access_type chunk_id now) w).
  { unfold Client.access at 1. unfold bind at 1. unfold get.
    rewrite Hisps. cbn [negb]. unfold bind at 1. unfold Client.get_ps.
    rewrite Hp. cbn [mbind option_bind]. rewrite Hps.
    unfold bind at 1. fold tid. rewrite Hd. cbn [Client.some_or ret].
    unfold bind at 1. rewrite Hv. cbn [Client.some_or ret]. reflexivity. }
  rewrite Hstart. clear Hstart.
  destruct (decide (Client.compute_device ps <> device c)) as [Hne|Heq].
  - (* the chunk is elsewhere *)
    assert (Hne' : device c <> Client.compute_device ps) by congruence.
    destruct (prepare_device_ok _ _ _ (Hroom Hne'))
      as (w2 & Hprep & Hcont & Hreg & Hid & Hdevs & evs & Hev).
    assert (Hc2 : exists c2, Client.chunk_list w2 !! chunk_id = Some c2 /\
                             Client.contents c2 = Client.contents c).
    { assert (Hl : Client.contents <$> Client.chunk_list w2 !! chunk_id
                   = Some (Client.contents c)).
      { rewrite <- list_lookup_fmap, Hcont, list_lookup_fmap, Hc. reflexivity. }
      destruct (Client.chunk_list w2 !! chunk_id) as [c2|]; [|discriminate].
      exists c2. split; [reflexivity|]. cbn in Hl. congruence. }
    destruct Hc2 as (c2 & Hc2 & Hcont2).
    unfold Client.contents in Hcont2. injection Hcont2 as Hcap2 Hinfo2 Htime2.
    assert (Hdev2 : device c2 <> Client.compute_device ps).
    { destruct (Hdevs _ _ _ Hc Hc2) as [-> | ->]; [exact Hne'|].
      apply alternate_device_neq. }
    set (dev := Client.compute_device ps) in *.
    set (w3 := Client.move chunk_id c2 dev w2).
    assert (Hlt2 : chunk_id < length (Client.chunk_list w2))
      by (eapply lookup_lt_Some; exact Hc2).
    assert (Hbranch :
              bind (Client.get_chunk chunk_id) (fun c0 =>
                bind (Client.prepare_device make_room dev (capacity c0))
                     (fun _ => Client.chunk_move chunk_id dev)) w = Ok tt w3).
    { unfold bind at 1. unfold Client.get_chunk. rewrite Hc.
      unfold bind. rewrite Hprep. rewrite (chunk_move_eq _ _ _ _ Hc2).
      rewrite decide_True by exact Hdev2. reflexivity. }
    unfold bind at 1. rewrite Hbranch.
    (* the views of the tensor after the move *)
    assert (Hreg3 : Client.registry w3 = Client.registry w) by (rewrite <- Hreg; reflexivity).
    assert (Hid3 : Client.identity <$> Client.heap w3 = Client.identity <$> Client.heap w).
    { unfold w3. rewrite identity_move. exact Hid. }
    assert (Hbound : Client.bound_to dev param access_type (Client.heap w3)).
    { unfold w3, Client.move. cbn.
      injection Hreg as _ Hpdd Hpgd _ _. rewrite Hpdd, Hpgd.
      apply rebind_all_binds with (tid := tid).
      - exact Hown.
      - eapply bindable_identity; [exact Hid|].
        exists p. rewrite Hps, Ht. split; [exact Hp|].
        split; eexists; reflexivity.
      - rewrite Hinfo2. exact Hr. }
    destruct Hbound as (p3 & ps3 & Hp3 & Hps3 & Ht3 & Hv3).
    destruct (compute_device_identity param _ _ _ _ _ _ Hid3 Hp Hps Hp3 Hps3)
      as (Hcd & Hdi & Hgi).
    assert (Htid3 : Client.tensor_id_of access_type ps3 = tid).
    { unfold tid. destruct access_type; cbn; assumption. }
    set (c3 := mkChunk (capacity c2) dev (tensor_info_list c2) (timestamp c2)).
    assert (Hc3 : Client.chunk_list w3 !! chunk_id = Some c3).
    { unfold w3, Client.move. cbn. apply list_lookup_insert_eq. exact Hlt2. }
    destruct (access_finish_ok param access_type chunk_id now w3 p3 ps3 c3 dev)
      as (w' & Hfin & Hc' & _ & Hev' & Hreg');
      [exact Hp3 | exact Hps3 | rewrite Hcd; exact Ht3 | exact Hv3 | exact Hc3
      | rewrite Htid3; unfold Client.has_record, c3; cbn; rewrite Hinfo2; exact Hr |].
    rewrite Htid3 in Hc'.
    exists w', (Client.set_status tid COMPUTE (Client.touch now c3)).
    split; [exact Hfin|]. split; [exact Hc'|].
    split.
    { apply status_of_set_status. unfold Client.has_record, c3. cbn.
      rewrite Hinfo2. exact Hr. }
    split; [reflexivity|]. split; [reflexivity|].
    split.
    { rewrite Hreg3 in Hreg'. injection Hreg' as _ _ _ Hdict _. exact Hdict. }
    split; [intros Heq; contradiction|].
    intros _. exists evs. rewrite Hev'. unfold w3, Client.move. cbn.
    rewrite Hev, <- app_assoc. reflexivity.
  - (* the chunk is on the compute device *)
    apply dec_stable in Heq.
    unfold bind at 1. cbn [ret].
    destruct (access_finish_ok param access_type chunk_id now w p ps c (device c))
      as (w' & Hfin & Hc' & _ & Hev' & Hreg');
      [exact Hp | exact Hps | rewrite Heq; exact Ht | exact Hv | exact Hc | exact Hr |].
    exists w', (Client.set_status tid COMPUTE (Client.touch now c)).
    split; [exact Hfin|]. split; [exact Hc'|].
    split; [apply status_of_set_status; exact Hr|].
    split; [reflexivity|]. split; [cbn; congruence|].
    split; [injection Hreg' as _ _ _ Hdict _; exact Hdict|].
    split; [intros _; exact Hev'|]. intros Hne. congruence.
Qed.

End Access.

(** ** Stability of the tensor-to-chunk binding *)

Lemma frames_ret {A} (a : A) : Client.frames (ret a).
Proof. intros w. reflexivity. Qed.

Lemma frames_raise {A} e : Client.frames (@raise Client.World A e).
Proof. intros w. reflexivity. Qed.

Lemma frames_get : Client.frames (@get Client.World).
Proof. intros w. reflexivity. Qed.

Lemma frames_bind {A B} (m : M Client.World A) (k : A -> M Client.World B) :
  Client.frames m -> (forall a, Client.frames (k a)) -> Client.frames (bind m k).
Proof.
  intros Hm Hk w. unfold bind. specialize (Hm w).
  destruct (m w) as [a w1|e w1]; cbn in *; [|exact Hm].
  rewrite Hk. exact Hm.
Qed.

Lemma frames_modify (f : Client.World -> Client.World) :
  (forall w, Client.registry (f w) = Client.registry w) -> Client.frames (modify f).
Proof. intros Hf w. apply Hf. Qed.

Lemma frames_some_or {A} e (o : option A) : Client.frames (Client.some_or e o).
Proof. destruct o; [apply frames_ret | apply frames_raise]. Qed.

Lemma frames_get_chunk chunk_id : Client.frames (Client.get_chunk chunk_id).
Proof. intros w. unfold Client.get_chunk. destruct (_ !! _); reflexivity. Qed.

Lemma frames_get_param param : Client.frames (Client.get_param param).
Proof. intros w. unfold Client.get_param. destruct (_ !! _); reflexivity. Qed.

Lemma frames_get_ps param : Client.frames (Client.get_ps param).
Proof. intros w. unfold Client.get_ps. destruct (_ ≫= _); reflexivity. Qed.

Lemma frames_set_chunk chunk_id c : Client.frames (Client.set_chunk chunk_id c).
Proof. apply frames_modify. reflexivity. Qed.

Lemma frames_set_tensor_status chunk_id tid st :
  Client.frames (Client.set_tensor_status chunk_id tid st).
Proof.
  apply frames_bind; [apply frames_get_chunk|]. intros c.
  destruct (Client.has_record tid c); [apply frames_set_chunk | apply frames_raise].
Qed.

Lemma frames_chunk_move chunk_id dev : Client.frames (Client.chunk_move chunk_id dev).
Proof.
  apply frames_bind; [apply frames_get_chunk|]. intros c.
  destruct (decide _); [|apply frames_ret].
  apply frames_modify. reflexivity.
Qed.

Lemma frames_release param access_type : Client.frames (Client.release param access_type).
Proof.
  apply frames_bind; [apply frames_get_ps|]. intros ps.
  apply frames_bind; [apply frames_get|]. intros w.
  apply frames_bind; [apply frames_some_or|]. intros chunk_id.
  apply frames_set_tensor_status.
Qed.

Lemma frames_access_finish param access_type chunk_id now :
  Client.frames (Client.access_finish param access_type chunk_id now).
Proof.
  apply frames_bind; [apply frames_get_param|]. intros p.
  apply frames_bind; [apply frames_some_or|]. intros current_device.
  apply frames_bind; [apply frames_get_ps|]. intros ps.
  destruct (decide _); [|apply frames_raise].
  apply frames_bind; [apply frames_get_chunk|]. intros c.
  apply frames_bind; [apply frames_set_chunk|]. intros _.
  apply frames_bind; [apply frames_some_or|]. intros view.
  apply frames_bind; [apply frames_modify; reflexivity|]. intros _.
  apply frames_set_tensor_status.
Qed.

Section Binding.

Variable make_room : Z -> Device -> list Chunk -> option (list nat).
Variable allocate : Z -> option Z -> M (list Chunk) (nat * Device).

Lemma frames_prepare_device target_device need_size :
  Client.frames (Client.prepare_device make_room target_device need_size).
Proof.
  intros w. rewrite prepare_device_eq. cbn zeta.
  destruct (_ <? _)%Z; [reflexivity|].
  destruct (_ <=? _)%Z; [reflexivity|].
  destruct (make_room _ _ _) as [victims|]; [|reflexivity].
  rewrite (proj1 (move_all_any _ victims _)). reflexivity.
Qed.

Lemma frames_access param access_type now :
  Client.frames (Client.access make_room param access_type now).
Proof.
  apply frames_bind; [apply frames_get|]. intros w.
  destruct (negb _); [apply frames_raise|].
  apply frames_bind; [apply frames_get_ps|]. intros ps.
  apply frames_bind; [apply frames_some_or|]. intros chunk_id.
  apply frames_bind; [apply frames_some_or|]. intros current_device.
  apply frames_bind; [|intros _; apply frames_access_finish].
  destruct (decide _); [|apply frames_ret].
  apply frames_bind; [apply frames_get_chunk|]. intros c.
  apply frames_bind; [apply frames_prepare_device|]. intros _.
  apply frames_chunk_move.
Qed.

Lemma stable_refl tid w : Client.stable tid w w.
Proof. split; [lia | reflexivity]. Qed.

Lemma stable_trans tid w1 w2 w3 :
  Client.stable tid w1 w2 -> Client.stable tid w2 w3 -> Client.stable tid w1 w3.
Proof. intros [H1 H2] [H3 H4]. split; [lia | congruence]. Qed.

Lemma frames_stable {A} tid (m : M Client.World A) w :
  Client.frames m -> Client.stable tid w (final_state (m w)).
Proof.
  intros H. specialize (H w). unfold Client.registry in H.
  injection H as Hid _ _ Hd _. split; [lia | congruence].
Qed.

Lemma stable_with_heap tid f w : Client.stable tid w (Client.with_heap f w).
Proof. split; [cbn; lia | reflexivity]. Qed.

(** [new_tensor] binds the id it is given and no other. *)
Lemma new_tensor_stable tid shape t w :
  t <> Some tid ->
  Client.stable tid w (final_state (Client.new_tensor allocate shape t w)).
Proof.
  intros Hne. unfold Client.new_tensor, bind, Client.call_allocate.
  destruct (allocate _ _ _) as [[chunk_id dest] l|e l]; cbn;
    [|split; [cbn; lia | reflexivity]].
  destruct t as [t|]; cbn; [|split; [cbn; lia | reflexivity]].
  split; [cbn; lia|]. cbn. apply lookup_insert_ne. congruence.
Qed.

Lemma generate_id_spec w :
  exists w', Client.generate_id w = Ok (Client.ps_id w + 1)%Z w' /\
             Client.ps_id w' = (Client.ps_id w + 1)%Z /\
             Client.dict_tensor_id_chunk_id w' = Client.dict_tensor_id_chunk_id w.
Proof. eexists. split; [reflexivity|]. split; reflexivity. Qed.

(** A registration draws its two ids from the counter: they are above every
    id at or below it. *)
Lemma convert_stable tid param w :
  (tid <= Client.ps_id w)%Z ->
  Client.stable tid w (final_state (Client._convert_to_ps_param allocate param w)).
Proof.
  intros Hle. unfold Client._convert_to_ps_param.
  unfold bind at 1. unfold get.
  destruct (Client.is_ps_param w param); [apply stable_refl|].
  unfold bind at 1. unfold Client.get_param.
  destruct (Client.heap w !! param) as [p|]; [|apply stable_refl].
  unfold bind at 1. cbn [Client.generate_id].
  set (w1 := Client.mkWorld _ (Client.ps_id w + 1)%Z _ _ _ _ _ _).
  unfold bind at 1. cbn [Client.generate_id].
  set (w2 := Client.mkWorld _ (Client.ps_id w1 + 1)%Z _ _ _ _ _ _).
  assert (H2 : Client.stable tid w w2) by (split; [cbn; lia | reflexivity]).
  unfold bind at 1. unfold modify at 1.
  set (w3 := Client.with_heap _ w2).
  assert (H3 : Client.stable tid w w3) by (split; [cbn; lia | reflexivity]).
  unfold bind at 1.
  pose proof (new_tensor_stable tid (Client.p_shape p) (Some (Client.ps_id w1)) w3)
    as H4.
  destruct (Client.new_tensor allocate _ _ w3) as [r w4|e w4]; cbn in H4.
  2:{ cbn. eapply stable_trans; [exact H3|]. apply H4. cbn. intros [= ?]. lia. }
  assert (H4' : Client.stable tid w w4).
  { eapply stable_trans; [exact H3|]. apply H4. cbn. intros [= ?]. lia. }
  clear H4. unfold bind at 1. unfold modify at 1.
  set (w5 := Client.with_heap _ w4).
  unfold bind at 1.
  pose proof (new_tensor_stable tid (Client.p_shape p) (Some (Client.ps_id w2)) w5)
    as H6.
  destruct (Client.new_tensor allocate _ _ w5) as [r' w6|e w6]; cbn in H6.
  2:{ cbn. eapply stable_trans; [exact H4'|]. apply H6. cbn. intros [= ?]. lia. }
  assert (H6' : Client.stable tid w w6).
  { eapply stable_trans; [exact H4'|]. apply H6. cbn. intros [= ?]. lia. }
  clear H6. unfold bind at 1. unfold modify at 1.
  set (w7 := Client.with_heap _ w6).
  unfold bind at 1.
  destruct (Client.p_grad p); cbn; exact H6'.
Qed.

Lemma register_param_stable tid param w :
  (tid <= Client.ps_id w)%Z ->
  Client.stable tid w (final_state (Client.register_param allocate param w)).
Proof.
  intros Hle. unfold Client.register_param, bind, get.
  destruct (Client.is_ps_param w param); [apply stable_refl|].
  apply convert_stable. exact Hle.
Qed.

Lemma register_module_stable tid module : forall w,
  (tid <= Client.ps_id w)%Z ->
  Client.stable tid w (final_state (Client.register_module allocate module w)).
Proof.
  destruct module as [params|]; [|intros; apply stable_refl].
  cbn. induction params as [|param params IH]; intros w Hle; [apply stable_refl|].
  cbn [for_each]. unfold bind at 1.
  pose proof (register_param_stable tid param w Hle) as H1.
  unfold Client.register_param in H1.
  destruct (bind get _ w) as [[] w1|e w1]; cbn in H1; [|exact H1].
  eapply stable_trans; [exact H1|]. apply IH. destruct H1. lia.
Qed.




End Binding.

(** * Examples *)

Example registered_world_param :
  Client.heap registered_world !! 0 = Some registered_param /\
  Client.chunk_list registered_world = [registered_chunk] /\
  Client.dict_tensor_id_chunk_id registered_world !! 0%Z = Some 0 /\
  Client.dict_tensor_id_chunk_id registered_world !! 1%Z = Some 0 /\
  Client.ps_id registered_world = 1%Z.
Proof. repeat split; reflexivity. Qed.

(** With 30 elements available, a request for 40 lacks 10: [make_room]
    answers with chunk 0, the least recently touched, which ends on the
    cpu; chunk 1 stays. *)
Lemma prepare_device_makes_room_example :
  exists w',
    Client.prepare_device Client.make_room_lru (cuda_device 0) 40 crowded_world
      = Ok tt w' /\
    (forall idx, idx ∈ [0] -> device <$> Client.chunk_list w' !! idx = Some cpu_device) /\
    (forall idx, idx ∉ [0] ->
       Client.chunk_list w' !! idx = Client.chunk_list crowded_world !! idx) /\
    Client.contents <$> Client.chunk_list w'
      = Client.contents <$> Client.chunk_list crowded_world.
Proof.
  assert (Hcap : (40 <= Client.max_mem (Client.ps_manager crowded_world)
                          (dev_type (cuda_device 0)) (dev_index (cuda_device 0)))%Z)
    by (vm_compute; discriminate).
  destruct (prepare_device_makes_room Client.make_room_lru (cuda_device 0) 40
              crowded_world Hcap) as [_ H].
  destruct H as [_ H]; [reflexivity|].
  apply (H [0]); [reflexivity|].
  intros idx Hidx. apply list_elem_of_singleton in Hidx. subst idx. cbn. lia.
Defined.

(** The first access to the data of the registered parameter moves chunk 0
    from the cpu to [cuda:0]. *)
Lemma access_computes_example :
  exists w' c',
    Client.access Client.make_room_lru 0 DATA 5 registered_world = Ok tt w' /\
    Client.chunk_list w' !! 0 = Some c' /\
    Client.status_of 0 c' = Some COMPUTE /\
    timestamp c' = 5%Z /\
    device c' = cuda_device 0.
Proof.
  destruct (access_computes Client.make_room_lru 0 DATA 5 registered_world
              registered_param registered_attrs 0 registered_chunk)
    as (w' & c' & H1 & H2 & H3 & H4 & H5 & _);
    [reflexivity | reflexivity | reflexivity | reflexivity | reflexivity
    | reflexivity | reflexivity | reflexivity | |].
  - intros _. split; [vm_compute; discriminate|].
    intros Hlt. vm_compute in Hlt. discriminate Hlt.
  - exists w', c'. repeat split; assumption.
Defined.

Lemma release_holds_example :
  exists w1,
    Client.release 0 DATA registered_world = Ok tt w1 /\
    Client.chunk_list w1 !! 0 ≫= Client.status_of 0 = Some HOLD /\
    Client.release 0 DATA w1 = Ok tt w1 /\
    Client.residency <$> Client.chunk_list w1
      = Client.residency <$> Client.chunk_list registered_world.
Proof.
  destruct (release_holds 0 DATA registered_world registered_attrs 0 registered_chunk)
    as (w1 & H1 & H2 & H3 & H4 & _);
    [reflexivity | reflexivity | reflexivity | reflexivity |].
  exists w1. repeat split; assumption.
Defined.

Lemma access_unregistered_example :
  Client.access Client.make_room_lru 0 DATA 5 unregistered_world
  = Raise TypeError unregistered_world.
Proof.
  apply (access_unregistered Client.make_room_lru 0 DATA 5 unregistered_world).
  reflexivity.
Defined.





(** * Further properties of the memory manager *)

(** ** Free, used and available chunk memory *)

(** X2. After warmup, in a stage that is neither ADAM, FWD nor BWD,
    [available_chunk_mem] falls off its end for the accelerator and returns
    [None]; [free_chunk_mem] then fails on the subtraction. *)
Theorem available_chunk_mem_no_stage
    (env : Manager.Env) (m : Manager.t) (met : Metronome.t) :
  Manager.always_warmup m = false ->
  Metronome.is_warmup met = false ->
  Manager._start_training m = true ->
  Manager._training_stage m <> Manager.ADAM ->
  Manager._training_stage m <> Manager.FWD ->
  Manager._training_stage m <> Manager.BWD ->
  Manager.available_chunk_mem env m met "cuda" = Manager.Return None /\
  Manager.free_chunk_mem env m met "cuda" = Manager.Throw TypeError.
Proof.
  intros Haw Hw Hst Ha Hf Hb.
  assert (H : Manager.available_chunk_mem env m met "cuda" = Manager.Return None).
  { unfold Manager.available_chunk_mem. cbn [String.eqb Ascii.eqb Bool.eqb].
    rewrite Haw, Hw, Hst. cbn [orb negb].
    destruct (Manager._training_stage m); congruence. }
  split; [exact H|]. unfold Manager.free_chunk_mem. rewrite H. reflexivity.
Qed.

Lemma available_chunk_mem_no_stage_example :
  Manager.available_chunk_mem quiet_env unstarted_stage_manager
    scenario_C_metronome "cuda" = Manager.Return None /\
  Manager.free_chunk_mem quiet_env unstarted_stage_manager
    scenario_C_metronome "cuda" = Manager.Throw TypeError.
Proof.
  apply (available_chunk_mem_no_stage quiet_env unstarted_stage_manager
           scenario_C_metronome); (reflexivity || discriminate).
Defined.

(** X3. [available_chunk_mem] raises in one situation only: for the accelerator,
    after warmup, in the FWD or BWD stage, when the trace does not reach the
    current or the next moment; the exception is an [IndexError]. *)
Theorem available_chunk_mem_raises
    (env : Manager.Env) (m : Manager.t) (met : Metronome.t)
    (device_type : string) (e : exn) :
  Manager.available_chunk_mem env m met device_type = Manager.Throw e <->
  e = IndexError /\ device_type = "cuda" /\
  Manager.always_warmup m = false /\ Metronome.is_warmup met = false /\
  Manager._start_training m = true /\
  (Manager._training_stage m = Manager.FWD \/ Manager._training_stage m = Manager.BWD) /\
  (length (Manager.gpu_sys_used_list m) <= Metronome.moment met \/
   length (Manager.gpu_sys_used_list m) <= Metronome.next_moment met).
Proof.
  assert (Hfb : Manager.fwd_bwd_available env m met = Manager.Throw e <->
                e = IndexError /\
                (length (Manager.gpu_sys_used_list m) <= Metronome.moment met \/
                 length (Manager.gpu_sys_used_list m) <= Metronome.next_moment met)).
  { unfold Manager.fwd_bwd_available.
    destruct (_ !! Metronome.next_moment met) as [un|] eqn:Hn;
      [destruct (_ !! Metronome.moment met) as [uc|] eqn:Hc|].
    - apply lookup_lt_Some in Hn, Hc. split; [discriminate|].
      intros [_ [H|H]]; exfalso; lia.
    - apply lookup_ge_None in Hc.
      split; [intros [= <-]; split; [reflexivity | left; exact Hc]
             | intros [-> _]; reflexivity].
    - apply lookup_ge_None in Hn.
      split; [intros [= <-]; split; [reflexivity | right; exact Hn]
             | intros [-> _]; reflexivity]. }
  unfold Manager.available_chunk_mem.
  destruct (String.eqb device_type "cpu") eqn:Hcpu.
  { apply String.eqb_eq in Hcpu. subst device_type.
    split; [destruct (_ || _); discriminate | intros (_ & [=] & _)]. }
  destruct (String.eqb device_type "cuda") eqn:Hcuda.
  2:{ apply String.eqb_neq in Hcuda. split; [discriminate | tauto]. }
  apply String.eqb_eq in Hcuda.
  destruct (Manager.always_warmup m), (Metronome.is_warmup met),
    (Manager._start_training m); cbn [orb negb];
    try (split; [destruct (decide _); discriminate
                | intros (_ & _ & ? & ? & ? & _); discriminate]).
  destruct (Manager._training_stage m) eqn:Hs;
    try (split; [discriminate | intros (_ & _ & _ & _ & _ & [?|?] & _); discriminate]);
    rewrite Hfb; intuition.
Qed.

(** X4. After warmup, in FWD and BWD, the chunk budget plus the communication
    margin plus the recorded non-chunk usage stays within the accelerator
    budget, at the current moment and at the next one. *)
Theorem forecast_within_budget
    (env : Manager.Env) (m : Manager.t) (met : Metronome.t)
    (used_cur used_next r : Q) :
  Manager.always_warmup m = false ->
  Metronome.is_warmup met = false ->
  Manager._start_training m = true ->
  Manager._training_stage m = Manager.FWD \/ Manager._training_stage m = Manager.BWD ->
  Manager.gpu_sys_used_list m !! Metronome.moment met = Some used_cur ->
  Manager.gpu_sys_used_list m !! Metronome.next_moment met = Some used_next ->
  Manager.available_chunk_mem env m met "cuda" = Manager.Return (Some r) ->
  let margin := (Manager.get_world_size env * 2 * Manager._default_chunk_size m)%Q in
  (r + margin + used_cur <= Manager._overall_gpu_mem m)%Q /\
  (r + margin + used_next <= Manager._overall_gpu_mem m)%Q.
Proof.
  intros Haw Hw Hst Hstage Hcur Hnext Hr margin.
  unfold Manager.available_chunk_mem in Hr. cbn [String.eqb Ascii.eqb Bool.eqb] in Hr.
  rewrite Haw, Hw, Hst in Hr. cbn [orb negb] in Hr.
  assert (Hfb : Manager.fwd_bwd_available env m met = Manager.Return (Some r))
    by (destruct Hstage as [Hs|Hs]; rewrite Hs in Hr; exact Hr).
  unfold Manager.fwd_bwd_available in Hfb. rewrite Hnext, Hcur in Hfb.
  injection Hfb as <-. fold margin.
  pose proof (Q.le_min_l (Manager._overall_gpu_mem m - used_next)
                         (Manager._overall_gpu_mem m - used_cur)) as H1.
  pose proof (Q.le_min_r (Manager._overall_gpu_mem m - used_next)
                         (Manager._overall_gpu_mem m - used_cur)) as H2.
  split; lra.
Qed.

Lemma forecast_within_budget_example :
  ((Qmin (100 - 15) (100 - 20) - 1 * 2 * 4) + 1 * 2 * 4 + 20 <= 100)%Q /\
  ((Qmin (100 - 15) (100 - 20) - 1 * 2 * 4) + 1 * 2 * 4 + 15 <= 100)%Q.
Proof.
  apply (forecast_within_budget quiet_env scenario_C_manager scenario_C_metronome
           20 15);
    [reflexivity | reflexivity | reflexivity | left; reflexivity
    | reflexivity | reflexivity | reflexivity].
Defined.

(** ** The chunk counters *)

(** X5. [delete] undoes [add]: after both, each counter has its old value, and
    nothing else has changed. *)
Theorem add_then_delete
    (device_type : string) (size : Q) (w w1 : Manager.World) :
  Manager.add device_type size w = Ok tt w1 ->
  exists w2,
    Manager.delete device_type size w1 = Ok tt w2 /\
    (Manager.gpu_chunk_used_mem (Manager.mgr w2)
     == Manager.gpu_chunk_used_mem (Manager.mgr w))%Q /\
    (Manager.cpu_chunk_used_mem (Manager.mgr w2)
     == Manager.cpu_chunk_used_mem (Manager.mgr w))%Q /\
    Manager.but_counters (Manager.mgr w2) = Manager.but_counters (Manager.mgr w) /\
    Manager.client w2 = Manager.client w /\
    Manager.profiler w2 = Manager.profiler w /\
    Manager.events w2 = Manager.events w.
Proof.
  unfold Manager.add, Manager.delete.
  destruct (String.eqb device_type "cpu");
    [|destruct (String.eqb device_type "cuda"); [|discriminate]];
    intros [= <-]; eexists; (split; [reflexivity|]); cbn;
    repeat split; try reflexivity; ring.
Qed.

Lemma add_then_delete_example :
  exists w2,
    Manager.delete "cuda" 7 (final_state (Manager.add "cuda" 7 lookahead_world))
      = Ok tt w2 /\
    (Manager.gpu_chunk_used_mem (Manager.mgr w2) == 90)%Q /\
    (Manager.cpu_chunk_used_mem (Manager.mgr w2) == 0)%Q /\
    Manager.but_counters (Manager.mgr w2)
      = Manager.but_counters (Manager.mgr lookahead_world) /\
    Manager.client w2 = Manager.client lookahead_world /\
    Manager.profiler w2 = Manager.profiler lookahead_world /\
    Manager.events w2 = Manager.events lookahead_world.
Proof.
  apply (add_then_delete "cuda" 7 lookahead_world). reflexivity.
Defined.

(** X6. A device type other than "cpu" and "cuda": [add] and [delete] raise
    (the [raise] of a string is a [TypeError]) and change nothing,
    [used_chunk_mem] raises a [RuntimeError], [available_chunk_mem] returns
    [None], and [free_chunk_mem] raises the [RuntimeError] of
    [used_chunk_mem] before it gets to subtract. *)
Theorem unsupported_device_type
    (env : Manager.Env) (met : Metronome.t) (device_type : string) (size : Q)
    (w : Manager.World) :
  device_type <> "cpu" -> device_type <> "cuda" ->
  Manager.add device_type size w = Raise TypeError w /\
  Manager.delete device_type size w = Raise TypeError w /\
  Manager.used_chunk_mem (Manager.mgr w) device_type = Manager.Throw RuntimeError /\
  Manager.available_chunk_mem env (Manager.mgr w) met device_type
    = Manager.Return None /\
  Manager.free_chunk_mem env (Manager.mgr w) met device_type
    = Manager.Throw RuntimeError.
Proof.
  intros Hcpu Hcuda. apply String.eqb_neq in Hcpu, Hcuda.
  unfold Manager.free_chunk_mem, Manager.add, Manager.delete,
    Manager.used_chunk_mem, Manager.available_chunk_mem.
  rewrite Hcpu, Hcuda. repeat split; reflexivity.
Qed.

Lemma unsupported_device_type_example :
  Manager.add "xpu" 7 lookahead_world = Raise TypeError lookahead_world /\
  Manager.delete "xpu" 7 lookahead_world = Raise TypeError lookahead_world /\
  Manager.used_chunk_mem (Manager.mgr lookahead_world) "xpu"
    = Manager.Throw RuntimeError /\
  Manager.available_chunk_mem quiet_env (Manager.mgr lookahead_world)
    scenario_C_metronome "xpu" = Manager.Return None /\
  Manager.free_chunk_mem quiet_env (Manager.mgr lookahead_world)
    scenario_C_metronome "xpu" = Manager.Throw RuntimeError.
Proof.
  apply (unsupported_device_type quiet_env scenario_C_metronome "xpu" 7
           lookahead_world); discriminate.
Defined.

(** ** The per-moment step: errors and what it leaves alone *)

Section TiktacEdges.

Variable make_room : Q -> Device -> M (Manager.t * list Chunk) unit.

(** X7. In warmup, [tiktac] returns exactly when the accelerator trace is as
    long as the current moment.  Otherwise its assertion fails: the samples
    of the call stay appended to the traces and the metronome is not
    advanced. *)
Theorem tiktac_warmup_assertion (env : Manager.Env) (w : Manager.World) :
  Metronome.is_warmup (Manager.metronome (Manager.client w)) = true ->
  let o := Manager.tiktac make_room env w in
  (succeeded o = true <->
   length (Manager.gpu_sys_used_list (Manager.mgr w))
   = Metronome.moment (Manager.metronome (Manager.client w))) /\
  (length (Manager.gpu_sys_used_list (Manager.mgr w))
   <> Metronome.moment (Manager.metronome (Manager.client w)) ->
   exists w',
     o = Raise AssertionError w' /\
     Manager.metronome (Manager.client w') = Manager.metronome (Manager.client w) /\
     length (Manager.gpu_sys_used_list (Manager.mgr w'))
     = S (length (Manager.gpu_sys_used_list (Manager.mgr w))) /\
     length (Manager.cpu_sys_used_list (Manager.mgr w'))
     = S (length (Manager.cpu_sys_used_list (Manager.mgr w)))).
Proof.
  intros Hw o. unfold o. rewrite (tiktac_warmup_eq make_room env w Hw).
  destruct (decide _) as [Heq|Hne].
  - split; [split; [intros _; lia | reflexivity]|]. intros Hne. exfalso. lia.
  - split; [split; [discriminate | intros Heq; exfalso; lia]|].
    intros _. eexists. split; [reflexivity|].
    rewrite recorded_client, recorded_mgr. cbn.
    rewrite !length_app. cbn. split; [reflexivity|]. split; lia.
Qed.

(** X8. After warmup, when the trace does not reach the next moment, [tiktac]
    raises an [IndexError]: [make_room] is not called, the metronome is not
    advanced, and the manager and the chunk list are as before. *)
Theorem tiktac_short_trace (env : Manager.Env) (w : Manager.World) :
  Metronome.is_warmup (Manager.metronome (Manager.client w)) = false ->
  length (Manager.gpu_sys_used_list (Manager.mgr w))
  <= Metronome.next_moment (Manager.metronome (Manager.client w)) ->
  exists w',
    Manager.tiktac make_room env w = Raise IndexError w' /\
    Manager.observable w' = Manager.observable w.
Proof.
  intros Hw Hlen. rewrite (tiktac_after_warmup_eq make_room env w Hw).
  rewrite (proj2 (lookup_ge_None _ _) Hlen).
  eexists. split; [reflexivity|]. unfold Manager.observable.
  rewrite profiled_mgr, profiled_client, profiled_events. reflexivity.
Qed.

(** X9. In warmup [tiktac] leaves the chunks alone: whatever its outcome, it
    makes no [make_room] call, and the chunk list, the two chunk counters,
    the budgets and the stage are as before. *)
Theorem tiktac_warmup_frame (env : Manager.Env) (w : Manager.World) :
  Metronome.is_warmup (Manager.metronome (Manager.client w)) = true ->
  let w' := final_state (Manager.tiktac make_room env w) in
  Manager.make_room_calls (Manager.events w')
    = Manager.make_room_calls (Manager.events w) /\
  Manager.chunk_list (Manager.client w') = Manager.chunk_list (Manager.client w) /\
  Manager.set_lists [] [] [] [] [] [] (Manager.mgr w')
    = Manager.set_lists [] [] [] [] [] [] (Manager.mgr w).
Proof.
  intros Hw. cbn zeta. rewrite (tiktac_warmup_eq make_room env w Hw).
  destruct (decide _); cbn;
    rewrite ?make_room_calls_app, ?app_nil_r,
      ?profile_moment_events, ?profile_moment_client, ?profile_moment_mgr; auto.
Qed.

(** X10. [reset_memory_stats] changes nothing outside warmup.  In warmup, the
    [tiktac] that follows it returns exactly when the metronome is at moment
    0, and then every trace holds one sample. *)
Theorem reset_memory_stats_then_tiktac (env : Manager.Env) (w : Manager.World) :
  (Metronome.is_warmup (Manager.metronome (Manager.client w)) = false ->
   Manager.reset_memory_stats w = w) /\
  (Metronome.is_warmup (Manager.metronome (Manager.client w)) = true ->
   let o := Manager.tiktac make_room env (Manager.reset_memory_stats w) in
   (succeeded o = true <->
    Metronome.moment (Manager.metronome (Manager.client w)) = 0) /\
   (Metronome.moment (Manager.metronome (Manager.client w)) = 0 ->
    let m' := Manager.mgr (final_state o) in
    length (Manager.gpu_sys_used_list m') = 1 /\
    length (Manager.gpu_used_list m') = 1 /\
    length (Manager.gpu_chunk_used_list m') = 1 /\
    length (Manager.cpu_sys_used_list m') = 1 /\
    length (Manager.cpu_used_list m') = 1 /\
    length (Manager.cpu_chunk_used_list m') = 1)).
Proof.
  unfold Manager.reset_memory_stats. split; intros Hw; rewrite Hw; [reflexivity|].
  set (w0 := Manager.with_mgr _ w).
  assert (Hw0 : Metronome.is_warmup (Manager.metronome (Manager.client w0)) = true)
    by exact Hw.
  cbn zeta. rewrite (tiktac_warmup_eq make_room env w0 Hw0).
  change (Manager.gpu_sys_used_list (Manager.mgr w0)) with (@nil Q).
  change (Manager.client w0) with (Manager.client w).
  destruct (decide _) as [Heq|Hne]; cbn [length] in *.
  - split; [split; [intros _; lia | reflexivity]|]. intros _.
    unfold Manager.metronome_tiktac, modify.
    cbn [final_state Manager.emit Manager.with_metronome Manager.mgr].
    rewrite recorded_mgr. cbn. repeat split; reflexivity.
  - split; [split; [discriminate | intros Heq; exfalso; lia]|].
    intros Heq. exfalso. lia.
Qed.

(** X11. The profiler only listens: what [tiktac] does to the manager, the
    client and its calls, and whether it returns, do not depend on the
    profiler's state. *)
Theorem tiktac_ignores_profiler
    (env : Manager.Env) (w : Manager.World) (p : Manager.Profiler) :
  let w2 := Manager.with_profiler (fun _ => p) w in
  Manager.observable (final_state (Manager.tiktac make_room env w2))
    = Manager.observable (final_state (Manager.tiktac make_room env w)) /\
  succeeded (Manager.tiktac make_room env w2)
    = succeeded (Manager.tiktac make_room env w).
Proof.
  intros w2.
  assert (Hobs : forall v : Manager.World,
            Manager.observable v = Manager.observable w ->
            Manager.observable (final_state (Manager.tiktac make_room env v))
              = Manager.observable (final_state (Manager.tiktac make_room env w)) /\
            succeeded (Manager.tiktac make_room env v)
              = succeeded (Manager.tiktac make_room env w)).
  { intros v Hv. unfold Manager.observable in Hv. injection Hv as Hm Hc He.
    assert (Hdev : Manager.tiktac_gpu_device env v = Manager.tiktac_gpu_device env w)
      by (unfold Manager.tiktac_gpu_device; rewrite Hc; reflexivity).
    destruct (Metronome.is_warmup (Manager.metronome (Manager.client w))) eqn:Hw.
    - assert (Hwv : Metronome.is_warmup (Manager.metronome (Manager.client v)) = true)
        by (rewrite Hc; exact Hw).
      rewrite (tiktac_warmup_eq make_room env v Hwv),
        (tiktac_warmup_eq make_room env w Hw), Hm, Hc.
      destruct (decide _);
        unfold Manager.metronome_tiktac, modify, Manager.observable;
        cbn [final_state succeeded Manager.emit Manager.with_metronome
             Manager.mgr Manager.client Manager.events];
        rewrite !recorded_mgr, !recorded_client, !recorded_events,
          ?Hm, ?Hc, ?He, ?Hdev;
        auto.
    - assert (Hwv : Metronome.is_warmup (Manager.metronome (Manager.client v)) = false)
        by (rewrite Hc; exact Hw).
      rewrite (tiktac_after_warmup_eq make_room env v Hwv),
        (tiktac_after_warmup_eq make_room env w Hw), Hm, Hc, Hdev.
      destruct (_ !! _) as [used_next|]; cbn zeta.
      2:{ cbn [final_state succeeded]. unfold Manager.observable.
          rewrite !profiled_mgr, !profiled_client, !profiled_events, ?Hm, ?Hc, ?He.
          auto. }
      destruct (Manager.Qltb _ _).
      + unfold bind, Manager.call_make_room.
        cbn [Manager.emit Manager.mgr Manager.client Manager.events
             Manager.profiler Manager.chunk_list].
        rewrite !profiled_mgr, !profiled_client, !profiled_events, ?Hm, ?Hc, ?He.
        destruct (make_room _ _ _) as [[] s|e s]; cbn; auto.
      + unfold Manager.metronome_tiktac, modify, Manager.observable.
        cbn [final_state succeeded Manager.emit Manager.with_metronome
             Manager.mgr Manager.client Manager.events].
        rewrite !profiled_mgr, !profiled_client, !profiled_events, ?Hm, ?Hc, ?He.
        auto. }
  apply Hobs. reflexivity.
Qed.

End TiktacEdges.

Lemma tiktac_warmup_assertion_example :
  exists w',
    Manager.tiktac Manager.offload_idle peak_env late_warmup_world
      = Raise AssertionError w' /\
    Manager.metronome (Manager.client w')
      = Manager.metronome (Manager.client late_warmup_world) /\
    length (Manager.gpu_sys_used_list (Manager.mgr w')) = 1 /\
    length (Manager.cpu_sys_used_list (Manager.mgr w')) = 1.
Proof.
  destruct (tiktac_warmup_assertion Manager.offload_idle peak_env late_warmup_world)
    as [_ H]; [reflexivity|].
  apply H. cbn. lia.
Defined.

Lemma tiktac_short_trace_example :
  exists w',
    Manager.tiktac Manager.offload_idle quiet_env short_trace_world
      = Raise IndexError w' /\
    Manager.observable w' = Manager.observable short_trace_world.
Proof.
  apply (tiktac_short_trace Manager.offload_idle quiet_env short_trace_world);
    [reflexivity | vm_compute; lia].
Defined.

Lemma tiktac_warmup_frame_example :
  let w' := final_state (Manager.tiktac Manager.offload_idle peak_env
                           first_moment_world) in
  Manager.make_room_calls (Manager.events w') = [] /\
  Manager.chunk_list (Manager.client w') = [] /\
  Manager.set_lists [] [] [] [] [] [] (Manager.mgr w')
    = Manager.mgr first_moment_world.
Proof.
  apply (tiktac_warmup_frame Manager.offload_idle peak_env first_moment_world).
  reflexivity.
Defined.

(** ** Stages and the start of training *)

(** X12. Entering the ADAM stage fixes the accelerator's chunk budget at
    budget - 4 * default chunk size * 4, in every state of the manager and
    of the metronome: the trace is not read. *)
Theorem adam_stage_budget
    (env env' : Manager.Env) (w : Manager.World) (met : Metronome.t) :
  let w' := Manager.set_training_stage env' Manager.ADAM w in
  Manager.available_chunk_mem env (Manager.mgr w') met "cuda"
    = Manager.Return
        (Some (Manager._overall_gpu_mem (Manager.mgr w)
               - 4 * Manager._default_chunk_size (Manager.mgr w) * 4)%Q) /\
  Manager.client w' = Manager.client w /\
  Manager.events w' = Manager.events w.
Proof.
  cbn zeta. unfold Manager.set_training_stage, Manager.available_chunk_mem.
  cbn [String.eqb Ascii.eqb Bool.eqb].
  destruct (Manager.started (Manager.profiler w)); cbn;
    (split; [|split; reflexivity]);
    destruct (Manager.always_warmup (Manager.mgr w)), (Metronome.is_warmup met),
      (Manager._start_training (Manager.mgr w)); reflexivity.
Qed.

(** X13. [start_train] puts the metronome in warmup, so that right after it the
    accelerator's chunk budget is the warmup fraction of the total budget
    (or, in the ADAM stage, the total minus 4 * the new chunk size * 4),
    whatever the traces hold, and the cpu's is the cpu budget. *)
Theorem start_train_budget
    (env : Manager.Env) (param_fp16_chunk_size chunk_size : Q) (w : Manager.World) :
  let w' := Manager.start_train param_fp16_chunk_size chunk_size w in
  let m := Manager.mgr w in
  Metronome.is_warmup (Manager.metronome (Manager.client w')) = true /\
  Manager._start_training (Manager.mgr w') = true /\
  Manager.available_chunk_mem env (Manager.mgr w')
    (Manager.metronome (Manager.client w')) "cuda"
    = Manager.Return
        (Some (if decide (Manager._training_stage m = Manager.ADAM)
               then Manager._overall_gpu_mem m - 4 * chunk_size * 4
               else Manager._overall_gpu_mem m * Manager.warmup_gpu_chunk_mem_ratio m)%Q) /\
  Manager.available_chunk_mem env (Manager.mgr w')
    (Manager.metronome (Manager.client w')) "cpu"
    = Manager.Return (Some (Manager._overall_cpu_mem m)).
Proof.
  cbn zeta. unfold Manager.start_train, Manager.available_chunk_mem.
  cbn [String.eqb Ascii.eqb Bool.eqb]. cbn.
  rewrite !orb_true_r. cbn.
  repeat split. destruct (decide _); reflexivity.
Qed.

(** ** The margin for the optimizer *)

Lemma py_max_ge x l : (x <= Manager.py_max x l)%Q.
Proof.
  unfold Manager.py_max. revert x.
  induction l as [|y l IH]; intros x; cbn; [apply Qle_refl|].
  eapply Qle_trans; [apply Q.le_max_l | apply IH].
Qed.

Lemma py_max_upper x l s : s ∈ x :: l -> (s <= Manager.py_max x l)%Q.
Proof.
  unfold Manager.py_max. revert x.
  induction l as [|y l IH]; intros x Hs.
  - apply list_elem_of_singleton in Hs. subst. apply Qle_refl.
  - cbn. apply elem_of_cons in Hs as [->|Hs].
    + eapply Qle_trans; [apply Q.le_max_l | apply (py_max_ge (Qmax x y) l)].
    + apply elem_of_cons in Hs as [->|Hs].
      * eapply Qle_trans; [apply Q.le_max_r | apply (py_max_ge (Qmax x y) l)].
      * apply IH. right. exact Hs.
Qed.

Lemma py_max_attained x l : exists s, s ∈ x :: l /\ (Manager.py_max x l == s)%Q.
Proof.
  unfold Manager.py_max. revert x.
  induction l as [|y l IH]; intros x; cbn.
  - exists x. split; [left | reflexivity].
  - destruct (IH (Qmax x y)) as (s & Hs & Heq).
    apply elem_of_cons in Hs as [->|Hs].
    + destruct (Q.max_dec x y) as [H|H].
      * exists x. split; [left|]. rewrite Heq. exact H.
      * exists y. split; [right; left|]. rewrite Heq. exact H.
    + exists s. split; [right; right; exact Hs | exact Heq].
Qed.

(** X14. [update_margin_mem] fails with a [ValueError] exactly on an empty
    trace, with an [AttributeError] exactly when the trace is not empty but
    training was never started, and with a [ZeroDivisionError] exactly when
    both are in order but the default chunk size is zero. *)
Theorem update_margin_mem_errors (margin_use_ratio : Q) (m : Manager.t) :
  (Manager.update_margin_mem margin_use_ratio m = Manager.MarginValueError
   <-> Manager.gpu_sys_used_list m = []) /\
  (Manager.update_margin_mem margin_use_ratio m = Manager.MarginAttributeError
   <-> Manager.gpu_sys_used_list m <> [] /\ Manager._start_training m = false) /\
  (Manager.update_margin_mem margin_use_ratio m = Manager.MarginZeroDivisionError
   <-> Manager.gpu_sys_used_list m <> [] /\ Manager._start_training m = true /\
       (Manager._default_chunk_size m == 0)%Q).
Proof.
  unfold Manager.update_margin_mem.
  destruct (Manager.gpu_sys_used_list m) as [|x rest].
  { repeat split; try discriminate; try reflexivity; intros [H _]; congruence. }
  destruct (Manager._start_training m); cbn [negb].
  2:{ repeat split; try discriminate; try reflexivity; intros (_ & H & _); discriminate. }
  destruct (Qeq_bool _ 0) eqn:Hz.
  - apply Qeq_bool_iff in Hz.
    repeat split; try discriminate; try reflexivity; try (intros [_ H]; discriminate).
    lra.
  - apply Qeq_bool_neq in Hz.
    repeat split; try discriminate; try (intros [_ H]; discriminate).
    intros (_ & _ & H). exfalso. apply Hz. lra.
Qed.

(** X15. The margin is computed from the peak of the trace: with a positive
    chunk size and a ratio that is not negative, the number of chunks
    [update_margin_mem] stores is at most what any recorded moment would
    allow, and it is what one of them allows. *)
Theorem update_margin_mem_peak
    (margin_use_ratio : Q) (m : Manager.t) (chunk_num : Q) :
  Manager.update_margin_mem margin_use_ratio m = Manager.MarginChunks chunk_num ->
  (0 < Manager._default_chunk_size m)%Q ->
  (0 <= margin_use_ratio)%Q ->
  let allowed (s : Q) :=
    ((Manager._overall_gpu_mem m - s - Manager._param_fp16_chunk_size m)
     / (Manager._default_chunk_size m * 12) * margin_use_ratio)%Q in
  (forall s, s ∈ Manager.gpu_sys_used_list m -> (chunk_num <= allowed s)%Q) /\
  (exists s, s ∈ Manager.gpu_sys_used_list m /\ (chunk_num == allowed s)%Q).
Proof.
  unfold Manager.update_margin_mem.
  destruct (Manager.gpu_sys_used_list m) as [|x rest]; [discriminate|].
  destruct (negb _); [discriminate|].
  destruct (Qeq_bool _ 0); [discriminate|].
  intros H Hpos Hratio. injection H as <-.
  assert (Hd : (0 < Manager._default_chunk_size m * 12)%Q) by lra.
  split.
  - intros s Hs.
    apply Qmult_le_compat_r; [|exact Hratio].
    unfold Qdiv. apply Qmult_le_compat_r.
    + pose proof (py_max_upper x rest s Hs). lra.
    + apply Qlt_le_weak, Qinv_lt_0_compat, Hd.
  - destruct (py_max_attained x rest) as (s & Hs & Heq).
    exists s. split; [exact Hs|]. rewrite Heq. reflexivity.
Qed.

Lemma update_margin_mem_peak_example :
  (forall s, s ∈ [10; 20; 15]%Q ->
     ((100 - Manager.py_max 10 [20; 15] - 0) / (4 * 12) * (4 # 5)
      <= (100 - s - 0) / (4 * 12) * (4 # 5))%Q) /\
  (exists s, s ∈ [10; 20; 15]%Q /\
     ((100 - Manager.py_max 10 [20; 15] - 0) / (4 * 12) * (4 # 5)
      == (100 - s - 0) / (4 * 12) * (4 # 5))%Q).
Proof.
  apply (update_margin_mem_peak (4 # 5) scenario_C_manager);
    [reflexivity | reflexivity | discriminate].
Defined.

(** * Further properties of the client *)

(** ** [release]: all or nothing *)

(** X16. [release] does not check [is_ps_param]: on a handle without the
    attributes it raises an [AttributeError].  Whenever it raises (no
    attributes, no binding for the tensor id, no such chunk, no record in
    the chunk) the state is as it was. *)
Theorem release_all_or_nothing
    (param : Client.handle) (access_type : AccessType) (w : Client.World) :
  (Client.is_ps_param w param = false ->
   Client.release param access_type w = Raise AttributeError w) /\
  (forall e w', Client.release param access_type w = Raise e w' ->
     w' = w /\ (e = AttributeError \/ e = KeyError \/ e = IndexError)).
Proof.
  unfold Client.release, bind, Client.get_ps, Client.is_ps_param, get,
    Client.some_or, Client.set_tensor_status, Client.get_chunk, Client.set_chunk,
    modify, raise, ret.
  destruct (Client.heap w !! param ≫= Client.p_ps) as [ps|].
  2:{ split; [reflexivity|]. intros e w' [= <- <-]. auto. }
  split.
  { intros H. apply bool_decide_eq_false_1 in H. exfalso. apply H.
    eexists; reflexivity. }
  intros e w'.
  destruct (Client.dict_tensor_id_chunk_id w !! _) as [chunk_id|];
    [|intros [= <- <-]; auto].
  unfold bind. destruct (Client.chunk_list w !! chunk_id) as [c|];
    [|intros [= <- <-]; auto].
  destruct (Client.has_record _ c); [discriminate|]. intros [= <- <-]. auto.
Qed.

(** ** [chunk_move]: there and back *)

(** X17. Moving a chunk to the device it is on changes nothing, so a second
    [chunk_move] to the same device is idle; moving a chunk away and back
    to its device restores the chunk list (and never touches the
    registry); a chunk id that does not exist raises an [IndexError] and
    changes nothing. *)
Theorem chunk_move_round_trip
    (chunk_id : nat) (dev : Device) (w : Client.World) :
  (Client.chunk_list w !! chunk_id = None ->
   Client.chunk_move chunk_id dev w = Raise IndexError w) /\
  (forall c, Client.chunk_list w !! chunk_id = Some c ->
     exists w1,
       Client.chunk_move chunk_id dev w = Ok tt w1 /\
       Client.chunk_move chunk_id dev w1 = Ok tt w1 /\
       exists w2,
         Client.chunk_move chunk_id (device c) w1 = Ok tt w2 /\
         Client.chunk_list w2 = Client.chunk_list w /\
         Client.registry w2 = Client.registry w).
Proof.
  split; [apply chunk_move_raises|]. intros c Hc.
  assert (Hlt : chunk_id < length (Client.chunk_list w))
    by (eapply lookup_lt_Some; exact Hc).
  rewrite (chunk_move_eq _ _ _ _ Hc).
  destruct (decide (device c <> dev)) as [Hne|Heq].
  - set (c1 := mkChunk (capacity c) dev (tensor_info_list c) (timestamp c)).
    assert (Hc1 : Client.chunk_list (Client.move chunk_id c dev w) !! chunk_id
                  = Some c1).
    { cbn. apply list_lookup_insert_eq. exact Hlt. }
    eexists. split; [reflexivity|]. split.
    + rewrite (chunk_move_eq _ _ _ _ Hc1).
      rewrite decide_False; [reflexivity|]. intros H. apply H. reflexivity.
    + rewrite (chunk_move_eq _ _ _ _ Hc1).
      rewrite decide_True by (cbn; congruence).
      eexists. split; [reflexivity|]. cbn. split; [|reflexivity].
      rewrite list_insert_insert_eq. destruct c. apply list_insert_id. exact Hc.
  - apply dec_stable in Heq. exists w. split; [reflexivity|].
    rewrite (chunk_move_eq _ _ _ _ Hc).
    rewrite !decide_False by (intros H; apply H; congruence).
    split; [reflexivity|]. exists w. split; [|auto]. rewrite Heq.
    rewrite (chunk_move_eq _ _ _ _ Hc).
    rewrite decide_False by (intros H; apply H; congruence). reflexivity.
Qed.

Section Allocation.

Variable make_room : Z -> Device -> list Chunk -> option (list nat).
Variable allocate : Z -> option Z -> M (list Chunk) (nat * Device).

(** ** [new_tensor] *)

(** X18. [new_tensor] asks [allocate] for the product of the dimensions (1 for
    the empty shape); when it returns for a tensor id, that id is bound to
    the chunk [allocate] chose and every other binding is as before.
    Without a tensor id, or when [allocate] raises, no binding changes. *)
Theorem new_tensor_binds (shape : list Z) (tid : option Z) (w : Client.World) :
  let n := foldl Z.mul 1%Z shape in
  (forall t dest chunk_id w',
     tid = Some t ->
     Client.new_tensor allocate shape tid w = Ok (dest, chunk_id) w' ->
     allocate n tid (Client.chunk_list w) = Ok (chunk_id, dest) (Client.chunk_list w') /\
     Client.dict_tensor_id_chunk_id w' !! t = Some chunk_id /\
     (forall t', t' <> t ->
        Client.dict_tensor_id_chunk_id w' !! t'
        = Client.dict_tensor_id_chunk_id w !! t')) /\
  (tid = None \/ succeeded (Client.new_tensor allocate shape tid w) = false ->
   Client.dict_tensor_id_chunk_id (final_state (Client.new_tensor allocate shape tid w))
   = Client.dict_tensor_id_chunk_id w).
Proof.
  cbn zeta. unfold Client.new_tensor, bind, Client.call_allocate.
  destruct (allocate _ tid (Client.chunk_list w)) as [[chunk_id dest] l|e l].
  - split.
    + intros t dest' chunk_id' w' ->. cbn. intros [= <- <- <-]. cbn.
      split; [reflexivity|]. split; [apply lookup_insert_eq|].
      intros t' Hne. apply lookup_insert_ne. congruence.
    + intros [-> | H]; [reflexivity|]. destruct tid; discriminate.
  - split; [discriminate|]. intros _. reflexivity.
Qed.

(** ** The id counter *)

Lemma perform_counter (op : Client.Op) (w : Client.World) :
  (Client.ps_id w
   <= Client.ps_id (final_state (Client.perform make_room allocate op w)))%Z.
Proof.
  destruct op as [target need | param kind now | param kind | shape t | | module
                  | param | chunk_id dev]; cbn [Client.perform].
  - apply (frames_stable 0 _ w), frames_prepare_device.
  - apply (frames_stable 0 _ w), frames_access.
  - apply (frames_stable 0 _ w), frames_release.
  - unfold bind.
    pose proof (new_tensor_stable allocate
                  (match t with Some x => x + 1 | None => 0 end)%Z shape t w) as Hs.
    destruct (Client.new_tensor allocate shape t w); cbn in *; apply Hs;
      destruct t; intros [= ?]; lia.
  - cbn. lia.
  - apply (register_module_stable allocate (Client.ps_id w)). lia.
  - apply (register_param_stable allocate (Client.ps_id w)). lia.
  - apply (frames_stable 0 _ w), frames_chunk_move.
Qed.

Lemma run_counter (ops : list Client.Op) : forall w,
  (Client.ps_id w <= Client.ps_id (Client.run make_room allocate ops w))%Z.
Proof.
  induction ops as [|op ops IH]; intros w; cbn; [lia|].
  etransitivity; [apply (perform_counter op w) | apply IH].
Qed.

(** X19. [generate_id] never hands out an id twice: whatever the client does in
    between, a later id is above an earlier one. *)
Theorem generate_id_fresh
    (ops : list Client.Op) (w w1 w2 : Client.World) (i j : Z) :
  Client.generate_id w = Ok i w1 ->
  Client.generate_id (Client.run make_room allocate ops w1) = Ok j w2 ->
  (i < j)%Z.
Proof.
  intros [= <- <-] [= <- _]. cbn.
  pose proof (run_counter ops
                (Client.mkWorld (Client.chunk_list w) (Client.ps_id w + 1)
                   (Client.param_data_dict w) (Client.param_grad_dict w)
                   (Client.dict_tensor_id_chunk_id w) (Client.heap w)
                   (Client.ps_manager w) (Client.events w))) as H.
  cbn in H. lia.
Qed.

End Allocation.

(** ** Registration *)

Section Registration.

Variable allocate : Z -> option Z -> M (list Chunk) (nat * Device).

Lemma new_tensor_eq shape t w :
  Client.new_tensor allocate shape (Some t) w =
    match allocate (foldl Z.mul 1%Z shape) (Some t) (Client.chunk_list w) with
    | Ok r l =>
        Ok (r.2, r.1)
           (Client.mkWorld l (Client.ps_id w) (Client.param_data_dict w)
              (Client.param_grad_dict w)
              (<[t := r.1]> (Client.dict_tensor_id_chunk_id w)) (Client.heap w)
              (Client.ps_manager w) (Client.events w))
    | Raise e l => Raise e (Client.with_chunk_list (fun _ => l) w)
    end.
Proof.
  unfold Client.new_tensor, bind, Client.call_allocate.
  destruct (allocate _ _ _); reflexivity.
Qed.

Lemma new_tensor_heap shape t w :
  Client.heap (final_state (Client.new_tensor allocate shape t w)) = Client.heap w.
Proof.
  unfold Client.new_tensor, bind, Client.call_allocate.
  destruct (allocate _ _ _); [destruct t|]; reflexivity.
Qed.

(** The three updates of the parameter object amount to one. *)
Lemma registered_heap (param : Client.handle) (p : Client.Param)
    (hp : gmap Client.handle Client.Param) id1 id2 d1 d2 :
  hp !! param = Some p -> Client.p_ps p = None ->
  alter (Client.with_ps (fun ps =>
           Client.mkPs (Client.ps_data_id ps) (Client.ps_grad_id ps)
                       (Client.compute_device ps) (Client.ps_data_tensor ps)
                       (Some d2))) param
    (alter (fun q =>
              Client.with_ps (fun ps =>
                Client.mkPs (Client.ps_data_id ps) (Client.ps_grad_id ps)
                            (Client.compute_device ps) (Some d1)
                            (Client.ps_grad_tensor ps))
                (Client.bind_view DATA d1 q)) param
       (alter (fun q =>
                 Client.mkParam (Client.p_shape q) (Client.p_data q) (Client.p_grad q)
                   (Some (Client.mkPs id1 id2 (Client.p_data q) None None))) param hp))
  = <[param := registered_as p id1 id2 d1 d2]> hp.
Proof.
  intros Hp Hps. apply map_eq. intros h.
  destruct (decide (h = param)) as [->|Hne].
  - rewrite !lookup_alter_eq, lookup_insert_eq, Hp. reflexivity.
  - rewrite !lookup_alter_ne, lookup_insert_ne by congruence. reflexivity.
Qed.

(** What [register_param] does to a parameter it has not seen, by the
    outcome of the two allocations. *)
Lemma register_param_eq param w p :
  Client.heap w !! param = Some p -> Client.p_ps p = None ->
  let n := foldl Z.mul 1%Z (Client.p_shape p) in
  let id1 := (Client.ps_id w + 1)%Z in
  let id2 := (Client.ps_id w + 2)%Z in
  (forall e l1,
     allocate n (Some id1) (Client.chunk_list w) = Raise e l1 ->
     exists w', Client.register_param allocate param w = Raise e w' /\
                Client.is_ps_param w' param = true) /\
  (forall cid1 d1 l1,
     allocate n (Some id1) (Client.chunk_list w) = Ok (cid1, d1) l1 ->
     (forall e l2,
        allocate n (Some id2) l1 = Raise e l2 ->
        exists w', Client.register_param allocate param w = Raise e w' /\
                   Client.is_ps_param w' param = true) /\
     (forall cid2 d2 l2,
        allocate n (Some id2) l1 = Ok (cid2, d2) l2 ->
        Client.register_param allocate param w =
          match Client.p_grad p with
          | Some _ =>
              Raise AttributeError (allocated_state w param p cid1 cid2 d1 d2 l2)
          | None => Ok tt (registered_state w param p cid1 cid2 d1 d2 l2)
          end)).
Proof.
  intros Hp Hps n id1 id2.
  assert (Hid2 : (Client.ps_id w + 1 + 1 = Client.ps_id w + 2)%Z) by lia.
  subst n id1 id2.
  assert (Hnot : Client.is_ps_param w param = false).
  { unfold Client.is_ps_param. rewrite Hp. cbn. rewrite Hps.
    apply bool_decide_eq_false_2. intros [x Hx]. discriminate Hx. }
  assert (Hmark : forall f w0,
            Client.heap w0 !! param ≫= Client.p_ps = Some f ->
            Client.is_ps_param w0 param = true).
  { intros f w0 H. unfold Client.is_ps_param. rewrite H.
    apply bool_decide_eq_true_2. eexists; reflexivity. }
  assert (Hstart : Client.register_param allocate param w =
            bind (Client.new_tensor allocate (Client.p_shape p) (Some (Client.ps_id w + 1)%Z))
              (fun r =>
                 bind (modify (Client.with_heap (alter (fun q =>
                         Client.with_ps (fun ps =>
                           Client.mkPs (Client.ps_data_id ps) (Client.ps_grad_id ps)
                                       (Client.compute_device ps) (Some r.1)
                                       (Client.ps_grad_tensor ps))
                           (Client.bind_view DATA r.1 q)) param)))
                 (fun _ =>
                 bind (Client.new_tensor allocate (Client.p_shape p) (Some (Client.ps_id w + 2)%Z))
                 (fun r' =>
                 bind (modify (Client.with_heap (alter (Client.with_ps (fun ps =>
                         Client.mkPs (Client.ps_data_id ps) (Client.ps_grad_id ps)
                                     (Client.compute_device ps)
                                     (Client.ps_data_tensor ps) (Some r'.1))) param)))
                 (fun _ =>
                 bind (match Client.p_grad p with
                       | Some _ => raise AttributeError
                       | None => ret tt
                       end)
                 (fun _ =>
                   modify (fun w0 =>
                     Client.mkWorld (Client.chunk_list w0) (Client.ps_id w0)
                       (<[(Client.ps_id w + 1)%Z := param]> (Client.param_data_dict w0))
                       (<[(Client.ps_id w + 2)%Z := param]> (Client.param_grad_dict w0))
                       (Client.dict_tensor_id_chunk_id w0) (Client.heap w0)
                       (Client.ps_manager w0) (Client.events w0)))))))
              (Client.with_heap (alter (fun q =>
                  Client.mkParam (Client.p_shape q) (Client.p_data q) (Client.p_grad q)
                    (Some (Client.mkPs (Client.ps_id w + 1)%Z (Client.ps_id w + 2)%Z (Client.p_data q) None None))) param)
                 (Client.mkWorld (Client.chunk_list w) (Client.ps_id w + 2)%Z
                    (Client.param_data_dict w) (Client.param_grad_dict w)
                    (Client.dict_tensor_id_chunk_id w) (Client.heap w)
                    (Client.ps_manager w) (Client.events w)))).
  { unfold Client.register_param. unfold bind at 1. unfold get. rewrite Hnot.
    unfold Client._convert_to_ps_param. unfold bind at 1. unfold get. rewrite Hnot.
    unfold bind at 1. unfold Client.get_param. rewrite Hp.
    unfold bind at 1. cbn [Client.generate_id]. unfold bind at 1.
    cbn [Client.generate_id Client.ps_id Client.chunk_list Client.param_data_dict
         Client.param_grad_dict Client.dict_tensor_id_chunk_id Client.heap
         Client.ps_manager Client.events].
    unfold bind at 1. unfold modify at 1. rewrite Hid2. reflexivity. }
  rewrite Hstart. clear Hstart.
  split.
  - intros e l1 Ha. unfold bind at 1. rewrite new_tensor_eq.
    cbn [Client.with_heap Client.chunk_list]. rewrite Ha.
    eexists. split; [reflexivity|].
    eapply Hmark. cbn. rewrite lookup_alter_eq, Hp. reflexivity.
  - intros cid1 d1 l1 Ha. split.
    + intros e l2 Hb. unfold bind at 1. rewrite new_tensor_eq.
      cbn [Client.with_heap Client.chunk_list]. rewrite Ha. cbn [fst snd].
      unfold bind at 1. unfold modify at 1.
      unfold bind at 1. rewrite new_tensor_eq.
      cbn [Client.with_heap Client.chunk_list]. rewrite Hb.
      eexists. split; [reflexivity|].
      eapply Hmark. cbn. rewrite !lookup_alter_eq, Hp. cbn. reflexivity.
    + intros cid2 d2 l2 Hb. unfold bind at 1. rewrite new_tensor_eq.
      cbn [Client.with_heap Client.chunk_list]. rewrite Ha. cbn [fst snd].
      unfold bind at 1. unfold modify at 1.
      unfold bind at 1. rewrite new_tensor_eq.
      cbn [Client.with_heap Client.chunk_list]. rewrite Hb. cbn [fst snd].
      unfold bind at 1. unfold modify at 1.
      match goal with
      | |- bind _ _ ?s = _ =>
          assert (Hs : s = allocated_state w param p cid1 cid2 d1 d2 l2)
      end.
      { unfold allocated_state, Client.with_heap. cbn. f_equal.
        apply registered_heap; assumption. }
      rewrite Hs. destruct (Client.p_grad p); reflexivity.
Qed.

End Registration.

Section RegistrationFacts.

Variable allocate : Z -> option Z -> M (list Chunk) (nat * Device).

Lemma is_ps_param_true w param p ps :
  Client.heap w !! param = Some p -> Client.p_ps p = Some ps ->
  Client.is_ps_param w param = true.
Proof.
  intros Hp Hps. unfold Client.is_ps_param. rewrite Hp. cbn. rewrite Hps.
  apply bool_decide_eq_true_2. eexists; reflexivity.
Qed.

Lemma is_ps_param_false w param :
  Client.is_ps_param w param = false ->
  Client.heap w !! param = None \/
  exists p, Client.heap w !! param = Some p /\ Client.p_ps p = None.
Proof.
  unfold Client.is_ps_param. intros H. apply bool_decide_eq_false_1 in H.
  destruct (Client.heap w !! param) as [p|]; [right | left; reflexivity].
  exists p. split; [reflexivity|]. cbn in H.
  destruct (Client.p_ps p); [|reflexivity]. exfalso. apply H. eexists; reflexivity.
Qed.

Lemma register_param_known w param :
  Client.is_ps_param w param = true ->
  Client.register_param allocate param w = Ok tt w.
Proof. intros H. unfold Client.register_param, bind, get. rewrite H. reflexivity. Qed.

(** X20. A parameter without a gradient, when both allocations return:
    [register_param] returns; the parameter has drawn the next two ids, its
    data tensor and its gradient tensor are bound to the chunks [allocate]
    chose, its compute device is the device it was on, its data now lives
    where the first allocation put it, and it is entered in both
    dictionaries.  Nothing else has changed. *)
Theorem register_param_registers
    (param : Client.handle) (w : Client.World) (p : Client.Param)
    (cid1 cid2 : nat) (d1 d2 : Device) (l1 l2 : list Chunk) :
  Client.heap w !! param = Some p ->
  Client.p_ps p = None ->
  Client.p_grad p = None ->
  allocate (foldl Z.mul 1%Z (Client.p_shape p)) (Some (Client.ps_id w + 1)%Z)
    (Client.chunk_list w) = Ok (cid1, d1) l1 ->
  allocate (foldl Z.mul 1%Z (Client.p_shape p)) (Some (Client.ps_id w + 2)%Z) l1
    = Ok (cid2, d2) l2 ->
  Client.register_param allocate param w
  = Ok tt (registered_state w param p cid1 cid2 d1 d2 l2).
Proof.
  intros Hp Hps Hg Ha Hb.
  destruct (register_param_eq allocate param w p Hp Hps) as [_ H].
  destruct (H cid1 d1 l1 Ha) as [_ H'].
  rewrite (H' cid2 d2 l2 Hb), Hg. reflexivity.
Qed.

(** X21. A parameter that already has a gradient cannot be registered: line 194
    calls [copy_] on [ps_grad_tesnor], which is [None].  By then both
    tensors are allocated and bound and the parameter carries its
    attributes, but it is in neither dictionary; since it now counts as a
    ps param, registering it again does nothing. *)
Theorem register_param_with_grad
    (param : Client.handle) (w : Client.World) (p : Client.Param) (g : Device)
    (cid1 cid2 : nat) (d1 d2 : Device) (l1 l2 : list Chunk) :
  Client.heap w !! param = Some p ->
  Client.p_ps p = None ->
  Client.p_grad p = Some g ->
  allocate (foldl Z.mul 1%Z (Client.p_shape p)) (Some (Client.ps_id w + 1)%Z)
    (Client.chunk_list w) = Ok (cid1, d1) l1 ->
  allocate (foldl Z.mul 1%Z (Client.p_shape p)) (Some (Client.ps_id w + 2)%Z) l1
    = Ok (cid2, d2) l2 ->
  let w' := allocated_state w param p cid1 cid2 d1 d2 l2 in
  Client.register_param allocate param w = Raise AttributeError w' /\
  Client.param_data_dict w' = Client.param_data_dict w /\
  Client.param_grad_dict w' = Client.param_grad_dict w /\
  Client.is_ps_param w' param = true /\
  Client.register_param allocate param w' = Ok tt w'.
Proof.
  intros Hp Hps Hg Ha Hb w'.
  destruct (register_param_eq allocate param w p Hp Hps) as [_ H].
  destruct (H cid1 d1 l1 Ha) as [_ H'].
  rewrite (H' cid2 d2 l2 Hb), Hg.
  assert (Hps' : Client.is_ps_param w' param = true).
  { eapply is_ps_param_true; [apply lookup_insert_eq | reflexivity]. }
  repeat split; try reflexivity; [exact Hps'|].
  apply register_param_known. exact Hps'.
Qed.

(** X22. However the first call ended, a second [register_param] of the same
    parameter changes nothing. *)
Theorem register_param_idempotent (param : Client.handle) (w : Client.World) :
  let w1 := final_state (Client.register_param allocate param w) in
  final_state (Client.register_param allocate param w1) = w1.
Proof.
  cbn zeta.
  destruct (Client.is_ps_param w param) eqn:Hknown.
  { rewrite (register_param_known w param Hknown). cbn [final_state].
    rewrite (register_param_known w param Hknown). reflexivity. }
  destruct (is_ps_param_false w param Hknown) as [Hnone | (p & Hp & Hps)].
  { assert (Hr : Client.register_param allocate param w = Raise AttributeError w).
    { unfold Client.register_param, bind, get. rewrite Hknown.
      unfold Client._convert_to_ps_param, bind, get. rewrite Hknown.
      unfold Client.get_param. rewrite Hnone. reflexivity. }
    rewrite Hr. cbn [final_state]. rewrite Hr. reflexivity. }
  destruct (register_param_eq allocate param w p Hp Hps) as [H1 H2].
  destruct (allocate (foldl Z.mul 1%Z (Client.p_shape p))
              (Some (Client.ps_id w + 1)%Z) (Client.chunk_list w))
    as [[cid1 d1] l1|e l1] eqn:Ha.
  2:{ destruct (H1 e l1 eq_refl) as (w' & -> & Hm). cbn [final_state].
      rewrite (register_param_known _ _ Hm). reflexivity. }
  destruct (H2 cid1 d1 l1 eq_refl) as [H3 H4].
  destruct (allocate (foldl Z.mul 1%Z (Client.p_shape p))
              (Some (Client.ps_id w + 2)%Z) l1)
    as [[cid2 d2] l2|e l2] eqn:Hb.
  2:{ destruct (H3 e l2 eq_refl) as (w' & -> & Hm). cbn [final_state].
      rewrite (register_param_known _ _ Hm). reflexivity. }
  rewrite (H4 cid2 d2 l2 eq_refl).
  destruct (Client.p_grad p); cbn [final_state];
    rewrite register_param_known; try reflexivity;
    (eapply is_ps_param_true; [apply lookup_insert_eq | reflexivity]).
Qed.

(** When [register_param] returns, the parameter is a ps param, and so is
    every parameter that was one before. *)
Lemma register_param_marks param w w' :
  Client.register_param allocate param w = Ok tt w' ->
  Client.is_ps_param w' param = true /\
  (forall h, Client.is_ps_param w h = true -> Client.is_ps_param w' h = true).
Proof.
  intros Hr.
  destruct (Client.is_ps_param w param) eqn:Hknown.
  { rewrite (register_param_known w param Hknown) in Hr. injection Hr as <-.
    auto. }
  destruct (is_ps_param_false w param Hknown) as [Hnone | (p & Hp & Hps)].
  { exfalso. unfold Client.register_param, bind, get in Hr. rewrite Hknown in Hr.
    unfold Client._convert_to_ps_param, bind, get in Hr. rewrite Hknown in Hr.
    unfold Client.get_param in Hr. rewrite Hnone in Hr. discriminate Hr. }
  destruct (register_param_eq allocate param w p Hp Hps) as [H1 H2].
  destruct (allocate (foldl Z.mul 1%Z (Client.p_shape p))
              (Some (Client.ps_id w + 1)%Z) (Client.chunk_list w))
    as [[cid1 d1] l1|e l1] eqn:Ha.
  2:{ destruct (H1 e l1 eq_refl) as (w0 & Hw0 & _).
      rewrite Hw0 in Hr. discriminate Hr. }
  destruct (H2 cid1 d1 l1 eq_refl) as [H3 H4].
  destruct (allocate (foldl Z.mul 1%Z (Client.p_shape p))
              (Some (Client.ps_id w + 2)%Z) l1)
    as [[cid2 d2] l2|e l2] eqn:Hb.
  2:{ destruct (H3 e l2 eq_refl) as (w0 & Hw0 & _).
      rewrite Hw0 in Hr. discriminate Hr. }
  rewrite (H4 cid2 d2 l2 eq_refl) in Hr.
  destruct (Client.p_grad p); [discriminate|]. injection Hr as <-.
  split.
  - eapply is_ps_param_true; [apply lookup_insert_eq | reflexivity].
  - intros h Hh. destruct (decide (h = param)) as [->|Hne]; [congruence|].
    unfold Client.is_ps_param in *. cbn.
    rewrite lookup_insert_ne by (intros Heq; apply Hne; symmetry; exact Heq).
    exact Hh.
Qed.

(** X23. [register_module] without a module does nothing, and when it returns
    for a module, every parameter of the module is a ps param: registering
    the module again returns and changes nothing. *)
Theorem register_module_idempotent
    (module : option (list Client.handle)) (w w' : Client.World) :
  Client.register_module allocate module w = Ok tt w' ->
  (module = None -> w' = w) /\
  (forall params, module = Some params ->
     forall h, h ∈ params -> Client.is_ps_param w' h = true) /\
  Client.register_module allocate module w' = Ok tt w'.
Proof.
  destruct module as [params|].
  2:{ intros [= <-]. split; [reflexivity|].
      split; [intros ps H; discriminate H | reflexivity]. }
  cbn [Client.register_module].
  assert (Hbody : forall param v,
            bind get (fun v0 : Client.World =>
              if Client.is_ps_param v0 param then ret tt
              else Client._convert_to_ps_param allocate param) v
            = Client.register_param allocate param v) by reflexivity.
  assert (Hall : forall ps v v',
            for_each ps (fun param =>
              bind get (fun v0 : Client.World =>
                if Client.is_ps_param v0 param then ret tt
                else Client._convert_to_ps_param allocate param)) v = Ok tt v' ->
            (forall h, h ∈ ps -> Client.is_ps_param v' h = true) /\
            (forall h, Client.is_ps_param v h = true -> Client.is_ps_param v' h = true)).
  { induction ps as [|param ps IH]; intros v v'; cbn [for_each].
    - intros [= <-]. split; [|auto]. intros h Hh. apply elem_of_nil in Hh. destruct Hh.
    - unfold bind at 1. rewrite Hbody.
      destruct (Client.register_param allocate param v) as [[] v1|e v1] eqn:Hr;
        [|discriminate].
      intros Hrest. destruct (register_param_marks param v v1 Hr) as [Hm Hmono].
      destruct (IH v1 v' Hrest) as [Hin Hmono'].
      split; [|auto]. intros h Hh. apply elem_of_cons in Hh as [->|Hh]; auto. }
  assert (Hidle : forall ps v,
            (forall h, h ∈ ps -> Client.is_ps_param v h = true) ->
            for_each ps (fun param =>
              bind get (fun v0 : Client.World =>
                if Client.is_ps_param v0 param then ret tt
                else Client._convert_to_ps_param allocate param)) v = Ok tt v).
  { induction ps as [|param ps IH]; intros v Hv; cbn [for_each]; [reflexivity|].
    unfold bind at 1. rewrite Hbody, register_param_known by (apply Hv; left).
    apply IH. intros h Hh. apply Hv. right. exact Hh. }
  intros Hrun. destruct (Hall params w w' Hrun) as [Hin _].
  split; [discriminate|]. split.
  - intros ps [= <-]. exact Hin.
  - apply Hidle. exact Hin.
Qed.

End RegistrationFacts.

(** ** [access], once more *)

(** [access_finish] with everything it leaves: the chunk is touched and the
    record marked, the view is bound in the parameter object, and nothing
    else changes. *)
Lemma access_finish_full param access_type chunk_id now w p ps c view :
  Client.heap w !! param = Some p ->
  Client.p_ps p = Some ps ->
  Client.tensor_device access_type p = Some (Client.compute_device ps) ->
  Client.ps_tensor_device access_type ps = Some view ->
  Client.chunk_list w !! chunk_id = Some c ->
  Client.has_record (Client.tensor_id_of access_type ps) c = true ->
  Client.access_finish param access_type chunk_id now w
  = Ok tt
      (Client.mkWorld
         (<[chunk_id := Client.set_status (Client.tensor_id_of access_type ps) COMPUTE
                          (Client.touch now c)]> (Client.chunk_list w))
         (Client.ps_id w) (Client.param_data_dict w) (Client.param_grad_dict w)
         (Client.dict_tensor_id_chunk_id w)
         (<[param := Client.bind_view access_type view p]> (Client.heap w))
         (Client.ps_manager w) (Client.events w)).
Proof.
  intros Hp Hps Ht Hv Hc Hr.
  assert (Hlt : chunk_id < length (Client.chunk_list w))
    by (eapply lookup_lt_Some; exact Hc).
  unfold Client.access_finish, bind, Client.get_param, Client.get_ps,
    Client.some_or, Client.get_chunk, Client.set_chunk, modify, ret.
  rewrite Hp. cbn. rewrite Ht. cbn. rewrite Hp. cbn. rewrite Hps.
  rewrite decide_True by reflexivity.
  rewrite Hc, Hv. cbn.
  unfold Client.set_tensor_status, bind, Client.get_chunk. cbn.
  rewrite list_lookup_insert_eq by exact Hlt.
  assert (Hr' : Client.has_record (Client.tensor_id_of access_type ps)
                  (Client.touch now c) = true) by exact Hr.
  rewrite Hr'. unfold Client.set_chunk, modify, Client.with_chunk_list,
    Client.with_heap. cbn.
  rewrite list_insert_insert_eq. do 2 f_equal.
  apply map_eq. intros h. destruct (decide (h = param)) as [->|Hne].
  - rewrite lookup_alter_eq, lookup_insert_eq, Hp. reflexivity.
  - rewrite lookup_alter_ne, lookup_insert_ne by congruence. reflexivity.
Qed.

Section AccessAgain.

Variable make_room : Z -> Device -> list Chunk -> option (list nat).

(** [access] on a tensor that is settled: nothing is prepared or moved. *)
Lemma access_settled param access_type chunk_id now w :
  Client.settled w param access_type chunk_id ->
  exists w1 c,
    Client.access make_room param access_type now w = Ok tt w1 /\
    Client.chunk_list w !! chunk_id = Some c /\
    Client.chunk_list w1
      = <[chunk_id := mkChunk (capacity c) (device c)
                        (tensor_info_list
                           (Client.set_status
                              (default 0%Z
                                 (Client.tensor_id_of access_type
                                    <$> (Client.heap w !! param ≫= Client.p_ps)))
                              COMPUTE c))
                        now]> (Client.chunk_list w) /\
    Client.events w1 = Client.events w /\
    Client.registry w1 = Client.registry w /\
    Client.tensor_status w1 param access_type = Some COMPUTE /\
    Client.settled w1 param access_type chunk_id.
Proof.
  intros (p & ps & c & Hp & Hps & Hd & Hc & Hr & Hdev & Hv & Ht).
  assert (Hlt : chunk_id < length (Client.chunk_list w))
    by (eapply lookup_lt_Some; exact Hc).
  assert (Hisps : Client.is_ps_param w param = true).
  { unfold Client.is_ps_param. rewrite Hp. cbn. rewrite Hps.
    apply bool_decide_eq_true_2. eexists; reflexivity. }
  assert (Hstart : Client.access make_room param access_type now w =
                   Client.access_finish param access_type chunk_id now w).
  { unfold Client.access at 1. unfold bind at 1. unfold get.
    rewrite Hisps. cbn [negb]. unfold bind at 1. unfold Client.get_ps.
    rewrite Hp. cbn [mbind option_bind]. rewrite Hps.
    unfold bind at 1. rewrite Hd. cbn [Client.some_or ret].
    unfold bind at 1. rewrite Hv. cbn [Client.some_or ret].
    rewrite decide_False by (intros H; apply H; reflexivity).
    reflexivity. }
  rewrite Hstart.
  rewrite (access_finish_full param access_type chunk_id now w p ps c
             (Client.compute_device ps) Hp Hps Ht Hv Hc Hr).
  eexists _, c. split; [reflexivity|]. split; [exact Hc|].
  cbn [Client.chunk_list Client.events].
  split; [rewrite Hp; cbn; rewrite Hps; reflexivity|].
  split; [reflexivity|]. split; [reflexivity|].
  split.
  { unfold Client.tensor_status.
    cbn [Client.heap Client.chunk_list Client.dict_tensor_id_chunk_id].
    rewrite lookup_insert_eq. cbn [mbind option_bind].
    assert (Hps' : Client.p_ps (Client.bind_view access_type
                                  (Client.compute_device ps) p) = Some ps)
      by (destruct access_type; exact Hps).
    rewrite Hps'. cbn [mbind option_bind]. rewrite Hd. cbn [mbind option_bind].
    rewrite list_lookup_insert_eq by exact Hlt. cbn [mbind option_bind].
    apply status_of_set_status. exact Hr. }
  exists (Client.bind_view access_type (Client.compute_device ps) p), ps,
    (Client.set_status (Client.tensor_id_of access_type ps) COMPUTE
       (Client.touch now c)).
  cbn [Client.heap Client.chunk_list Client.dict_tensor_id_chunk_id].
  rewrite lookup_insert_eq, list_lookup_insert_eq by exact Hlt.
  split; [reflexivity|]. split; [destruct access_type; exact Hps|].
  split; [exact Hd|]. split; [reflexivity|].
  split; [rewrite has_record_set_status; exact Hr|].
  split; [exact Hdev|]. split; [exact Hv|].
  destruct access_type; reflexivity.
Qed.

(** [release] keeps a settled tensor settled. *)
Lemma release_settled param access_type chunk_id w :
  Client.settled w param access_type chunk_id ->
  exists w1,
    Client.release param access_type w = Ok tt w1 /\
    device <$> Client.chunk_list w1 = device <$> Client.chunk_list w /\
    Client.events w1 = Client.events w /\
    Client.settled w1 param access_type chunk_id.
Proof.
  intros (p & ps & c & Hp & Hps & Hd & Hc & Hr & Hdev & Hv & Ht).
  assert (Hlt : chunk_id < length (Client.chunk_list w))
    by (eapply lookup_lt_Some; exact Hc).
  assert (Hrel : Client.release param access_type w
                 = Ok tt (Client.with_chunk_list
                            (fun l => <[chunk_id :=
                               Client.set_status (Client.tensor_id_of access_type ps)
                                 HOLD c]> l) w)).
  { unfold Client.release, bind, Client.get_ps, get, Client.some_or.
    rewrite Hp. cbn [mbind option_bind]. rewrite Hps, Hd. cbn [ret].
    apply set_tensor_status_ok; assumption. }
  eexists. split; [exact Hrel|]. cbn.
  split; [eapply fmap_insert_same; [exact Hc | reflexivity]|].
  split; [reflexivity|].
  exists p, ps, (Client.set_status (Client.tensor_id_of access_type ps) HOLD c).
  unfold Client.with_chunk_list.
  cbn [Client.heap Client.chunk_list Client.dict_tensor_id_chunk_id].
  rewrite list_lookup_insert_eq by exact Hlt.
  split; [exact Hp|]. split; [exact Hps|]. split; [exact Hd|].
  split; [reflexivity|].
  split; [rewrite has_record_set_status; exact Hr|].
  split; [exact Hdev|]. split; [exact Hv | exact Ht].
Qed.

(** X24. Once a tensor is settled, using it again moves nothing: [access],
    [release] and a second [access] all return, no [make_room] call and no
    move is made, every chunk is on the device it was on, and the tensor's
    record ends in COMPUTE with the touch time of the second access. *)
Theorem access_release_access
    (param : Client.handle) (access_type : AccessType) (chunk_id : nat)
    (now now' : Z) (w : Client.World) :
  Client.settled w param access_type chunk_id ->
  exists w1 w2 w3 c3,
    Client.access make_room param access_type now w = Ok tt w1 /\
    Client.release param access_type w1 = Ok tt w2 /\
    Client.access make_room param access_type now' w2 = Ok tt w3 /\
    Client.events w3 = Client.events w /\
    device <$> Client.chunk_list w3 = device <$> Client.chunk_list w /\
    Client.chunk_list w3 !! chunk_id = Some c3 /\
    timestamp c3 = now' /\
    Client.tensor_status w3 param access_type = Some COMPUTE /\
    Client.settled w3 param access_type chunk_id.
Proof.
  intros Hs.
  destruct (access_settled param access_type chunk_id now w Hs)
    as (w1 & c & Ha1 & Hc & Hl1 & He1 & _ & _ & Hs1).
  destruct (release_settled param access_type chunk_id w1 Hs1)
    as (w2 & Hr & Hd2 & He2 & Hs2).
  destruct (access_settled param access_type chunk_id now' w2 Hs2)
    as (w3 & c2 & Ha3 & Hc2 & Hl3 & He3 & _ & Hst3 & Hs3).
  assert (Hlt2 : chunk_id < length (Client.chunk_list w2))
    by (eapply lookup_lt_Some; exact Hc2).
  eexists w1, w2, w3, _. split; [exact Ha1|]. split; [exact Hr|].
  split; [exact Ha3|]. split; [congruence|].
  split.
  { rewrite Hl3. rewrite (fmap_insert_same device _ _ c2) by (exact Hc2 || reflexivity).
    rewrite Hd2, Hl1.
    apply (fmap_insert_same device _ _ c); [exact Hc | reflexivity]. }
  split; [rewrite Hl3; apply list_lookup_insert_eq; exact Hlt2|].
  split; [reflexivity|]. split; [exact Hst3 | exact Hs3].
Qed.

(** X25. [access] for the gradient of a parameter that has no gradient, when the
    gradient's chunk is already on the compute device: line 93 reads
    [param.grad.device] and raises an [AttributeError]; the state is as it
    was (nothing was touched or marked). *)
Theorem access_grad_without_grad
    (param : Client.handle) (now : Z) (w : Client.World)
    (p : Client.Param) (ps : Client.PsAttrs) (chunk_id : nat) :
  Client.heap w !! param = Some p ->
  Client.p_ps p = Some ps ->
  Client.dict_tensor_id_chunk_id w !! Client.ps_grad_id ps = Some chunk_id ->
  Client.ps_grad_tensor ps = Some (Client.compute_device ps) ->
  Client.p_grad p = None ->
  Client.access make_room param GRAD now w = Raise AttributeError w.
Proof.
  intros Hp Hps Hd Hv Hg.
  assert (Hisps : Client.is_ps_param w param = true).
  { unfold Client.is_ps_param. rewrite Hp. cbn. rewrite Hps.
    apply bool_decide_eq_true_2. eexists; reflexivity. }
  unfold Client.access at 1. unfold bind at 1. unfold get.
  rewrite Hisps. cbn [negb]. unfold bind at 1. unfold Client.get_ps.
  rewrite Hp. cbn [mbind option_bind]. rewrite Hps.
  unfold bind at 1. cbn [Client.tensor_id_of]. rewrite Hd. cbn [Client.some_or ret].
  unfold bind at 1. cbn [Client.ps_tensor_device]. rewrite Hv.
  cbn [Client.some_or ret].
  rewrite decide_False by (intros H; apply H; reflexivity).
  unfold bind at 1. cbn [ret].
  unfold Client.access_finish, bind, Client.get_param. rewrite Hp.
  cbn [Client.tensor_device]. rewrite Hg. reflexivity.
Qed.

(** X26. What a successful [access] leaves is a settled tensor: under the
    conditions in which [access] returns (the views of the tensor follow its
    chunk, and room can be made when the chunk is elsewhere), the chunk and
    both views of the tensor are on the compute device afterwards, whichever
    of the two paths was taken. *)
Theorem access_settles
    (param : Client.handle) (access_type : AccessType) (now : Z) (w : Client.World)
    (p : Client.Param) (ps : Client.PsAttrs) (chunk_id : nat) (c : Chunk) :
  Client.heap w !! param = Some p ->
  Client.p_ps p = Some ps ->
  Client.dict_tensor_id_chunk_id w !! Client.tensor_id_of access_type ps
    = Some chunk_id ->
  Client.chunk_list w !! chunk_id = Some c ->
  Client.has_record (Client.tensor_id_of access_type ps) c = true ->
  Client.ps_tensor_device access_type ps = Some (device c) ->
  Client.tensor_device access_type p = Some (device c) ->
  Client.owned_by (Client.param_data_dict w) (Client.param_grad_dict w) param
    access_type (Client.tensor_id_of access_type ps) ->
  (device c <> Client.compute_device ps ->
   Client.room_can_be_made make_room w (Client.compute_device ps) (capacity c)) ->
  exists w',
    Client.access make_room param access_type now w = Ok tt w' /\
    Client.settled w' param access_type chunk_id.
Proof.
  intros Hp Hps Hd Hc Hr Hv Ht Hown Hroom.
  destruct (decide (Client.compute_device ps <> device c)) as [Hne|Heq].
  2:{ apply dec_stable in Heq.
      destruct (access_settled param access_type chunk_id now w)
        as (w1 & _ & Ha & _ & _ & _ & _ & _ & Hs).
      { exists p, ps, c. rewrite Heq. repeat split; assumption. }
      exists w1. split; assumption. }
  set (tid := Client.tensor_id_of access_type ps) in *.
  assert (Hisps : Client.is_ps_param w param = true).
  { unfold Client.is_ps_param. rewrite Hp. cbn. rewrite Hps.
    apply bool_decide_eq_true_2. eexists; reflexivity. }
  assert (Hstart : Client.access make_room param access_type now w =
            bind (bind (Client.get_chunk chunk_id) (fun c0 =>
                      bind (Client.prepare_device make_room
                              (Client.compute_device ps) (capacity c0))
                           (fun _ => Client.chunk_move chunk_id
                                       (Client.compute_device ps))))
                 (fun _ => Client.access_finish param access_type chunk_id now) w).
  { unfold Client.access at 1. unfold bind at 1. unfold get.
    rewrite Hisps. cbn [negb]. unfold bind at 1. unfold Client.get_ps.
    rewrite Hp. cbn [mbind option_bind]. rewrite Hps.
    unfold bind at 1. fold tid. rewrite Hd. cbn [Client.some_or ret].
    unfold bind at 1. rewrite Hv. cbn [Client.some_or ret].
    rewrite decide_True by exact Hne. reflexivity. }
  rewrite Hstart. clear Hstart.
  assert (Hne' : device c <> Client.compute_device ps) by congruence.
  destruct (prepare_device_ok make_room _ _ _ (Hroom Hne'))
    as (w2 & Hprep & Hcont & Hreg & Hid & Hdevs & evs & Hev).
  assert (Hc2 : exists c2, Client.chunk_list w2 !! chunk_id = Some c2 /\
                           Client.contents c2 = Client.contents c).
  { assert (Hl : Client.contents <$> Client.chunk_list w2 !! chunk_id
                 = Some (Client.contents c)).
    { rewrite <- list_lookup_fmap, Hcont, list_lookup_fmap, Hc. reflexivity. }
    destruct (Client.chunk_list w2 !! chunk_id) as [c2|]; [|discriminate].
    exists c2. split; [reflexivity|]. cbn in Hl. congruence. }
  destruct Hc2 as (c2 & Hc2 & Hcont2).
  unfold Client.contents in Hcont2. injection Hcont2 as Hcap2 Hinfo2 Htime2.
  assert (Hdev2 : device c2 <> Client.compute_device ps).
  { destruct (Hdevs _ _ _ Hc Hc2) as [-> | ->]; [exact Hne'|].
    apply alternate_device_neq. }
  set (dev := Client.compute_device ps) in *.
  set (w3 := Client.move chunk_id c2 dev w2).
  assert (Hlt2 : chunk_id < length (Client.chunk_list w2))
    by (eapply lookup_lt_Some; exact Hc2).
  assert (Hbranch :
            bind (Client.get_chunk chunk_id) (fun c0 =>
              bind (Client.prepare_device make_room dev (capacity c0))
                   (fun _ => Client.chunk_move chunk_id dev)) w = Ok tt w3).
  { unfold bind at 1. unfold Client.get_chunk. rewrite Hc.
    unfold bind. rewrite Hprep. rewrite (chunk_move_eq _ _ _ _ Hc2).
    rewrite decide_True by exact Hdev2. reflexivity. }
  unfold bind at 1. rewrite Hbranch.
  assert (Hreg3 : Client.registry w3 = Client.registry w) by (rewrite <- Hreg; reflexivity).
  assert (Hid3 : Client.identity <$> Client.heap w3 = Client.identity <$> Client.heap w).
  { unfold w3. rewrite identity_move. exact Hid. }
  assert (Hbound : Client.bound_to dev param access_type (Client.heap w3)).
  { unfold w3, Client.move. cbn.
    injection Hreg as _ Hpdd Hpgd _ _. rewrite Hpdd, Hpgd.
    apply rebind_all_binds with (tid := tid).
    - exact Hown.
    - eapply bindable_identity; [exact Hid|].
      exists p. rewrite Hps, Ht. split; [exact Hp|].
      split; eexists; reflexivity.
    - rewrite Hinfo2. exact Hr. }
  destruct Hbound as (p3 & ps3 & Hp3 & Hps3 & Ht3 & Hv3).
  destruct (compute_device_identity param _ _ _ _ _ _ Hid3 Hp Hps Hp3 Hps3)
    as (Hcd & Hdi & Hgi).
  assert (Htid3 : Client.tensor_id_of access_type ps3 = tid).
  { unfold tid. destruct access_type; cbn; assumption. }
  set (c3 := mkChunk (capacity c2) dev (tensor_info_list c2) (timestamp c2)).
  assert (Hc3 : Client.chunk_list w3 !! chunk_id = Some c3).
  { unfold w3, Client.move. cbn. apply list_lookup_insert_eq. exact Hlt2. }
  assert (Hlt3 : chunk_id < length (Client.chunk_list w3))
    by (eapply lookup_lt_Some; exact Hc3).
  assert (Hr3 : Client.has_record (Client.tensor_id_of access_type ps3) c3 = true).
  { rewrite Htid3. unfold Client.has_record, c3. cbn. rewrite Hinfo2. exact Hr. }
  rewrite (access_finish_full param access_type chunk_id now w3 p3 ps3 c3 dev);
    [| exact Hp3 | exact Hps3 | rewrite Hcd; exact Ht3 | exact Hv3 | exact Hc3
     | exact Hr3 ].
  eexists. split; [reflexivity|].
  exists (Client.bind_view access_type dev p3), ps3,
    (Client.set_status (Client.tensor_id_of access_type ps3) COMPUTE
       (Client.touch now c3)).
  cbn [Client.heap Client.chunk_list Client.dict_tensor_id_chunk_id].
  rewrite lookup_insert_eq, list_lookup_insert_eq by exact Hlt3.
  split; [reflexivity|]. split; [destruct access_type; exact Hps3|].
  split.
  { rewrite Htid3. injection Hreg3 as _ _ _ Hdict _.
    replace (Client.dict_tensor_id_chunk_id w3)
      with (Client.dict_tensor_id_chunk_id w) by (symmetry; exact Hdict).
    exact Hd. }
  split; [reflexivity|].
  split; [rewrite has_record_set_status; exact Hr3|].
  split; [rewrite Hcd; reflexivity|].
  split; [rewrite Hcd; exact Hv3|].
  rewrite Hcd. destruct access_type; reflexivity.
Qed.

End AccessAgain.

(** ** What [prepare_device] cannot do *)

Lemma chunk_move_frame chunk_id dev w :
  let w' := final_state (Client.chunk_move chunk_id dev w) in
  Client.contents <$> Client.chunk_list w' = Client.contents <$> Client.chunk_list w /\
  (forall idx c c',
     Client.chunk_list w !! idx = Some c ->
     Client.chunk_list w' !! idx = Some c' ->
     device c' = device c \/ device c' = dev).
Proof.
  cbn zeta. destruct (Client.chunk_list w !! chunk_id) as [c0|] eqn:Hc0.
  - destruct (chunk_move_spec chunk_id dev w c0 Hc0)
      as (w1 & Hm & Hdev & Hother & Hcont & _ & _).
    rewrite Hm. cbn [final_state]. split; [exact Hcont|].
    intros idx c c' Hc Hc'. destruct (decide (idx = chunk_id)) as [->|Hne].
    + right. rewrite Hc' in Hdev. cbn in Hdev. congruence.
    + left. rewrite (Hother idx Hne) in Hc'. congruence.
  - rewrite (chunk_move_raises _ _ _ Hc0). cbn [final_state].
    split; [reflexivity|]. intros idx c c' Hc Hc'. left. congruence.
Qed.

Lemma move_all_frame dev victims : forall w,
  let w' := final_state (for_each victims (fun idx => Client.chunk_move idx dev) w) in
  Client.contents <$> Client.chunk_list w' = Client.contents <$> Client.chunk_list w /\
  (forall idx c c',
     Client.chunk_list w !! idx = Some c ->
     Client.chunk_list w' !! idx = Some c' ->
     device c' = device c \/ device c' = dev).
Proof.
  induction victims as [|v victims IH]; intros w; cbn zeta.
  - cbn. split; [reflexivity|]. intros idx c c' Hc Hc'. left. congruence.
  - cbn [for_each]. unfold bind.
    pose proof (chunk_move_frame v dev w) as [Hcont Hdev]. cbn zeta in Hcont, Hdev.
    destruct (Client.chunk_move v dev w) as [[] w1|e w1]; cbn [final_state] in *.
    + destruct (IH w1) as [Hcont' Hdev']. cbn zeta in Hcont', Hdev'.
      split; [congruence|].
      intros idx c c' Hc Hc'.
      destruct (Client.chunk_list w1 !! idx) as [c1|] eqn:Hc1.
      * destruct (Hdev' idx c1 c' Hc1 Hc') as [H|H]; [|right; exact H].
        rewrite H. apply (Hdev idx c c1 Hc Hc1).
      * exfalso. apply lookup_ge_None in Hc1.
        apply lookup_lt_Some in Hc.
        rewrite <- (length_fmap Client.contents), Hcont, length_fmap in Hc1. lia.
    + split; [exact Hcont | exact Hdev].
Qed.

Section PrepareDeviceFrame.

Variable make_room : Z -> Device -> list Chunk -> option (list nat).

(** X27. Whatever [make_room] answers and however [prepare_device] ends (it
    returns, or raises at line 49, in [make_room], or in a move of a chunk
    id that does not exist), the state it leaves has the same chunks with
    the same capacities, records and touch times, the same tensor ids,
    tensor-to-parameter and tensor-to-chunk tables, and the same parameter
    objects up to the devices of their views; and every chunk is on the
    device it was on or on the alternate device of the target. *)
Theorem prepare_device_frame
    (target_device : Device) (need_size : Z) (w : Client.World) :
  let w' := final_state (Client.prepare_device make_room target_device need_size w) in
  Client.contents <$> Client.chunk_list w' = Client.contents <$> Client.chunk_list w /\
  Client.registry w' = Client.registry w /\
  Client.identity <$> Client.heap w' = Client.identity <$> Client.heap w /\
  (forall idx c c',
     Client.chunk_list w !! idx = Some c ->
     Client.chunk_list w' !! idx = Some c' ->
     device c' = device c \/ device c' = Client.alternate_device target_device).
Proof.
  cbn zeta. rewrite prepare_device_eq. cbn zeta.
  assert (Hsame :
    Client.contents <$> Client.chunk_list w = Client.contents <$> Client.chunk_list w /\
    Client.registry w = Client.registry w /\
    Client.identity <$> Client.heap w = Client.identity <$> Client.heap w /\
    (forall idx c c',
       Client.chunk_list w !! idx = Some c ->
       Client.chunk_list w !! idx = Some c' ->
       device c' = device c \/ device c' = Client.alternate_device target_device)).
  { repeat split. intros idx c c' Hc Hc'. left. congruence. }
  destruct (_ <? _)%Z; [exact Hsame|].
  destruct (_ <=? _)%Z; [exact Hsame|].
  destruct (make_room _ _ _) as [moved_list|]; [|exact Hsame].
  set (w1 := Client.emit _ w).
  destruct (move_all_frame (Client.alternate_device target_device) moved_list w1)
    as [Hcont Hdev].
  destruct (move_all_any (Client.alternate_device target_device) moved_list w1)
    as (Hreg & _ & _).
  split; [exact Hcont|]. split; [exact Hreg|].
  split; [|exact Hdev].
  exact (identity_move_all (Client.alternate_device target_device) moved_list w1).
Qed.

End PrepareDeviceFrame.

(** ** Examples for the client *)

(** The id drawn before the sample operations is 2; the one drawn after
    them is larger (the registration of the second parameter drew two). *)
Lemma generate_id_fresh_example :
  exists j w2,
    Client.generate_id
      (Client.run Client.make_room_lru allocate_64 sample_ops
         (final_state (Client.generate_id registered_world))) = Ok j w2 /\
    (2 < j)%Z.
Proof.
  eexists _, _. split; [reflexivity|].
  eapply (generate_id_fresh Client.make_room_lru allocate_64 sample_ops
           registered_world (final_state (Client.generate_id registered_world))
           _ 2 _); reflexivity.
Defined.

(** The registration of the first parameter of a new client: ids 0 and 1,
    both tensors in chunk 0 on the cpu. *)
Lemma register_param_registers_example :
  Client.register_param allocate_64 0 unregistered_world
  = Ok tt (registered_state unregistered_world 0 fresh_param 0 0
             cpu_device cpu_device [registered_chunk]).
Proof.
  eapply (register_param_registers allocate_64 0 unregistered_world fresh_param
            0 0 cpu_device cpu_device
            [mkChunk 64 cpu_device [mkTensorInfo (Some 0%Z) 0 32 UNINIT] 0]
            [registered_chunk]); reflexivity.
Defined.

(** A parameter that has a gradient: the registration raises, the
    parameter counts as registered, and neither dictionary has an entry. *)
Lemma register_param_with_grad_example :
  exists w',
    Client.register_param allocate_64 0 grad_world = Raise AttributeError w' /\
    Client.is_ps_param w' 0 = true /\
    Client.param_data_dict w' = ∅ /\
    Client.param_grad_dict w' = ∅.
Proof.
  destruct (register_param_with_grad allocate_64 0 grad_world param_with_grad
              (cuda_device 0) 0 0 cpu_device cpu_device
              [mkChunk 64 cpu_device [mkTensorInfo (Some 0%Z) 0 32 UNINIT] 0]
              [registered_chunk])
    as (H1 & H2 & H3 & H4 & _);
    [reflexivity | reflexivity | reflexivity | reflexivity | reflexivity |].
  eexists. split; [exact H1|]. split; [exact H4|].
  split; [exact H2 | exact H3].
Defined.

(** Both parameters of the module are registered by the first call; the
    second call changes nothing. *)
Lemma register_module_idempotent_example :
  exists w',
    Client.register_module allocate_64 (Some [0; 1]) unregistered_world = Ok tt w' /\
    Client.is_ps_param w' 0 = true /\ Client.is_ps_param w' 1 = true /\
    Client.register_module allocate_64 (Some [0; 1]) w' = Ok tt w'.
Proof.
  assert (H : Client.register_module allocate_64 (Some [0; 1]) unregistered_world
              = Ok tt (final_state
                         (Client.register_module allocate_64 (Some [0; 1])
                            unregistered_world)))
    by (vm_compute; reflexivity).
  destruct (register_module_idempotent allocate_64 (Some [0; 1]) unregistered_world
              _ H) as (_ & H2 & H3).
  eexists. split; [exact H|].
  split; [apply (H2 [0; 1] eq_refl); left|].
  split; [apply (H2 [0; 1] eq_refl); right; left | exact H3].
Defined.

(** A parameter whose compute device is the cpu, where its chunk is: two
    accesses with a release in between leave the log of calls empty. *)
Lemma access_release_access_example :
  exists w1 w2 w3,
    Client.access Client.make_room_lru 0 DATA 5 cpu_registered_world = Ok tt w1 /\
    Client.release 0 DATA w1 = Ok tt w2 /\
    Client.access Client.make_room_lru 0 DATA 9 w2 = Ok tt w3 /\
    Client.events w3 = [] /\
    Client.tensor_status w3 0 DATA = Some COMPUTE.
Proof.
  destruct (access_release_access Client.make_room_lru 0 DATA 0 5 9
              cpu_registered_world)
    as (w1 & w2 & w3 & c3 & H1 & H2 & H3 & H4 & _ & _ & _ & H5 & _).
  { exists cpu_registered_param, cpu_registered_attrs, registered_chunk.
    repeat split; reflexivity. }
  exists w1, w2, w3. repeat split; assumption.
Defined.

(** The same parameter has no gradient: an access to its gradient raises
    and changes nothing. *)
Lemma access_grad_without_grad_example :
  Client.access Client.make_room_lru 0 GRAD 5 cpu_registered_world
  = Raise AttributeError cpu_registered_world.
Proof.
  apply (access_grad_without_grad Client.make_room_lru 0 5 cpu_registered_world
           cpu_registered_param cpu_registered_attrs 0); reflexivity.
Defined.

(** The first access to the data of the registered parameter leaves it
    settled on [cuda:0]. *)
Lemma access_settles_example :
  exists w',
    Client.access Client.make_room_lru 0 DATA 5 registered_world = Ok tt w' /\
    Client.settled w' 0 DATA 0.
Proof.
  apply (access_settles Client.make_room_lru 0 DATA 5 registered_world
           registered_param registered_attrs 0 registered_chunk);
    [reflexivity | reflexivity | reflexivity | reflexivity | reflexivity
    | reflexivity | reflexivity | reflexivity |].
  intros _. split; [vm_compute; discriminate|].
  intros Hlt. vm_compute in Hlt. discriminate Hlt.
Defined.

(** ** [access] to a gradient *)

Section AccessGradient.

Variable make_room : Z -> Device -> list Chunk -> option (list nat).

Lemma identity_prepare_device target_device need_size w :
  Client.identity
    <$> Client.heap
          (final_state (Client.prepare_device make_room target_device need_size w))
  = Client.identity <$> Client.heap w.
Proof.
  rewrite prepare_device_eq. cbn zeta.
  destruct (_ <? _)%Z; [reflexivity|].
  destruct (_ <=? _)%Z; [reflexivity|].
  destruct (make_room _ _ _) as [victims|]; [|reflexivity].
  exact (identity_move_all (Client.alternate_device target_device) victims
           (Client.emit _ w)).
Qed.

(** Having no gradient is part of what a move leaves alone. *)
Lemma no_gradient_identity (hp hp' : gmap Client.handle Client.Param) param p :
  Client.identity <$> hp' = Client.identity <$> hp ->
  hp !! param = Some p -> Client.p_grad p = None ->
  exists p', hp' !! param = Some p' /\ Client.p_grad p' = None.
Proof.
  intros Hid Hp Hg.
  assert (Hl : Client.identity <$> hp' !! param = Client.identity <$> hp !! param)
    by (rewrite <- !lookup_fmap, Hid; reflexivity).
  rewrite Hp in Hl. destruct (hp' !! param) as [p'|]; [|discriminate].
  exists p'. split; [reflexivity|].
  cbn in Hl. unfold Client.identity in Hl. rewrite Hg in Hl.
  injection Hl as _ Hb _.
  destruct (Client.p_grad p'); [|reflexivity].
  cbn in Hb. discriminate Hb.
Qed.

(** C7 fails for gradients.  [access(param, AccessType.GRAD)] never returns
    for a parameter that has no gradient: line 93 reads [param.grad.device]
    before line 105 binds [param.grad], and neither [prepare_device] nor a
    move gives the parameter a gradient.  A registration that returns
    leaves the parameter without a gradient, so this is every registered
    parameter. *)
Theorem access_without_gradient
    (param : Client.handle) (now : Z) (w : Client.World) (p : Client.Param) :
  Client.heap w !! param = Some p ->
  Client.p_grad p = None ->
  succeeded (Client.access make_room param GRAD now w) = false.
Proof.
  intros Hp Hg.
  assert (Hfin : forall chunk_id w3,
            Client.identity <$> Client.heap w3 = Client.identity <$> Client.heap w ->
            Client.access_finish param GRAD chunk_id now w3 = Raise AttributeError w3).
  { intros chunk_id w3 Hid.
    destruct (no_gradient_identity _ _ param p Hid Hp Hg) as (p3 & Hp3 & Hg3).
    unfold Client.access_finish, bind, Client.get_param. rewrite Hp3.
    cbn [Client.tensor_device]. rewrite Hg3. reflexivity. }
  unfold Client.access. unfold bind at 1. unfold get.
  destruct (Client.is_ps_param w param); cbn [negb]; [|reflexivity].
  unfold bind at 1. unfold Client.get_ps at 1.
  destruct (Client.heap w !! param ≫= Client.p_ps) as [ps|]; [|reflexivity].
  unfold bind at 1.
  destruct (Client.dict_tensor_id_chunk_id w !! Client.tensor_id_of GRAD ps)
    as [chunk_id|]; cbn [Client.some_or ret raise]; [|reflexivity].
  unfold bind at 1.
  destruct (Client.ps_tensor_device GRAD ps) as [current|];
    cbn [Client.some_or ret raise]; [|reflexivity].
  unfold bind at 1.
  destruct (decide (Client.compute_device ps <> current)) as [Hne|Heq].
  2:{ cbn [ret]. rewrite (Hfin chunk_id w eq_refl). reflexivity. }
  (* the chunk is elsewhere: room is prepared and the chunk is moved first *)
  unfold bind at 1. unfold Client.get_chunk.
  destruct (Client.chunk_list w !! chunk_id) as [c|]; [|reflexivity].
  unfold bind at 1.
  pose proof (identity_prepare_device (Client.compute_device ps) (capacity c) w)
    as Hid1.
  destruct (Client.prepare_device make_room (Client.compute_device ps) (capacity c) w)
    as [[] w1|e w1]; [|reflexivity].
  cbn [final_state] in Hid1.
  pose proof (identity_chunk_move chunk_id (Client.compute_device ps) w1) as Hid2.
  destruct (Client.chunk_move chunk_id (Client.compute_device ps) w1)
    as [[] w2|e w2]; [|reflexivity].
  cbn [final_state] in Hid2.
  rewrite (Hfin chunk_id w2) by (rewrite Hid2; exact Hid1). reflexivity.
Qed.

End AccessGradient.

(** The registered parameter of the examples has no gradient.  With its
    chunk on the cpu and [cuda:0] as compute device, the chunk is moved,
    then line 93 raises: the gradient's record is still UNINIT.  For the
    parameter whose compute device is the cpu, where its chunk is, line 93
    raises at once. *)
Lemma access_without_gradient_example :
  succeeded (Client.access Client.make_room_lru 0 GRAD 5 registered_world) = false /\
  (exists w',
     Client.access Client.make_room_lru 0 GRAD 5 registered_world
       = Raise AttributeError w' /\
     Client.events w' = [Client.EvMove 0 (cuda_device 0)] /\
     Client.tensor_status w' 0 GRAD = Some UNINIT) /\
  Client.is_ps_param cpu_registered_world 0 = true /\
  succeeded (Client.access Client.make_room_lru 0 GRAD 5 cpu_registered_world) = false /\
  Client.tensor_status
    (final_state (Client.access Client.make_room_lru 0 GRAD 5 cpu_registered_world))
    0 GRAD = Some UNINIT.
Proof.
  split.
  { apply (access_without_gradient Client.make_room_lru 0 5 registered_world
             registered_param); reflexivity. }
  split; [eexists; repeat split; reflexivity|].
  split; [reflexivity|].
  split; [|reflexivity].
  apply (access_without_gradient Client.make_room_lru 0 5 cpu_registered_world
           cpu_registered_param); reflexivity.
Defined.
